(** * DatasetBuilder

    A shallow embedding of [design_bench/datasets/dataset_builder.py]:
    the sharded dataset abstraction with its batch generator, the
    streaming statistics, percentile sub-sampling, relabelling,
    cloning and splitting; of the table of the lookup oracle in
    [design_bench/oracles/exact/nas_bench_oracle.py]; and of the
    sharding loop of [process/process_raw_superconductor.py].  They are
    followed by the properties of the specification that were checked
    against them, and by further properties of the code.

    Conventions of the embedding.
    - A design row is a list of reals (its features, flattened), a
      prediction row is one real (the arrays of predictions have shape
      [N, 1]).  Arithmetic is exact: numpy's floats are the reals.
    - A numpy array of rows is a [list] of rows; slicing [a[i:j]] is
      [slice a i j].
    - Python exceptions are values of [error]; a method that mutates
      [self] is a computation in the state-and-exception monad [M],
      which keeps the state reached when the exception was raised.
    - The generator [iterate_batches] is a resumable cursor
      ([generator], [gen_next]); consuming it to the end is [drain]. *)

From Stdlib Require Import String DecimalString.
From Stdlib Require Import List ZArith QArith Qround Reals Lra Lia Bool.
From Stdlib Require Import Arith PeanoNat.
Import ListNotations.

Local Open Scope nat_scope.

(* ================================================================= *)
(** ** Values *)

(** Thresholds on predictions: [np.NINF], a real, or [np.PINF]. *)
Inductive bound : Type :=
| NINF
| Fin (r : R)
| PINF.

Definition Rleb (a b : R) : bool := if Rle_dec a b then true else false.
Definition Rltb (a b : R) : bool := if Rlt_dec a b then true else false.

(** [y <= b] *)
Definition le_bound (y : R) (b : bound) : bool :=
  match b with NINF => false | Fin r => Rleb y r | PINF => true end.

(** [y >= b], also written [b <= y] *)
Definition ge_bound (y : R) (b : bound) : bool :=
  match b with NINF => true | Fin r => Rleb r y | PINF => false end.

(** [b > y] *)
Definition bound_gt (b : bound) (y : R) : bool :=
  match b with NINF => false | Fin r => Rltb y r | PINF => true end.

(** [b < y] *)
Definition bound_lt (b : bound) (y : R) : bool :=
  match b with NINF => true | Fin r => Rltb r y | PINF => false end.

(** A statistic of the designs: the Python integer [0] the running
    mean starts from (a 0-d value that broadcasts), or a [1, d] row. *)
Inductive ndarray : Type :=
| Scalar (c : R)
| Vec (w : list R).

Fixpoint zip_with {A B C : Type} (f : A -> B -> C)
  (u : list A) (v : list B) : list C :=
  match u, v with
  | a :: u', b :: v' => f a b :: zip_with f u' v'
  | _, _ => []
  end.

(** Broadcasting of two statistics.  Rows of equal width combine
    pointwise (numpy raises on a width mismatch; [zip_with] stops at
    the shorter row). *)
Definition bcast (f : R -> R -> R) (a b : ndarray) : ndarray :=
  match a, b with
  | Scalar c, Scalar d => Scalar (f c d)
  | Scalar c, Vec w => Vec (map (fun v => f c v) w)
  | Vec w, Scalar d => Vec (map (fun v => f v d) w)
  | Vec u, Vec w => Vec (zip_with f u w)
  end.

Definition nd_map (f : R -> R) (a : ndarray) : ndarray :=
  match a with Scalar c => Scalar (f c) | Vec w => Vec (map f w) end.

(** One design row against a statistic. *)
Definition row_op (f : R -> R -> R) (row : list R) (a : ndarray) : list R :=
  match a with
  | Scalar c => map (fun v => f v c) row
  | Vec w => zip_with f row w
  end.

(** [np.sum(batch, axis=0, keepdims=True)] for a batch of design rows;
    the sum of no rows is the unit of addition. *)
Definition np_sum_rows (batch : list (list R)) : ndarray :=
  fold_left (fun acc row => bcast Rplus acc (Vec row)) batch (Scalar 0%R).

(** [np.sum(batch, axis=0, keepdims=True)] for a batch of predictions. *)
Definition np_sum (batch : list R) : R :=
  fold_left Rplus batch 0%R.

(** [np.where(a == 0.0, 1.0, a)] *)
Definition zero_to_one (v : R) : R :=
  if Req_dec_T v 0%R then 1%R else v.

(** [a[i:j]] for [0 <= i <= j]. *)
Definition slice {A : Type} (a : list A) (i j : nat) : list A :=
  firstn (j - i) (skipn i a).

(** [l[i]] for a Python list and a Python integer: a negative index
    counts from the end; [None] is [IndexError]. *)
Definition py_index {A : Type} (l : list A) (i : Z) : option A :=
  if (0 <=? i)%Z then nth_error l (Z.to_nat i)
  else if (0 <=? Z.of_nat (length l) + i)%Z
       then nth_error l (Z.to_nat (Z.of_nat (length l) + i))
       else None.

Fixpoint list_update {A : Type} (l : list A) (n : nat) (v : A) : list A :=
  match l, n with
  | [], _ => []
  | _ :: l', 0 => v :: l'
  | a :: l', S n' => a :: list_update l' n' v
  end.

(** [l[i] = v]; [None] is [IndexError]. *)
Definition py_setitem {A : Type} (l : list A) (i : Z) (v : A)
  : option (list A) :=
  if (0 <=? i)%Z then
    if Z.to_nat i <? length l then Some (list_update l (Z.to_nat i) v)
    else None
  else if (0 <=? Z.of_nat (length l) + i)%Z
       then Some (list_update l (Z.to_nat (Z.of_nat (length l) + i)) v)
       else None.

(** [int(q)]: truncation towards zero. *)
Definition py_int (q : Q) : Z := Z.quot (Qnum q) (Zpos (Qden q)).

(** [mask] selects rows: [a[np.where(mask)[0]]]. *)
Fixpoint select {A : Type} (mask : list bool) (a : list A) : list A :=
  match mask, a with
  | b :: mask', r :: a' =>
      if b then r :: select mask' a' else select mask' a'
  | _, _ => []
  end.

(** [np.where(mask)[0]]: the positions where the mask holds. *)
Fixpoint np_where (mask : list bool) (from : nat) : list nat :=
  match mask with
  | [] => []
  | b :: mask' =>
      if b then from :: np_where mask' (S from) else np_where mask' (S from)
  end.

(* ================================================================= *)
(** ** Shards and the dataset state *)

(** A shard is an array held in memory, or a [DiskResource]: a file
    named [disk_target] that [np.load] reads and [np.save] overwrites.
    The file's content is kept with the resource (each resource names a
    file of its own, present on disk once the constructor has downloaded
    it). *)
Inductive shard (A : Type) : Type :=
| InMemory (data : A)
| OnDisk (disk_target : string) (file : A).
Arguments InMemory {A} data.
Arguments OnDisk {A} disk_target file.

Definition shard_data {A : Type} (sh : shard A) : A :=
  match sh with InMemory d => d | OnDisk _ d => d end.

Definition shard_store {A : Type} (sh : shard A) (d : A) : shard A :=
  match sh with InMemory _ => InMemory d | OnDisk p _ => OnDisk p d end.

Definition x_array : Type := list (list R).
Definition y_array : Type := list R.

Record DatasetBuilder : Type := mkDatasetBuilder {
  x_shards : list (shard x_array);
  y_shards : list (shard y_array);
  num_shards : nat;
  dataset_min_percentile : Q;
  dataset_max_percentile : Q;
  dataset_min_output : bound;
  dataset_max_output : bound;
  internal_batch_size : Z;
  is_normalized_x : bool;
  is_normalized_y : bool;
  disable_transform : bool;
  freeze_statistics : bool;
  x_mean : option ndarray;
  y_mean : option R;
  x_standard_dev : option ndarray;
  y_standard_dev : option R;
  input_shape : option (list nat);
  input_size : option nat;
  dataset_size : nat
}.

(** Attribute assignments [self.f = v]. *)
Definition set_x_shards v s :=
  mkDatasetBuilder v (y_shards s) (num_shards s)
    (dataset_min_percentile s) (dataset_max_percentile s)
    (dataset_min_output s) (dataset_max_output s) (internal_batch_size s)
    (is_normalized_x s) (is_normalized_y s) (disable_transform s)
    (freeze_statistics s) (x_mean s) (y_mean s) (x_standard_dev s)
    (y_standard_dev s) (input_shape s) (input_size s) (dataset_size s).

Definition set_y_shards v s :=
  mkDatasetBuilder (x_shards s) v (num_shards s)
    (dataset_min_percentile s) (dataset_max_percentile s)
    (dataset_min_output s) (dataset_max_output s) (internal_batch_size s)
    (is_normalized_x s) (is_normalized_y s) (disable_transform s)
    (freeze_statistics s) (x_mean s) (y_mean s) (x_standard_dev s)
    (y_standard_dev s) (input_shape s) (input_size s) (dataset_size s).

Definition set_min_percentile v s :=
  mkDatasetBuilder (x_shards s) (y_shards s) (num_shards s)
    v (dataset_max_percentile s)
    (dataset_min_output s) (dataset_max_output s) (internal_batch_size s)
    (is_normalized_x s) (is_normalized_y s) (disable_transform s)
    (freeze_statistics s) (x_mean s) (y_mean s) (x_standard_dev s)
    (y_standard_dev s) (input_shape s) (input_size s) (dataset_size s).

Definition set_max_percentile v s :=
  mkDatasetBuilder (x_shards s) (y_shards s) (num_shards s)
    (dataset_min_percentile s) v
    (dataset_min_output s) (dataset_max_output s) (internal_batch_size s)
    (is_normalized_x s) (is_normalized_y s) (disable_transform s)
    (freeze_statistics s) (x_mean s) (y_mean s) (x_standard_dev s)
    (y_standard_dev s) (input_shape s) (input_size s) (dataset_size s).

Definition set_min_output v s :=
  mkDatasetBuilder (x_shards s) (y_shards s) (num_shards s)
    (dataset_min_percentile s) (dataset_max_percentile s)
    v (dataset_max_output s) (internal_batch_size s)
    (is_normalized_x s) (is_normalized_y s) (disable_transform s)
    (freeze_statistics s) (x_mean s) (y_mean s) (x_standard_dev s)
    (y_standard_dev s) (input_shape s) (input_size s) (dataset_size s).

Definition set_max_output v s :=
  mkDatasetBuilder (x_shards s) (y_shards s) (num_shards s)
    (dataset_min_percentile s) (dataset_max_percentile s)
    (dataset_min_output s) v (internal_batch_size s)
    (is_normalized_x s) (is_normalized_y s) (disable_transform s)
    (freeze_statistics s) (x_mean s) (y_mean s) (x_standard_dev s)
    (y_standard_dev s) (input_shape s) (input_size s) (dataset_size s).

Definition set_is_normalized_x v s :=
  mkDatasetBuilder (x_shards s) (y_shards s) (num_shards s)
    (dataset_min_percentile s) (dataset_max_percentile s)
    (dataset_min_output s) (dataset_max_output s) (internal_batch_size s)
    v (is_normalized_y s) (disable_transform s)
    (freeze_statistics s) (x_mean s) (y_mean s) (x_standard_dev s)
    (y_standard_dev s) (input_shape s) (input_size s) (dataset_size s).

Definition set_is_normalized_y v s :=
  mkDatasetBuilder (x_shards s) (y_shards s) (num_shards s)
    (dataset_min_percentile s) (dataset_max_percentile s)
    (dataset_min_output s) (dataset_max_output s) (internal_batch_size s)
    (is_normalized_x s) v (disable_transform s)
    (freeze_statistics s) (x_mean s) (y_mean s) (x_standard_dev s)
    (y_standard_dev s) (input_shape s) (input_size s) (dataset_size s).

Definition set_disable_transform v s :=
  mkDatasetBuilder (x_shards s) (y_shards s) (num_shards s)
    (dataset_min_percentile s) (dataset_max_percentile s)
    (dataset_min_output s) (dataset_max_output s) (internal_batch_size s)
    (is_normalized_x s) (is_normalized_y s) v
    (freeze_statistics s) (x_mean s) (y_mean s) (x_standard_dev s)
    (y_standard_dev s) (input_shape s) (input_size s) (dataset_size s).

Definition set_freeze_statistics v s :=
  mkDatasetBuilder (x_shards s) (y_shards s) (num_shards s)
    (dataset_min_percentile s) (dataset_max_percentile s)
    (dataset_min_output s) (dataset_max_output s) (internal_batch_size s)
    (is_normalized_x s) (is_normalized_y s) (disable_transform s)
    v (x_mean s) (y_mean s) (x_standard_dev s)
    (y_standard_dev s) (input_shape s) (input_size s) (dataset_size s).

Definition set_x_mean v s :=
  mkDatasetBuilder (x_shards s) (y_shards s) (num_shards s)
    (dataset_min_percentile s) (dataset_max_percentile s)
    (dataset_min_output s) (dataset_max_output s) (internal_batch_size s)
    (is_normalized_x s) (is_normalized_y s) (disable_transform s)
    (freeze_statistics s) v (y_mean s) (x_standard_dev s)
    (y_standard_dev s) (input_shape s) (input_size s) (dataset_size s).

Definition set_y_mean v s :=
  mkDatasetBuilder (x_shards s) (y_shards s) (num_shards s)
    (dataset_min_percentile s) (dataset_max_percentile s)
    (dataset_min_output s) (dataset_max_output s) (internal_batch_size s)
    (is_normalized_x s) (is_normalized_y s) (disable_transform s)
    (freeze_statistics s) (x_mean s) v (x_standard_dev s)
    (y_standard_dev s) (input_shape s) (input_size s) (dataset_size s).

Definition set_x_standard_dev v s :=
  mkDatasetBuilder (x_shards s) (y_shards s) (num_shards s)
    (dataset_min_percentile s) (dataset_max_percentile s)
    (dataset_min_output s) (dataset_max_output s) (internal_batch_size s)
    (is_normalized_x s) (is_normalized_y s) (disable_transform s)
    (freeze_statistics s) (x_mean s) (y_mean s) v
    (y_standard_dev s) (input_shape s) (input_size s) (dataset_size s).

Definition set_y_standard_dev v s :=
  mkDatasetBuilder (x_shards s) (y_shards s) (num_shards s)
    (dataset_min_percentile s) (dataset_max_percentile s)
    (dataset_min_output s) (dataset_max_output s) (internal_batch_size s)
    (is_normalized_x s) (is_normalized_y s) (disable_transform s)
    (freeze_statistics s) (x_mean s) (y_mean s) (x_standard_dev s)
    v (input_shape s) (input_size s) (dataset_size s).

Definition set_input_shape v w s :=
  mkDatasetBuilder (x_shards s) (y_shards s) (num_shards s)
    (dataset_min_percentile s) (dataset_max_percentile s)
    (dataset_min_output s) (dataset_max_output s) (internal_batch_size s)
    (is_normalized_x s) (is_normalized_y s) (disable_transform s)
    (freeze_statistics s) (x_mean s) (y_mean s) (x_standard_dev s)
    (y_standard_dev s) v w (dataset_size s).

Definition set_dataset_size v s :=
  mkDatasetBuilder (x_shards s) (y_shards s) (num_shards s)
    (dataset_min_percentile s) (dataset_max_percentile s)
    (dataset_min_output s) (dataset_max_output s) (internal_batch_size s)
    (is_normalized_x s) (is_normalized_y s) (disable_transform s)
    (freeze_statistics s) (x_mean s) (y_mean s) (x_standard_dev s)
    (y_standard_dev s) (input_shape s) (input_size s) v.

(* ================================================================= *)
(** ** Exceptions and the method monad *)

Inductive error : Type :=
| InvalidArgument        (* ValueError: invalid arguments ...            *)
| IndexOutOfRange        (* ValueError: shard id=... out of bounds       *)
| FrozenStatisticsError  (* ValueError: cannot update dataset when it is frozen *)
| EmptySplitError        (* ValueError: split produces empty ... set     *)
| PyIndexError           (* IndexError: list index out of range          *)
| NumpyValueError        (* ValueError raised inside numpy               *)
| PyTypeError            (* TypeError: arithmetic on None                *)
| Diverged.              (* the call does not return                     *)

Inductive outcome (A : Type) : Type :=
| Returns (a : A)
| Raises (e : error).
Arguments Returns {A} a.
Arguments Raises {A} e.

Definition M (A : Type) : Type := DatasetBuilder -> outcome A * DatasetBuilder.

Definition ret {A : Type} (a : A) : M A := fun s => (Returns a, s).
Definition raise {A : Type} (e : error) : M A := fun s => (Raises e, s).
Definition bind {A B : Type} (c : M A) (k : A -> M B) : M B :=
  fun s => match c s with
           | (Returns a, s') => k a s'
           | (Raises e, s') => (Raises e, s')
           end.
Definition get : M DatasetBuilder := fun s => (Returns s, s).
Definition assign (f : DatasetBuilder -> DatasetBuilder) : M unit :=
  fun s => (Returns tt, f s).
(** A read of [self] that may raise. *)
Definition read {A : Type} (f : DatasetBuilder -> outcome A) : M A :=
  fun s => (f s, s).

Declare Scope method_scope.
Delimit Scope method_scope with method.
Notation "x <- c ;; k" := (bind c (fun x => k))
  (at level 61, c at next level, right associativity) : method_scope.
Notation "c ;; k" := (bind c (fun _ => k))
  (at level 61, right associativity) : method_scope.
Local Open Scope method_scope.

(* ================================================================= *)
(** ** Shard access: [get_num_shards], [get_shard_*], [set_shard_*] *)

Definition get_num_shards (s : DatasetBuilder) : nat := num_shards s.

(** [0 < shard_id >= self.get_num_shards()], Python's chained
    comparison: [0 < shard_id and shard_id >= self.get_num_shards()]. *)
Definition shard_id_rejected (s : DatasetBuilder) (shard_id : Z) : bool :=
  (0 <? shard_id)%Z && (Z.of_nat (get_num_shards s) <=? shard_id)%Z.

Definition get_shard_x (s : DatasetBuilder) (shard_id : Z) : outcome x_array :=
  if shard_id_rejected s shard_id then Raises IndexOutOfRange
  else match py_index (x_shards s) shard_id with
       | None => Raises PyIndexError
       | Some (InMemory data) => Returns data
       | Some (OnDisk _ file) => Returns file
       end.

Definition get_shard_y (s : DatasetBuilder) (shard_id : Z) : outcome y_array :=
  if shard_id_rejected s shard_id then Raises IndexOutOfRange
  else match py_index (y_shards s) shard_id with
       | None => Raises PyIndexError
       | Some (InMemory data) => Returns data
       | Some (OnDisk _ file) => Returns file
       end.

Definition set_shard_x (shard_id : Z) (shard_data : x_array) : M unit :=
  fun s =>
  if shard_id_rejected s shard_id then (Raises IndexOutOfRange, s)
  else match py_index (x_shards s) shard_id with
       | None => (Raises PyIndexError, s)
       | Some sh =>
           match py_setitem (x_shards s) shard_id (shard_store sh shard_data) with
           | Some l => (Returns tt, set_x_shards l s)
           | None => (Raises PyIndexError, s)
           end
       end.

Definition set_shard_y (shard_id : Z) (shard_data : y_array) : M unit :=
  fun s =>
  if shard_id_rejected s shard_id then (Raises IndexOutOfRange, s)
  else match py_index (y_shards s) shard_id with
       | None => (Raises PyIndexError, s)
       | Some sh =>
           match py_setitem (y_shards s) shard_id (shard_store sh shard_data) with
           | Some l => (Returns tt, set_y_shards l s)
           | None => (Raises PyIndexError, s)
           end
       end.

(* ================================================================= *)
(** ** The batch transform *)

(** [(x - mean) / standard_dev] and [x * standard_dev + mean], row by
    row. *)
Definition standardize (x : x_array) (mean sd : ndarray) : x_array :=
  map (fun row => row_op Rdiv (row_op Rminus row mean) sd) x.


(** The rows a percentile filter keeps. *)
Definition in_range (s : DatasetBuilder) (y : R) : bool :=
  le_bound y (dataset_max_output s) && ge_bound y (dataset_min_output s).

(** Modelled from the spec: [batch_transform] is abstract in
    [DatasetBuilder] and its implementations (the discrete and
    continuous dataset classes) are not part of the sources.  The
    spec's transform contract: rows whose y falls outside
    [[min_output, max_output]] are dropped, then the surviving rows are
    normalized with the cached statistics when the normalization flag
    of their channel is on.  Both channels are received; a channel that
    is not requested is [None] on both sides (here the empty array).
    With the flag on and no cached statistics the rows pass unchanged;
    no method of the class leaves the dataset in that state. *)
Definition batch_transform (s : DatasetBuilder)
  (x_batch : x_array) (y_batch : y_array) (return_x return_y : bool)
  : x_array * y_array :=
  let mask := map (in_range s) y_batch in
  let x_batch := if return_x then select mask x_batch else [] in
  let y_batch := if return_y then select mask y_batch else [] in
  let x_batch :=
    if is_normalized_x s && return_x then
      match x_mean s, x_standard_dev s with
      | Some m, Some sd => standardize x_batch m sd
      | _, _ => x_batch
      end
    else x_batch in
  let y_batch :=
    if is_normalized_y s && return_y then
      match y_mean s, y_standard_dev s with
      | Some m, Some sd => map (fun y => ((y - m) / sd)%R) y_batch
      | _, _ => y_batch
      end
    else y_batch in
  (x_batch, y_batch).

(* ================================================================= *)
(** ** The batch generator [iterate_batches] *)

(** A yielded batch: [(x, y)], with the empty array in the channel that
    was not requested. *)
Definition batch : Type := (x_array * y_array)%type.

(** The incomplete batch carried between shards: the two lists of
    slices and [y_batch_size]. *)
Record buffer : Type := mkBuffer {
  x_batch : list x_array;
  y_batch : list y_array;
  y_batch_size : nat
}.

Definition empty_buffer : buffer := mkBuffer [] [] 0.

(** The local variables that live across a [yield]: the shard being
    read, the shard ids the [for] loop has still to visit, and the
    read position. *)
Record cursor : Type := mkCursor {
  shard_id : nat;
  pending : list nat;
  x_shard_data : x_array;
  y_shard_data : y_array;
  shard_position : nat
}.

Inductive generator : Type :=
| NotStarted
| Suspended (c : cursor).

Inductive while_result : Type :=
| Yield (b : batch) (position : nat)
| Done (buf : buffer).

(** The [while shard_position < y_shard_data.shape[0]] loop, up to its
    next [yield].  Every round advances the position by
    [target_size >= 1], so [fuel] rounds, with [fuel] the number of
    rows from the position to the end of the shard, reach the end. *)
Fixpoint while_loop (fuel : nat) (s : DatasetBuilder) (batch_size : nat)
  (return_x return_y drop_remainder : bool) (sid : nat)
  (x_data : x_array) (y_data : y_array)
  (position : nat) (buf : buffer) : while_result :=
  match fuel with
  | 0 => Done buf
  | S fuel' =>
    if position <? length y_data then
      let target_size := batch_size - y_batch_size buf in
      let x_sliced :=
        if return_x then slice x_data position (position + target_size)
        else [] in
      let y_sliced := slice y_data position (position + target_size) in
      let '(x_sliced, y_sliced) :=
        if disable_transform s then (x_sliced, y_sliced)
        else batch_transform s x_sliced y_sliced return_x return_y in
      let position := position + target_size in
      let samples_read :=
        if return_y then length y_sliced else length x_sliced in
      let size := y_batch_size buf + samples_read in
      let xb := if return_x then x_batch buf ++ [x_sliced] else x_batch buf in
      let yb := if return_y then y_batch buf ++ [y_sliced] else y_batch buf in
      if (batch_size <=? size)
         || ((length y_data <=? position)
             && (sid + 1 =? get_num_shards s) && negb drop_remainder)
      then Yield (concat xb, concat yb) position
      else while_loop fuel' s batch_size return_x return_y drop_remainder
             sid x_data y_data position (mkBuffer xb yb size)
    else Done buf
  end.

(** The [for shard_id in range(...)] loop over the shard ids still to
    visit, up to its next [yield]. *)
Fixpoint for_loop (s : DatasetBuilder) (batch_size : nat)
  (return_x return_y drop_remainder : bool)
  (ids : list nat) (buf : buffer) : outcome (option (batch * generator)) :=
  match ids with
  | [] => Returns None
  | sid :: ids' =>
    match (if return_x then get_shard_x s (Z.of_nat sid) else Returns []) with
    | Raises e => Raises e
    | Returns x_data =>
      match get_shard_y s (Z.of_nat sid) with
      | Raises e => Raises e
      | Returns y_data =>
        match while_loop (length y_data) s batch_size
                return_x return_y drop_remainder sid x_data y_data 0 buf with
        | Yield b position =>
            Returns (Some (b, Suspended
                              (mkCursor sid ids' x_data y_data position)))
        | Done buf' =>
            for_loop s batch_size return_x return_y drop_remainder ids' buf'
        end
      end
    end
  end.

(** [next(generator)]: run the body to its next [yield] ([Some]) or to
    its end ([None]).  The arguments are checked when the body starts,
    that is at the first [next]; after a [yield] the buffer is reset
    and the [while] loop of the current shard goes on. *)
Definition gen_next (s : DatasetBuilder) (batch_size : Z)
  (return_x return_y drop_remainder : bool) (g : generator)
  : outcome (option (batch * generator)) :=
  match g with
  | NotStarted =>
      if (batch_size <? 1)%Z || (negb return_x && negb return_y)
      then Raises InvalidArgument
      else for_loop s (Z.to_nat batch_size) return_x return_y drop_remainder
             (seq 0 (get_num_shards s)) empty_buffer
  | Suspended c =>
      match while_loop (length (y_shard_data c) - shard_position c) s
              (Z.to_nat batch_size) return_x return_y drop_remainder
              (shard_id c) (x_shard_data c) (y_shard_data c)
              (shard_position c) empty_buffer with
      | Yield b position =>
          Returns (Some (b, Suspended
                            (mkCursor (shard_id c) (pending c)
                               (x_shard_data c) (y_shard_data c) position)))
      | Done buf =>
          for_loop s (Z.to_nat batch_size) return_x return_y drop_remainder
            (pending c) buf
      end
  end.

(** Rows of the prediction shards with the given ids. *)
Definition rows_of (s : DatasetBuilder) (ids : list nat) : nat :=
  list_sum (map (fun sid => match get_shard_y s (Z.of_nat sid) with
                            | Returns y_data => length y_data
                            | Raises _ => 0
                            end) ids).

(** Rows the [for] loop of the generator walks over. *)
Definition stored_rows (s : DatasetBuilder) : nat :=
  rows_of s (seq 0 (get_num_shards s)).

(** [list(generator)] while [self] is not mutated.  [fuel] bounds the
    number of [next] calls; running out of it is reported as
    [Diverged]. *)
Fixpoint drain (fuel : nat) (s : DatasetBuilder) (batch_size : Z)
  (return_x return_y drop_remainder : bool) (g : generator)
  : outcome (list batch) :=
  match fuel with
  | 0 => Raises Diverged
  | S fuel' =>
    match gen_next s batch_size return_x return_y drop_remainder g with
    | Raises e => Raises e
    | Returns None => Returns []
    | Returns (Some (b, g')) =>
      match drain fuel' s batch_size return_x return_y drop_remainder g' with
      | Raises e => Raises e
      | Returns bs => Returns (b :: bs)
      end
    end
  end.

(** All the batches of [iterate_batches(batch_size, return_x, return_y,
    drop_remainder)].  Every batch consumes at least one stored row, so
    one [next] per stored row and a last one that finds the end are
    enough ([iterate_batches_returns] below). *)
Definition iterate_batches (s : DatasetBuilder) (batch_size : Z)
  (return_x return_y drop_remainder : bool) : outcome (list batch) :=
  drain (S (stored_rows s)) s batch_size return_x return_y drop_remainder
    NotStarted.

(** [iterate_samples]: the batches of size [internal_batch_size]
    unpacked into rows.  A sample is a pair [(x, y)]; when one channel
    only is requested the other component is a placeholder ([[]] or
    [0]) that no caller reads. *)
Definition unpack (return_x return_y : bool) (b : batch)
  : list (list R * R) :=
  if return_x && return_y
  then zip_with (fun x y => (x, y)) (fst b) (snd b)
  else if return_x then map (fun x => (x, 0%R)) (fst b)
  else map (fun y => ([], y)) (snd b).

Definition iterate_samples (s : DatasetBuilder) (return_x return_y : bool)
  : outcome (list (list R * R)) :=
  match iterate_batches s (internal_batch_size s) return_x return_y false with
  | Raises e => Raises e
  | Returns bs => Returns (concat (map (unpack return_x return_y) bs))
  end.

(* ================================================================= *)
(** ** The constructor *)

(** [DatasetBuilder.__init__(x_shards, y_shards, internal_batch_size)]
    for two lists of shards.  The [zip] loop counts the paired shards
    (and downloads the resources that are not yet on disk); the first
    sample gives the input shape; a pass over the predictions counts
    the samples.  Predictions are single reals here, so the shape check
    of that pass always succeeds.  The first pass, which Python leaves
    at its first sample, is read to its end: on the state of the
    constructor no read past the first batch can raise. *)
Definition init (x_shards : list (shard x_array))
  (y_shards : list (shard y_array)) (internal_batch_size : Z)
  : outcome DatasetBuilder :=
  let num_shards := length (combine x_shards y_shards) in
  let s := mkDatasetBuilder x_shards y_shards num_shards
             0%Q 100%Q NINF PINF internal_batch_size
             false false false false None None None None None None 0 in
  match iterate_samples s true false with
  | Raises e => Raises e
  | Returns xs =>
    let s := match xs with
             | (x, _) :: _ =>
                 set_input_shape (Some [length x]) (Some (length x)) s
             | [] => s
             end in
    match iterate_samples s false true with
    | Raises e => Raises e
    | Returns ys => Returns (set_dataset_size (length ys) s)
    end
  end.

(* ================================================================= *)
(** ** Statistics *)

(** [np.concatenate(arrays, axis=0)]: numpy refuses an empty list. *)
Definition np_concatenate {A : Type} (arrays : list (list A))
  : outcome (list A) :=
  match arrays with
  | [] => Raises NumpyValueError
  | _ => Returns (concat arrays)
  end.

(** The property [y]: every batch of predictions, concatenated. *)
Definition prop_y : M y_array :=
  bs <- read (fun s => iterate_batches s (internal_batch_size s)
                         false true false) ;;
  read (fun _ => np_concatenate (map snd bs)).

(** The property [x]. *)
Definition prop_x : M x_array :=
  bs <- read (fun s => iterate_batches s (internal_batch_size s)
                         true false false) ;;
  read (fun _ => np_concatenate (map fst bs)).

(** First pass over the designs: one step of the running mean,
    [x_mean * (samples / (samples + batch_size))
       + np.sum(x_batch) / (samples + batch_size)]. *)
Definition x_mean_step (acc : R * ndarray) (x_batch : x_array)
  : R * ndarray :=
  let '(samples, x_mean) := acc in
  let batch_size := INR (length x_batch) in
  (samples + batch_size,
   bcast Rplus
     (nd_map (fun v => v * (samples / (samples + batch_size))) x_mean)
     (nd_map (fun v => v / (samples + batch_size)) (np_sum_rows x_batch)))%R.

(** Second pass: one step of the running variance, with the squared
    deviations from the mean of the first pass. *)
Definition x_variance_step (x_mean : ndarray) (acc : R * ndarray)
  (x_batch : x_array) : R * ndarray :=
  let '(samples, x_variance) := acc in
  let batch_size := INR (length x_batch) in
  let squares :=
    map (fun row => map (fun v => (v * v)%R) (row_op Rminus row x_mean))
      x_batch in
  (samples + batch_size,
   bcast Rplus
     (nd_map (fun v => v * (samples / (samples + batch_size))) x_variance)
     (nd_map (fun v => v / (samples + batch_size)) (np_sum_rows squares)))%R.

Definition y_mean_step (acc : R * R) (y_batch : y_array) : R * R :=
  let '(samples, y_mean) := acc in
  let batch_size := INR (length y_batch) in
  (samples + batch_size,
   y_mean * (samples / (samples + batch_size))
   + np_sum y_batch / (samples + batch_size))%R.

Definition y_variance_step (y_mean : R) (acc : R * R) (y_batch : y_array)
  : R * R :=
  let '(samples, y_variance) := acc in
  let batch_size := INR (length y_batch) in
  let squares := map (fun v => ((v - y_mean) * (v - y_mean))%R) y_batch in
  (samples + batch_size,
   y_variance * (samples / (samples + batch_size))
   + np_sum squares / (samples + batch_size))%R.

(** The two passes, from [samples = mean = 0]. *)
Definition running_x_mean (batches : list x_array) : ndarray :=
  snd (fold_left x_mean_step batches (0%R, Scalar 0%R)).

Definition running_x_variance (x_mean : ndarray) (batches : list x_array)
  : ndarray :=
  snd (fold_left (x_variance_step x_mean) batches (0%R, Scalar 0%R)).

Definition running_y_mean (batches : list y_array) : R :=
  snd (fold_left y_mean_step batches (0%R, 0%R)).

Definition running_y_variance (y_mean : R) (batches : list y_array) : R :=
  snd (fold_left (y_variance_step y_mean) batches (0%R, 0%R)).

(** The protected standard deviation of the designs in the given
    batches, around the mean [m]. *)
Definition protected_x_standard_dev (m : ndarray) (batches : list x_array)
  : ndarray :=
  nd_map zero_to_one (nd_map sqrt (running_x_variance m batches)).

Definition protected_y_standard_dev (m : R) (batches : list y_array) : R :=
  zero_to_one (sqrt (running_y_variance m batches)).

Definition update_x_statistics : M unit :=
  s <- get ;;
  if freeze_statistics s then raise FrozenStatisticsError else
  let original_is_normalized_x := is_normalized_x s in
  assign (set_is_normalized_x false) ;;
  first <- read (fun s => iterate_batches s (internal_batch_size s)
                            true false false) ;;
  let x_mean := running_x_mean (map fst first) in
  second <- read (fun s => iterate_batches s (internal_batch_size s)
                             true false false) ;;
  let x_variance := running_x_variance x_mean (map fst second) in
  assign (set_x_mean (Some x_mean)) ;;
  assign (set_x_standard_dev (Some (nd_map sqrt x_variance))) ;;
  assign (fun s => set_x_standard_dev
                     (option_map (nd_map zero_to_one) (x_standard_dev s)) s) ;;
  assign (set_is_normalized_x original_is_normalized_x).

Definition update_y_statistics : M unit :=
  s <- get ;;
  if freeze_statistics s then raise FrozenStatisticsError else
  let original_is_normalized_y := is_normalized_y s in
  assign (set_is_normalized_y false) ;;
  first <- read (fun s => iterate_batches s (internal_batch_size s)
                            false true false) ;;
  let y_mean := running_y_mean (map snd first) in
  second <- read (fun s => iterate_batches s (internal_batch_size s)
                             false true false) ;;
  let y_variance := running_y_variance y_mean (map snd second) in
  assign (set_y_mean (Some y_mean)) ;;
  assign (set_y_standard_dev (Some (sqrt y_variance))) ;;
  assign (fun s => set_y_standard_dev
                     (option_map zero_to_one (y_standard_dev s)) s) ;;
  assign (set_is_normalized_y original_is_normalized_y).

(* ================================================================= *)
(** ** Normalization *)

Definition map_normalize_x : M unit :=
  s <- get ;;
  if freeze_statistics s then raise FrozenStatisticsError else
  (if negb (is_normalized_x s) then assign (set_is_normalized_x true)
   else ret tt) ;;
  update_x_statistics.

Definition map_normalize_y : M unit :=
  s <- get ;;
  if freeze_statistics s then raise FrozenStatisticsError else
  (if negb (is_normalized_y s) then assign (set_is_normalized_y true)
   else ret tt) ;;
  update_y_statistics.

Definition map_denormalize_x : M unit :=
  s <- get ;;
  if freeze_statistics s then raise FrozenStatisticsError else
  if is_normalized_x s then assign (set_is_normalized_x false) else ret tt.

Definition map_denormalize_y : M unit :=
  s <- get ;;
  if freeze_statistics s then raise FrozenStatisticsError else
  if is_normalized_y s then assign (set_is_normalized_y false) else ret tt.






(* ================================================================= *)
(** ** Sub-sampling, relabelling and splitting *)

Definition string_of_nat (n : nat) : string :=
  NilEmpty.string_of_uint (Nat.to_uint n).

Section Methods.

(** [np.percentile(a, q)] for [0 <= q <= 100], numpy's own. *)
Variable np_percentile : y_array -> Q -> R.

(** The state of numpy's random generator, and
    [np.random.choice(n, size=k, replace=False)] for [0 <= k <= n]:
    [k] distinct positions below [n]. *)
Variable rng : Type.
Variable np_random_choice : rng -> nat -> nat -> list nat * rng.

(** The abstract method [rebuild_dataset(x_shards, y_shards)] of the
    subclass of [self]. *)
Variable rebuild_dataset :
  DatasetBuilder -> list (shard x_array) -> list (shard y_array)
  -> outcome DatasetBuilder.

(** numpy rejects a percentile outside [[0, 100]]. *)
Definition percentile (y : y_array) (q : Q) : outcome R :=
  if Qle_bool 0 q && Qle_bool q 100 then Returns (np_percentile y q)
  else Raises NumpyValueError.

Definition subsample (max_percentile min_percentile : Q) : M unit :=
  s <- get ;;
  if freeze_statistics s then raise FrozenStatisticsError else
  if negb (Qle_bool min_percentile max_percentile)
  then raise InvalidArgument else
  assign (set_disable_transform true) ;;
  y <- prop_y ;;
  assign (set_disable_transform false) ;;
  min_output <- (if negb (Qle_bool min_percentile 0)
                 then v <- read (fun _ => percentile y min_percentile) ;;
                      ret (Fin v)
                 else ret NINF) ;;
  assign (set_min_percentile min_percentile) ;;
  assign (set_min_output min_output) ;;
  max_output <- (if negb (Qle_bool 100 max_percentile)
                 then v <- read (fun _ => percentile y max_percentile) ;;
                      ret (Fin v)
                 else ret PINF) ;;
  assign (set_max_percentile max_percentile) ;;
  assign (set_max_output max_output) ;;
  assign (set_dataset_size
            (length (np_where
                       (map (fun v => le_bound v max_output
                                      && ge_bound v min_output) y) 0))) ;;
  s <- get ;;
  (if is_normalized_x s then update_x_statistics else ret tt) ;;
  s <- get ;;
  (if is_normalized_y s then update_y_statistics else ret tt).

(** The local variables of [relabel]'s loops. *)
Record relabel_locals : Type := mkRelabel {
  examples_processed : nat;
  y_shard : list y_array;
  y_shard_size : nat;
  relabel_shard_id : nat;
  shard_size : nat
}.

(** The [while read_position < y_batch.shape[0]] loop of [relabel].
    A round moves the read position forward, or (when the shard under
    construction has no rows) moves to the next shard, which raises
    past the last one; a round that does neither repeats for ever, and
    only then is the fuel [length y_batch + num_shards + 1] used up. *)
Fixpoint relabel_while (fuel : nat) (examples : nat) (y_batch : y_array)
  (read_position : nat) (l : relabel_locals) : M relabel_locals :=
  match fuel with
  | 0 => raise Diverged
  | S fuel' =>
    if read_position <? length y_batch then
      let target_size := shard_size l - y_shard_size l in
      let y_slice := slice y_batch read_position
                       (read_position + target_size) in
      let samples_read := length y_slice in
      let read_position := read_position + target_size in
      let processed := examples_processed l + samples_read in
      let shard := y_shard l ++ [y_slice] in
      let size := y_shard_size l + samples_read in
      if (shard_size l <=? size) || (examples <=? processed) then
        set_shard_y (Z.of_nat (relabel_shard_id l)) (concat shard) ;;
        if negb (examples <=? processed) then
          let sid := relabel_shard_id l + 1 in
          next <- read (fun s => get_shard_y s (Z.of_nat sid)) ;;
          relabel_while fuel' examples y_batch read_position
            (mkRelabel processed [] 0 sid (length next))
        else
          relabel_while fuel' examples y_batch read_position
            (mkRelabel processed [] 0 (relabel_shard_id l) (shard_size l))
      else
        relabel_while fuel' examples y_batch read_position
          (mkRelabel processed shard size (relabel_shard_id l) (shard_size l))
    else ret l
  end.

(** The [for x_batch, y_batch in self.iterate_batches(...)] loop of
    [relabel]: the generator is resumed on the state the writes of the
    previous rounds have left.  No shard grows under [relabel] and every
    batch consumes a stored row, so [fuel] bounds the rounds when it is
    one more than the rows stored at the start. *)
Fixpoint relabel_for (fuel : nat)
  (relabel_function : x_array -> y_array -> y_array)
  (examples : nat) (g : generator) (l : relabel_locals)
  : M relabel_locals :=
  match fuel with
  | 0 => raise Diverged
  | S fuel' =>
    step <- read (fun s => gen_next s (internal_batch_size s)
                             true true false g) ;;
    match step with
    | None => ret l
    | Some ((x_batch, y_batch), g') =>
      let y_batch := relabel_function x_batch y_batch in
      s <- get ;;
      l' <- relabel_while (length y_batch + get_num_shards s + 1)
              examples y_batch 0 l ;;
      relabel_for fuel' relabel_function examples g' l'
    end
  end.

Definition relabel (relabel_function : x_array -> y_array -> y_array)
  : M unit :=
  s <- get ;;
  if freeze_statistics s then raise FrozenStatisticsError else
  assign (set_disable_transform true) ;;
  y <- prop_y ;;
  let examples := length y in
  shard <- read (fun s => get_shard_y s 0%Z) ;;
  s <- get ;;
  relabel_for (S (stored_rows s)) relabel_function examples NotStarted
    (mkRelabel 0 [] 0 0 (length shard)) ;;
  assign (set_disable_transform false) ;;
  s <- get ;;
  subsample (dataset_max_percentile s) (dataset_min_percentile s).

(** [np.random.choice(n, size=k, replace=False)]: numpy rejects a
    negative size and a sample larger than the population. *)
Definition random_choice (g : rng) (n : nat) (k : Z)
  : outcome (list nat * rng) :=
  if (k <? 0)%Z || (Z.of_nat n <? k)%Z then Raises NumpyValueError
  else Returns (np_random_choice g n (Z.to_nat k)).

(** The candidates of the two groups of [split]. *)
Definition active_candidates (s : DatasetBuilder) (original_y : y_array)
  : list nat :=
  np_where (map (fun y => ge_bound y (dataset_min_output s)
                          && le_bound y (dataset_max_output s))
              original_y) 0.

Definition hidden_candidates (s : DatasetBuilder) (original_y : y_array)
  : list nat :=
  np_where (map (fun y => bound_gt (dataset_min_output s) y
                          && bound_lt (dataset_max_output s) y)
              original_y) 0.

(** [ids[np.random.choice(ids.size, size=int(fraction * float(ids.size)),
    replace=False).tolist()]] *)
Definition sample_ids (g : rng) (fraction : Q) (ids : list nat)
  : outcome (list nat * rng) :=
  match random_choice g (length ids)
          (py_int (fraction * inject_Z (Z.of_nat (length ids)))) with
  | Raises e => Raises e
  | Returns (positions, g') =>
      Returns (map (fun p => nth p ids 0) positions, g')
  end.

(** [set(np.append(active_ids, hidden_ids).tolist())] *)
Definition validation_ids (g : rng) (s : DatasetBuilder) (fraction : Q)
  (original_y : y_array) : outcome (list nat) :=
  match sample_ids g fraction (active_candidates s original_y) with
  | Raises e => Raises e
  | Returns (active_ids, g') =>
    match sample_ids g' fraction (hidden_candidates s original_y) with
    | Raises e => Raises e
    | Returns (hidden_ids, _) => Returns (active_ids ++ hidden_ids)
    end
  end.

(** One side (training or validation) of the loop of [split]: the
    partial shard and the shards written so far. *)
Record side : Type := mkSide {
  partial_shard : list (list R * R);
  side_x_shards : list (shard x_array);
  side_y_shards : list (shard y_array)
}.

(** The write of one side: when the sample is the last one and the
    partial shard is not empty, or the partial shard has [shard_size]
    rows, stack it ([np.stack] refuses an empty list) and record it, on
    disk under [name-x-i.npy] and [name-y-i.npy] if [to_disk]. *)
Definition flush (is_last : bool) (shard_size : nat) (to_disk : bool)
  (name : string) (sd : side) : outcome side :=
  if (is_last && (0 <? length (partial_shard sd)))
     || (shard_size <=? length (partial_shard sd)) then
    match partial_shard sd with
    | [] => Raises NumpyValueError
    | _ =>
      let shard_x := map fst (partial_shard sd) in
      let shard_y := map snd (partial_shard sd) in
      let sx := if to_disk
                then OnDisk (name ++ "-x-"
                             ++ string_of_nat (length (side_x_shards sd))
                             ++ ".npy") shard_x
                else InMemory shard_x in
      let sy := if to_disk
                then OnDisk (name ++ "-y-"
                             ++ string_of_nat (length (side_y_shards sd))
                             ++ ".npy") shard_y
                else InMemory shard_y in
      Returns (mkSide [] (side_x_shards sd ++ [sx]) (side_y_shards sd ++ [sy]))
    end
  else Returns sd.

Definition push (sample : list R * R) (sd : side) : side :=
  mkSide (partial_shard sd ++ [sample]) (side_x_shards sd) (side_y_shards sd).

(** The body of [for sample_id, (x, y) in enumerate(...)] of [split]
    up to the test for the last sample. *)
Fixpoint split_loop (samples : list (list R * R)) (sample_id : nat)
  (size : nat) (ids : list nat) (shard_size : nat) (to_disk : bool)
  (disk_target : string) (training validation : side)
  : outcome (option (side * side)) :=
  match samples with
  | [] => Returns None
  | sample :: samples' =>
    let in_validation := existsb (Nat.eqb sample_id) ids in
    let validation := if in_validation then push sample validation
                      else validation in
    let training := if in_validation then training
                    else push sample training in
    let is_last := sample_id + 1 =? size in
    match flush is_last shard_size to_disk (disk_target ++ "-val")
            validation with
    | Raises e => Raises e
    | Returns validation =>
      match flush is_last shard_size to_disk (disk_target ++ "-train")
              training with
      | Raises e => Raises e
      | Returns training =>
        if is_last then Returns (Some (training, validation))
        else split_loop samples' (S sample_id) size ids shard_size to_disk
               disk_target training validation
      end
    end
  end.

(** [split(fraction, shard_size, to_disk, disk_target)]; [None] is the
    value of a call whose loop ends without reaching a last sample. *)
Definition split (g : rng) (fraction : Q) (shard_size : nat)
  (to_disk : bool) (disk_target : string)
  : M (option (DatasetBuilder * DatasetBuilder)) :=
  assign (set_disable_transform true) ;;
  original_y <- prop_y ;;
  ids <- read (fun s => validation_ids g s fraction original_y) ;;
  samples <- read (fun s => iterate_samples s true true) ;;
  sides <- read (fun _ => split_loop samples 0 (length original_y) ids
                            shard_size to_disk disk_target
                            (mkSide [] [] []) (mkSide [] [] [])) ;;
  match sides with
  | None => ret None
  | Some (training, validation) =>
    assign (set_disable_transform false) ;;
    if (length (side_x_shards validation) =? 0)
       || (length (side_y_shards validation) =? 0)
    then raise EmptySplitError else
    if (length (side_x_shards training) =? 0)
       || (length (side_y_shards training) =? 0)
    then raise EmptySplitError else
    dtraining <- read (fun s => rebuild_dataset s (side_x_shards training)
                                  (side_y_shards training)) ;;
    dvalidation <- read (fun s => rebuild_dataset s
                                    (side_x_shards validation)
                                    (side_y_shards validation)) ;;
    let dtraining := set_freeze_statistics true dtraining in
    let dvalidation := set_freeze_statistics true dvalidation in
    ret (Some (dtraining, dvalidation))
  end.

End Methods.

(* ================================================================= *)
(** ** Cloning *)

Section Clone.

(** The abstract method [rebuild_dataset(x_shards, y_shards)] of the
    subclass of [self]. *)
Variable rebuild_dataset :
  DatasetBuilder -> list (shard x_array) -> list (shard y_array)
  -> outcome DatasetBuilder.

(** The body of [for sample_id, (x, y) in enumerate(...)] of [clone] up
    to the test for the last sample: one partial shard, written under
    [disk_target-x-i.npy] and [disk_target-y-i.npy] if [to_disk]. *)
Fixpoint clone_loop (samples : list (list R * R)) (sample_id : nat)
  (size : nat) (shard_size : nat) (to_disk : bool) (disk_target : string)
  (sd : side) : outcome (option side) :=
  match samples with
  | [] => Returns None
  | sample :: samples' =>
    let sd := push sample sd in
    let is_last := sample_id + 1 =? size in
    match flush is_last shard_size to_disk disk_target sd with
    | Raises e => Raises e
    | Returns sd =>
      if is_last then Returns (Some sd)
      else clone_loop samples' (S sample_id) size shard_size to_disk
             disk_target sd
    end
  end.

(** [clone(shard_size, to_disk, disk_target)]; [None] is the value of a
    call whose loop ends without reaching a last sample.  The flag
    [is_absolute] only selects the folder of the files. *)
Definition clone (shard_size : nat) (to_disk : bool) (disk_target : string)
  : M (option DatasetBuilder) :=
  assign (set_disable_transform true) ;;
  original_y <- prop_y ;;
  samples <- read (fun s => iterate_samples s true true) ;;
  sd <- read (fun _ => clone_loop samples 0 (length original_y)
                         shard_size to_disk disk_target (mkSide [] [] [])) ;;
  match sd with
  | None => ret None
  | Some sd =>
    assign (set_disable_transform false) ;;
    d <- read (fun s => rebuild_dataset s (side_x_shards sd)
                          (side_y_shards sd)) ;;
    ret (Some d)
  end.

End Clone.

(* ================================================================= *)
(** ** The lookup oracle of NAS-Bench *)

Module NASBenchOracle.

(** [tuple(x.tolist())], the key of a design, and equality of keys. *)
Definition x_key : Type := list R.

Definition key_eqb (a b : x_key) : bool :=
  if list_eq_dec Req_dec_T a b then true else false.

(** The dictionary [sequence_to_score], in insertion order. *)
Definition dict : Type := list (x_key * R).

(** [d[k] = v] *)
Fixpoint dict_set (d : dict) (k : x_key) (v : R) : dict :=
  match d with
  | [] => [(k, v)]
  | (k', v') :: d' =>
      if key_eqb k' k then (k', v) :: d' else (k', v') :: dict_set d' k v
  end.

(** [d[k]] when [k in d]. *)
Fixpoint dict_get (d : dict) (k : x_key) : option R :=
  match d with
  | [] => None
  | (k', v') :: d' => if key_eqb k' k then Some v' else dict_get d' k
  end.

(** The part of [__init__] that fills [sequence_to_score].  The two
    assignments to [dataset._disable_transform] create and reset an
    attribute of that name; [disable_transform], which the generator
    reads, keeps its value.  The call of the constructor of the
    superclass that follows is outside the sources. *)
Definition sequence_to_score (dataset : DatasetBuilder) : outcome dict :=
  match iterate_samples dataset true true with
  | Raises e => Raises e
  | Returns samples =>
      Returns (fold_left (fun d sample => dict_set d (fst sample) (snd sample))
                 samples [])
  end.

(** [protected_predict(x)]: the recorded score, or [np.zeros([1])]. *)
Definition protected_predict (table : dict) (x : x_key) : R :=
  match dict_get table x with
  | Some y => y
  | None => 0%R
  end.

End NASBenchOracle.

(* ================================================================= *)
(** ** The script that shards the superconductor data *)

Module ProcessRawSuperconductor.

(** [int(math.ceil(y.shape[0] / args.samples_per_shard))]; [None] is
    [ZeroDivisionError].  The quotient is taken exactly, as the float
    division is for arrays of fewer than 2^53 rows. *)
Definition batch_per_shard (rows : nat) (samples_per_shard : Z) : option Z :=
  if (samples_per_shard =? 0)%Z then None
  else Some (Qceiling (inject_Z (Z.of_nat rows) / inject_Z samples_per_shard)).

(** The loop of the script: the pairs of arrays it saves, in the order
    of their shard ids.  [range] of a count below one is empty, so the
    slices are only taken with a positive [samples_per_shard]. *)
Definition shards (x : x_array) (y : y_array) (samples_per_shard : Z)
  : option (list (x_array * y_array)) :=
  match batch_per_shard (length y) samples_per_shard with
  | None => None
  | Some count =>
      let n := Z.to_nat samples_per_shard in
      Some (map (fun shard_id =>
                   (slice x (shard_id * n) ((shard_id + 1) * n),
                    slice y (shard_id * n) ((shard_id + 1) * n)))
              (seq 0 (Z.to_nat count)))
  end.

End ProcessRawSuperconductor.

(* ================================================================= *)
(** ** Invariants and measures *)

(** The shard count does not exceed either list of shards: what the
    [zip] loop of the constructor establishes. *)
Definition paired (s : DatasetBuilder) : Prop :=
  num_shards s <= length (x_shards s) /\ num_shards s <= length (y_shards s).

(** The shards with the given ids can be read. *)
Definition readable (s : DatasetBuilder) (return_x : bool) (ids : list nat)
  : Prop :=
  Forall (fun sid =>
            (return_x = true ->
             exists d, get_shard_x s (Z.of_nat sid) = Returns d)
            /\ exists d, get_shard_y s (Z.of_nat sid) = Returns d) ids.

(** Stored rows a generator has still to read. *)
Definition remaining (s : DatasetBuilder) (g : generator) : nat :=
  match g with
  | NotStarted => stored_rows s
  | Suspended c =>
      (length (y_shard_data c) - shard_position c) + rows_of s (pending c)
  end.

(** A generator whose pending shards can be read. *)
Definition gen_readable (s : DatasetBuilder) (return_x : bool)
  (g : generator) : Prop :=
  match g with
  | NotStarted => readable s return_x (seq 0 (get_num_shards s))
  | Suspended c => readable s return_x (pending c)
  end.

(** Thresholds in order: [lo <= hi]. *)
Definition bound_ordered (lo hi : bound) : Prop :=
  match lo, hi with
  | NINF, _ => True
  | _, PINF => True
  | Fin a, Fin b => (a <= b)%R
  | _, _ => False
  end.

(** [lo <= y <= hi] fails: the prediction lies outside the thresholds. *)
Definition outside (s : DatasetBuilder) (y : R) : bool :=
  negb (ge_bound y (dataset_min_output s) && le_bound y (dataset_max_output s)).






(** The shard ids a suspended generator has still to visit are below
    the shard count of [s]. *)
Definition gen_bounded (s : DatasetBuilder) (g : generator) : Prop :=
  match g with
  | NotStarted => True
  | Suspended c => Forall (fun sid => sid < num_shards s) (pending c)
  end.

(** Where a shard lives: in memory, or in the file of that name. *)
Definition shard_place {A : Type} (sh : shard A) : option string :=
  match sh with InMemory _ => None | OnDisk p _ => Some p end.

(** [s'] has the design shards and the shard count of [s], and
    prediction shards in the same places. *)
Definition same_layout (s s' : DatasetBuilder) : Prop :=
  x_shards s' = x_shards s /\ num_shards s' = num_shards s
  /\ map shard_place (y_shards s') = map shard_place (y_shards s).

(** A method that keeps the layout, whatever its outcome. *)
Definition keeps_layout {A : Type} (c : M A) : Prop :=
  forall s o s', c s = (o, s') -> same_layout s s'.

(** Two states over the same shards. *)
Definition same_store (s1 s2 : DatasetBuilder) : Prop :=
  x_shards s1 = x_shards s2 /\ y_shards s1 = y_shards s2
  /\ num_shards s1 = num_shards s2.

(** The predictions as [self.y] reads them while [disable_transform]
    is on: the full distribution, whatever the current thresholds. *)
Definition stored_predictions (s : DatasetBuilder) : outcome y_array :=
  fst (prop_y (set_disable_transform true s)).

(** The rows of a channel when it is requested. *)
Definition when {A : Type} (requested : bool) (rows : list A) : list A :=
  if requested then rows else [].

(** What the generator makes of a slice [(x, y)] of paired rows: the
    transform unless it is disabled, and the requested channels. *)
Definition emit (s : DatasetBuilder) (return_x return_y : bool)
  (x : x_array) (y : y_array) : batch :=
  let '(x', y') :=
    if disable_transform s then (x, y)
    else batch_transform s x y return_x return_y in
  (if return_x then x' else [], if return_y then y' else []).

Definition bapp (a b : batch) : batch := (fst a ++ fst b, snd a ++ snd b).

Definition contents (buf : buffer) : batch :=
  (concat (x_batch buf), concat (y_batch buf)).

Definition concat_batches (bs : list batch) : batch :=
  (concat (map fst bs), concat (map snd bs)).

(** The rows of the shards with the given ids, as the generator loads
    them: the designs only when they are requested. *)
Definition x_data (s : DatasetBuilder) (sid : nat) : x_array :=
  match get_shard_x s (Z.of_nat sid) with Returns d => d | Raises _ => [] end.

Definition y_data (s : DatasetBuilder) (sid : nat) : y_array :=
  match get_shard_y s (Z.of_nat sid) with Returns d => d | Raises _ => [] end.

Definition rows_x (s : DatasetBuilder) (return_x : bool) (ids : list nat)
  : x_array :=
  if return_x then concat (map (x_data s) ids) else [].

Definition rows_y (s : DatasetBuilder) (ids : list nat) : y_array :=
  concat (map (y_data s) ids).

(** Every design shard has the rows of its prediction shard. *)
Definition aligned (s : DatasetBuilder) (return_x : bool) (ids : list nat)
  : Prop :=
  return_x = true ->
  Forall (fun sid => length (x_data s sid) = length (y_data s sid)) ids.

(** There is no shard, or the last shard has a row. *)
Definition last_shard_nonempty (s : DatasetBuilder) : Prop :=
  get_num_shards s = 0 \/ 0 < length (y_data s (get_num_shards s - 1)).

(** The rows a suspended generator has still to read. *)
Definition rest_x (s : DatasetBuilder) (return_x : bool) (c : cursor)
  : x_array :=
  if return_x
  then skipn (shard_position c) (x_shard_data c)
       ++ concat (map (x_data s) (pending c))
  else [].

Definition rest_y (s : DatasetBuilder) (c : cursor) : y_array :=
  skipn (shard_position c) (y_shard_data c) ++ rows_y s (pending c).

(** A generator in step with the shards: its cursor is at one of the
    shard ids, with the later ids pending, over paired rows. *)
Definition gen_wf (s : DatasetBuilder) (return_x : bool) (g : generator)
  : Prop :=
  match g with
  | NotStarted => aligned s return_x (seq 0 (get_num_shards s))
  | Suspended c =>
      (exists pre, seq 0 (get_num_shards s)
                   = pre ++ shard_id c :: pending c)
      /\ aligned s return_x (pending c)
      /\ (return_x = true ->
          length (x_shard_data c) = length (y_shard_data c))
  end.

(** What the rows a generator has still to read come out as. *)
Definition gen_rest (s : DatasetBuilder) (return_x return_y : bool)
  (g : generator) : batch :=
  match g with
  | NotStarted =>
      emit s return_x return_y
        (rows_x s return_x (seq 0 (get_num_shards s)))
        (rows_y s (seq 0 (get_num_shards s)))
  | Suspended c =>
      emit s return_x return_y (rest_x s return_x c) (rest_y s c)
  end.

(* ================================================================= *)
(** ** Datasets used in the examples *)

(** A dataset as the constructor leaves it, or the empty dataset when
    the constructor raises. *)
Definition built (o : outcome DatasetBuilder) : DatasetBuilder :=
  match o with
  | Returns s => s
  | Raises _ =>
      mkDatasetBuilder [] [] 0 0%Q 100%Q NINF PINF 32%Z
        false false false false None None None None None None 0
  end.

(** Ten shards of a hundred rows, with a batch size of 32 for the
    internal passes. *)
Definition ten_by_hundred : DatasetBuilder :=
  built (init (repeat (InMemory (repeat [0%R] 100)) 10)
              (repeat (InMemory (repeat 0%R 100)) 10) 32%Z).

(** Three rows in a first shard and a last shard without rows, read in
    batches of two. *)
Definition trailing_empty : DatasetBuilder :=
  built (init [InMemory [[1%R]; [2%R]; [3%R]]; InMemory []]
              [InMemory [1%R; 2%R; 3%R]; InMemory []] 2%Z).

(** Two design shards for one prediction shard. *)
Definition unpaired : DatasetBuilder :=
  built (init [InMemory [[1%R]; [2%R]]; OnDisk "extra-x-1.npy" [[7%R]]]
              [InMemory [1%R; 2%R]] 2%Z).

(** Four predictions of which the first and the last lie outside the
    thresholds [[2, 3]]. *)
Definition thresholds_2_3 : DatasetBuilder :=
  set_dataset_size 2
    (set_max_output (Fin 3%R)
       (set_min_output (Fin 2%R)
          (built (init [InMemory [[1%R]; [2%R]; [3%R]; [4%R]]]
                       [InMemory [1%R; 2%R; 3%R; 4%R]] 2%Z)))).

(** Four rows in one shard, all visible. *)
Definition four_rows : DatasetBuilder :=
  built (init [InMemory [[1%R]; [2%R]; [3%R]; [4%R]]]
              [InMemory [1%R; 2%R; 3%R; 4%R]] 2%Z).




(** Three rows and two rows in two shards, the second one on disk. *)
Definition three_and_two : DatasetBuilder :=
  built (init [InMemory [[1%R]; [2%R]; [3%R]]; InMemory [[4%R]; [5%R]]]
              [InMemory [1%R; 2%R; 3%R]; OnDisk "y-1.npy" [4%R; 5%R]] 2%Z).

Definition shard_sizes (s : DatasetBuilder) : list nat :=
  map (fun sh => length (shard_data sh)) (y_shards s).

Definition batch_sizes (o : outcome (list batch)) : option (list nat) :=
  match o with
  | Returns bs => Some (map (fun b => length (snd b)) bs)
  | Raises _ => None
  end.

(** The relabelling function [lambda x, y: y * 0 + 1]. *)
Definition all_ones (x : x_array) (y : y_array) : y_array :=
  map (fun v => (v * 0 + 1)%R) y.

(** A stand-in for numpy's generator in the examples: the first [k]
    positions. *)
Definition first_positions (g : unit) (n k : nat) : list nat * unit :=
  (seq 0 k, g).

(** A subclass whose [rebuild_dataset] calls the constructor with the
    batch size of [self]. *)
Definition rebuild_with_init (s : DatasetBuilder)
  (xs : list (shard x_array)) (ys : list (shard y_array))
  : outcome DatasetBuilder :=
  init xs ys (internal_batch_size s).

(** A stand-in for [np.percentile] in the examples: the least value. *)
Definition least_value (y : y_array) (q : Q) : R :=
  fold_right Rmin 0%R y.

(* ================================================================= *)
(** ** Measures of batches, samples, statistics and written shards *)

(** Rows of a batch in the channel the generator counts: the
    predictions when they are requested, the designs otherwise. *)
Definition batch_rows (return_y : bool) (b : batch) : nat :=
  if return_y then length (snd b) else length (fst b).

Definition buffered_rows (return_y : bool) (buf : buffer) : nat :=
  if return_y then length (concat (y_batch buf))
  else length (concat (x_batch buf)).

(** [zip(x, y)]: rows paired up. *)
Definition zip_rows (x : x_array) (y : y_array) : list (list R * R) :=
  zip_with (fun x y => (x, y)) x y.

(** A dataset without shards. *)
Definition no_shards : DatasetBuilder := built (init [] [] 2%Z).

(** The arithmetic mean of an array of predictions, and its mean
    squared deviation from [m]. *)
Definition mean (y : y_array) : R := (np_sum y / INR (length y))%R.

Definition mean_square_deviation (m : R) (y : y_array) : R :=
  mean (map (fun v => ((v - m) * (v - m))%R) y).

(** The feature [j] of every design of an array, and the entry [j] of
    a statistic. *)
Definition column (j : nat) (x : x_array) : y_array :=
  map (fun row => nth j row 0%R) x.

Definition entry (j : nat) (a : ndarray) : R :=
  match a with Scalar c => c | Vec w => nth j w 0%R end.

(** A statistic that broadcasts against rows of [d] features, and one
    that is a row. *)
Definition wide (d : nat) (a : ndarray) : Prop :=
  match a with Scalar _ => True | Vec w => length w = d end.

Definition is_row (a : ndarray) : Prop :=
  match a with Scalar _ => False | Vec _ => True end.

(** The squared deviations of the designs of a batch from a mean. *)
Definition squared_deviations (x_mean : ndarray) (x_batch : x_array)
  : x_array :=
  map (fun row => map (fun v => (v * v)%R) (row_op Rminus row x_mean)) x_batch.

(** The entries of an array at the positions, counted from [from],
    that [keep] holds of. *)
Fixpoint pick {A : Type} (keep : nat -> bool) (from : nat) (a : list A)
  : list A :=
  match a with
  | [] => []
  | r :: a' =>
      if keep from then r :: pick keep (S from) a' else pick keep (S from) a'
  end.




Definition shard_lengths {A : Type} (shards : list (shard (list A)))
  : list nat :=
  map (fun sh => length (shard_data sh)) shards.


(** The number of stored predictions before the shard [i]. *)
Definition shard_start (s : DatasetBuilder) (i : nat) : nat :=
  length (rows_y s (seq 0 i)).

(** The shard ids a generator has still to load. *)
Definition to_load (s : DatasetBuilder) (g : generator) : list nat :=
  match g with
  | NotStarted => seq 0 (get_num_shards s)
  | Suspended c => pending c
  end.

(** The prediction shards [shards] in the course of [relabel] on [s]:
    the first [written] shards hold new values, the others are those
    of [s]; every shard has the place and the number of rows it has in
    [s]; the new values in the shards, followed by those waiting in
    the list [y_shard] of the loop, are [values]. *)
Definition relabelled (s : DatasetBuilder) (shards : list (shard y_array))
  (written : nat) (values waiting : y_array) : Prop :=
  shard_lengths shards = shard_lengths (y_shards s)
  /\ map shard_place shards = map shard_place (y_shards s)
  /\ (forall i, written <= i -> nth_error shards i = nth_error (y_shards s) i)
  /\ concat (map shard_data (firstn written shards)) ++ waiting = values.

(** The locals of the loops of [relabel] in step with the shards of
    [s]: the shard being filled exists, its size is known, and it is
    not yet full. *)
Definition writing (s : DatasetBuilder) (l : relabel_locals) : Prop :=
  relabel_shard_id l < get_num_shards s
  /\ shard_size l = length (y_data s (relabel_shard_id l))
  /\ y_shard_size l = length (concat (y_shard l))
  /\ y_shard_size l < shard_size l
  /\ examples_processed l
     = shard_start s (relabel_shard_id l) + y_shard_size l.

(** The state of [relabel] between two rounds of its loops, after the
    new values [values]: under way, or done with every shard written. *)
Definition in_step (s : DatasetBuilder) (l : relabel_locals)
  (shards : list (shard y_array)) (values : y_array) : Prop :=
  (length values < shard_start s (get_num_shards s)
   /\ examples_processed l = length values
   /\ writing s l
   /\ relabelled s shards (relabel_shard_id l) values (concat (y_shard l)))
  \/ (length values = shard_start s (get_num_shards s)
      /\ relabelled s shards (get_num_shards s) values []).

(* ================================================================= *)
(** * Properties *)

(** ** The monad *)

Lemma bind_returns {A B : Type} (c : M A) (k : A -> M B) s a s' :
  c s = (Returns a, s') -> bind c k s = k a s'.
Proof. intros H. unfold bind. now rewrite H. Qed.

Lemma bind_raises {A B : Type} (c : M A) (k : A -> M B) s e s' :
  c s = (Raises e, s') -> bind c k s = (Raises e, s').
Proof. intros H. unfold bind. now rewrite H. Qed.

(** ** The generator *)

Section Generator.

Variable s : DatasetBuilder.
Variable batch_size : nat.
Variables return_x return_y drop_remainder : bool.

(** A [yield] is reached from inside the shard and moves the read
    position forward. *)
Lemma while_loop_yield_position fuel sid xd yd :
  forall pos buf b pos',
    y_batch_size buf < batch_size ->
    while_loop fuel s batch_size return_x return_y drop_remainder
      sid xd yd pos buf = Yield b pos' ->
    pos < length yd /\ pos < pos'.
Proof.
  induction fuel as [|fuel IH]; intros pos buf b pos' Hlt H.
  - discriminate.
  - cbn [while_loop] in H.
    destruct (pos <? length yd) eqn:Hpos; [|discriminate].
    apply Nat.ltb_lt in Hpos.
    destruct (if disable_transform s then _ else _) as [xs ys] eqn:Hsl.
    match type of H with
    | (if ?c then _ else _) = _ => destruct c eqn:Hc
    end.
    + inversion H; subst. split; [exact Hpos | lia].
    + apply orb_false_iff in Hc. destruct Hc as [Hsz _].
      apply Nat.leb_gt in Hsz.
      apply IH in H; [|exact Hsz]. split; [exact Hpos | lia].
Qed.


(** A fall through the [while] loop leaves an incomplete batch. *)
Lemma while_loop_done_size fuel sid xd yd :
  forall pos buf buf',
    y_batch_size buf < batch_size ->
    while_loop fuel s batch_size return_x return_y drop_remainder
      sid xd yd pos buf = Done buf' ->
    y_batch_size buf' < batch_size.
Proof.
  induction fuel as [|fuel IH]; intros pos buf buf' Hlt H.
  - inversion H; subst; exact Hlt.
  - cbn [while_loop] in H.
    destruct (pos <? length yd) eqn:Hpos.
    + destruct (if disable_transform s then _ else _) as [xs ys] eqn:Hsl.
      match type of H with
      | (if ?c then _ else _) = _ => destruct c eqn:Hc
      end; [discriminate|].
      apply orb_false_iff in Hc. destruct Hc as [Hsz _].
      apply Nat.leb_gt in Hsz.
      eapply IH; [|exact H]. exact Hsz.
    + inversion H; subst; exact Hlt.
Qed.

Lemma rows_of_cons sid ids y_data :
  get_shard_y s (Z.of_nat sid) = Returns y_data ->
  rows_of s (sid :: ids) = length y_data + rows_of s ids.
Proof. intros H. unfold rows_of. cbn. now rewrite H. Qed.

(** The [for] loop over readable shards does not raise, and a batch it
    yields has consumed a stored row. *)
Lemma for_loop_readable ids :
  forall buf,
    readable s return_x ids ->
    y_batch_size buf < batch_size ->
    match for_loop s batch_size return_x return_y drop_remainder ids buf with
    | Returns None => True
    | Returns (Some (_, g')) =>
        gen_readable s return_x g' /\ remaining s g' < rows_of s ids
    | Raises _ => False
    end.
Proof.
  induction ids as [|sid ids IH]; intros buf Hr Hlt.
  - exact I.
  - inversion Hr as [|? ? [Hx [yd Hy]] Hr']; subst.
    cbn [for_loop].
    assert (Hxd : exists xd,
               (if return_x then get_shard_x s (Z.of_nat sid) else Returns [])
               = Returns xd).
    { destruct return_x; [apply Hx; reflexivity | now exists []]. }
    destruct Hxd as [xd Hxd]. rewrite Hxd, Hy.
    rewrite (rows_of_cons _ ids _ Hy).
    destruct (while_loop _ _ _ _ _ _ _ _ _ _ _) as [b pos|buf'] eqn:Hw.
    + apply while_loop_yield_position in Hw; [|exact Hlt].
      split; [exact Hr'|]. cbn [remaining pending y_shard_data shard_position].
      lia.
    + apply while_loop_done_size in Hw; [|exact Hlt].
      specialize (IH buf' Hr' Hw).
      destruct (for_loop _ _ _ _ _ _ _) as [[[b g']|]|e]; auto.
      destruct IH as [Hg Hrem]. split; [exact Hg|lia].
Qed.

(** The [for] loop raises what a shard read raises. *)
Lemma for_loop_raises ids :
  forall buf e,
    for_loop s batch_size return_x return_y drop_remainder ids buf = Raises e ->
    e = IndexOutOfRange \/ e = PyIndexError.
Proof.
  induction ids as [|sid ids IH]; intros buf e H.
  - discriminate.
  - cbn [for_loop] in H.
    destruct return_x.
    + unfold get_shard_x in H.
      destruct (shard_id_rejected s (Z.of_nat sid));
        [inversion H; auto|].
      destruct (py_index (x_shards s) (Z.of_nat sid)) as [[xd|p xd]|];
        [| |inversion H; auto];
        (unfold get_shard_y in H;
         destruct (shard_id_rejected s (Z.of_nat sid));
         [inversion H; auto|];
         destruct (py_index (y_shards s) (Z.of_nat sid)) as [[yd|q yd]|];
         [| |inversion H; auto];
         (destruct (while_loop _ _ _ _ _ _ _ _ _ _ _);
          [discriminate | eapply IH; exact H])).
    + unfold get_shard_y in H.
      destruct (shard_id_rejected s (Z.of_nat sid));
        [inversion H; auto|].
      destruct (py_index (y_shards s) (Z.of_nat sid)) as [[yd|q yd]|];
        [| |inversion H; auto];
        (destruct (while_loop _ _ _ _ _ _ _ _ _ _ _);
         [discriminate | eapply IH; exact H]).
Qed.

End Generator.

Lemma py_index_nat {A : Type} (l : list A) (i : nat) :
  py_index l (Z.of_nat i) = nth_error l i.
Proof.
  unfold py_index.
  destruct (0 <=? Z.of_nat i)%Z eqn:H; [now rewrite Nat2Z.id|].
  apply Z.leb_gt in H. lia.
Qed.

Lemma shard_id_accepted s (i : nat) :
  i < num_shards s -> shard_id_rejected s (Z.of_nat i) = false.
Proof.
  intros H. unfold shard_id_rejected, get_num_shards.
  apply andb_false_iff. right. apply Z.leb_gt. lia.
Qed.

Lemma get_shard_x_paired s i :
  i < num_shards s -> num_shards s <= length (x_shards s) ->
  exists sh, nth_error (x_shards s) i = Some sh
             /\ get_shard_x s (Z.of_nat i) = Returns (shard_data sh).
Proof.
  intros Hi Hn. unfold get_shard_x.
  rewrite (shard_id_accepted s i Hi), py_index_nat.
  destruct (nth_error (x_shards s) i) as [sh|] eqn:E.
  - exists sh. split; [reflexivity|]. now destruct sh.
  - apply nth_error_None in E. lia.
Qed.

Lemma get_shard_y_paired s i :
  i < num_shards s -> num_shards s <= length (y_shards s) ->
  exists sh, nth_error (y_shards s) i = Some sh
             /\ get_shard_y s (Z.of_nat i) = Returns (shard_data sh).
Proof.
  intros Hi Hn. unfold get_shard_y.
  rewrite (shard_id_accepted s i Hi), py_index_nat.
  destruct (nth_error (y_shards s) i) as [sh|] eqn:E.
  - exists sh. split; [reflexivity|]. now destruct sh.
  - apply nth_error_None in E. lia.
Qed.

Lemma paired_readable s return_x :
  paired s -> readable s return_x (seq 0 (get_num_shards s)).
Proof.
  intros [Hx Hy]. apply Forall_forall. intros i Hi.
  apply in_seq in Hi. unfold get_num_shards in Hi. split.
  - intros _. destruct (get_shard_x_paired s i) as [sh [_ H]]; try lia.
    now exists (shard_data sh).
  - destruct (get_shard_y_paired s i) as [sh [_ H]]; try lia.
    now exists (shard_data sh).
Qed.

(** A [next] on a generator whose shards can be read does not raise,
    and a batch it yields has consumed a stored row. *)
Lemma gen_next_readable s batch_size return_x return_y drop_remainder g :
  (1 <= batch_size)%Z ->
  return_x || return_y = true ->
  gen_readable s return_x g ->
  match gen_next s batch_size return_x return_y drop_remainder g with
  | Returns None => True
  | Returns (Some (_, g')) =>
      gen_readable s return_x g' /\ remaining s g' < remaining s g
  | Raises _ => False
  end.
Proof.
  intros Hbs Hret Hg.
  assert (Hpos : y_batch_size empty_buffer < Z.to_nat batch_size)
    by (cbn; lia).
  destruct g as [|c]; cbn [gen_next].
  - replace ((batch_size <? 1)%Z || (negb return_x && negb return_y))
      with false.
    2:{ symmetry. apply orb_false_iff. split; [apply Z.ltb_ge; lia|].
        destruct return_x, return_y; try reflexivity; discriminate. }
    apply (for_loop_readable s _ return_x return_y drop_remainder
             _ _ Hg Hpos).
  - destruct (while_loop _ _ _ _ _ _ _ _ _ _ _) as [b pos|buf] eqn:Hw.
    + apply while_loop_yield_position in Hw; [|exact Hpos].
      split; [exact Hg|].
      cbn [remaining pending y_shard_data shard_position]. lia.
    + apply while_loop_done_size in Hw; [|exact Hpos].
      pose proof (for_loop_readable s _ return_x return_y drop_remainder
                    (pending c) buf Hg Hw) as H.
      destruct (for_loop _ _ _ _ _ _ _) as [[[b g']|]|e]; auto.
      destruct H as [H1 H2]. split; [exact H1|].
      cbn [remaining]. lia.
Qed.

(** The generator is exhausted before the fuel is. *)
Lemma drain_returns s batch_size return_x return_y drop_remainder :
  (1 <= batch_size)%Z ->
  return_x || return_y = true ->
  forall fuel g,
    gen_readable s return_x g ->
    remaining s g < fuel ->
    exists bs,
      drain fuel s batch_size return_x return_y drop_remainder g = Returns bs.
Proof.
  intros Hbs Hret. induction fuel as [|fuel IH]; intros g Hg Hrem; [lia|].
  cbn [drain].
  pose proof (gen_next_readable s batch_size return_x return_y
                drop_remainder g Hbs Hret Hg) as H.
  destruct (gen_next _ _ _ _ _ _) as [[[b g']|]|e].
  - destruct H as [Hg' Hrem'].
    destruct (IH g' Hg') as [bs Hbs']; [lia|].
    rewrite Hbs'. now exists (b :: bs).
  - now exists [].
  - contradiction.
Qed.

(** [iterate_batches] returns its batches whenever the arguments are
    valid and the shard count is within the two lists of shards. *)
Lemma iterate_batches_returns s batch_size return_x return_y drop_remainder :
  paired s ->
  (1 <= batch_size)%Z ->
  return_x || return_y = true ->
  exists bs,
    iterate_batches s batch_size return_x return_y drop_remainder
    = Returns bs.
Proof.
  intros Hp Hbs Hret. unfold iterate_batches.
  apply drain_returns;
    [exact Hbs | exact Hret | apply paired_readable, Hp
    | cbn [remaining]; lia].
Qed.

(** Past its first [next] a generator never raises the error of the
    argument check. *)
Lemma drain_suspended_raises s batch_size return_x return_y drop_remainder :
  forall fuel c e,
    drain fuel s batch_size return_x return_y drop_remainder (Suspended c)
    = Raises e ->
    e <> InvalidArgument.
Proof.
  induction fuel as [|fuel IH]; intros c e H.
  - inversion H. discriminate.
  - cbn [drain gen_next] in H.
    destruct (while_loop _ _ _ _ _ _ _ _ _ _ _) as [b pos|buf].
    + destruct (drain fuel _ _ _ _ _ _) as [bs|e'] eqn:Hd; [discriminate|].
      inversion H; subst. eapply IH, Hd.
    + destruct (for_loop _ _ _ _ _ _ _) as [[[b g']|]|e'] eqn:Hf.
      * destruct (drain fuel _ _ _ _ _ _) as [bs|e''] eqn:Hd; [discriminate|].
        inversion H; subst.
        destruct g' as [|c'].
        -- exfalso. clear - Hf. revert buf Hf.
           induction (pending c) as [|sid ids IHi]; intros buf Hf;
             [discriminate|].
           cbn [for_loop] in Hf.
           destruct (if return_x then _ else _); [|discriminate].
           destruct (get_shard_y _ _); [|discriminate].
           destruct (while_loop _ _ _ _ _ _ _ _ _ _ _); [discriminate|].
           eapply IHi, Hf.
        -- eapply IH, Hd.
      * discriminate.
      * inversion H; subst.
        apply for_loop_raises in Hf. destruct Hf; subst; discriminate.
Qed.

(* ================================================================= *)
(** ** Argument check of the generator *)

(** C9.  [iterate_batches] raises the invalid-argument error exactly
    when [batch_size < 1] or neither channel is requested; in that case
    the very first [next] raises it, so no batch is yielded, and it does
    so whatever the shards hold, so no shard is read. *)
Theorem iterate_batches_invalid_argument :
  forall s batch_size return_x return_y drop_remainder,
    let invalid := (batch_size < 1)%Z \/ (return_x = false /\ return_y = false) in
    (iterate_batches s batch_size return_x return_y drop_remainder
     = Raises InvalidArgument <-> invalid)
    /\ (invalid ->
        forall xs ys,
          gen_next (set_x_shards xs (set_y_shards ys s)) batch_size
            return_x return_y drop_remainder NotStarted
          = Raises InvalidArgument).
Proof.
  intros s batch_size return_x return_y drop_remainder invalid.
  assert (Hcheck : invalid <->
            (batch_size <? 1)%Z || (negb return_x && negb return_y) = true).
  { unfold invalid. rewrite orb_true_iff, andb_true_iff, Z.ltb_lt.
    rewrite !negb_true_iff. reflexivity. }
  split; [split|].
  - intros H. apply Hcheck. unfold iterate_batches in H.
    cbn [drain gen_next] in H.
    destruct ((batch_size <? 1)%Z || (negb return_x && negb return_y));
      [reflexivity|].
    exfalso.
    destruct (for_loop _ _ _ _ _ _ _) as [[[b g']|]|e] eqn:Hf.
    + destruct (drain _ _ _ _ _ _ _) as [bs|e'] eqn:Hd; [discriminate|].
      inversion H; subst. destruct g' as [|c].
      * clear - Hf. revert Hf. generalize empty_buffer.
        induction (seq 0 (get_num_shards s)) as [|sid ids IH];
          intros buf Hf; [discriminate|].
        cbn [for_loop] in Hf.
        destruct (if return_x then _ else _); [|discriminate].
        destruct (get_shard_y _ _); [|discriminate].
        destruct (while_loop _ _ _ _ _ _ _ _ _ _ _); [discriminate|].
        eapply IH, Hf.
      * now apply drain_suspended_raises in Hd.
    + discriminate.
    + inversion H; subst.
      apply for_loop_raises in Hf. destruct Hf; discriminate.
  - intros H. apply Hcheck in H. unfold iterate_batches.
    cbn [drain gen_next]. now rewrite H.
  - intros H xs ys. apply Hcheck in H. cbn [gen_next]. now rewrite H.
Qed.

(* ================================================================= *)
(** ** Shard access *)

(** The guard of the four accessors rejects an id exactly when it is
    positive and not below the shard count. *)
Lemma shard_id_rejected_iff s shard_id :
  shard_id_rejected s shard_id = true
  <-> (0 < shard_id /\ Z.of_nat (get_num_shards s) <= shard_id)%Z.
Proof.
  unfold shard_id_rejected.
  now rewrite andb_true_iff, Z.ltb_lt, Z.leb_le.
Qed.

(** C4, on the code: the guard lets the ids below one through.  With
    two design shards and one prediction shard, [-1] reads and
    overwrites the last shard of either list; with no shard at all, [0]
    runs into the list access, which raises [IndexError]. *)
Theorem shard_guard_passes_ids_below_one :
  get_shard_x unpaired (-1) = Returns [[7%R]]
  /\ get_shard_y unpaired (-1) = Returns [1%R; 2%R]
  /\ fst (set_shard_y (-1) [9%R] unpaired) = Returns tt
  /\ y_shards (snd (set_shard_y (-1) [9%R] unpaired)) = [InMemory [9%R]]
  /\ fst (set_shard_x (-1) [[9%R]] unpaired) = Returns tt
  /\ get_num_shards (built (init [] [] 2)) = 0
  /\ get_shard_x (built (init [] [] 2)) 0 = Raises PyIndexError
  /\ get_shard_y (built (init [] [] 2)) 0 = Raises PyIndexError.
Proof. vm_compute. repeat split; reflexivity. Qed.


(** C10, on the code: the constructor pairs one shard
    ([get_num_shards] is the length of the shorter list) and the
    generator yields the rows of that pair only, yet the second design
    shard, which has no partner, is read by [get_shard_x(-1)] and
    overwritten by [set_shard_x(-1, ...)]. *)
Theorem unpaired_shard_is_accessed :
  get_num_shards unpaired = 1
  /\ iterate_batches unpaired 2 true true false
     = Returns [([[1%R]; [2%R]], [1%R; 2%R])]
  /\ get_shard_x unpaired (-1) = Returns [[7%R]]
  /\ x_shards (snd (set_shard_x (-1) [[9%R]] unpaired))
     = [InMemory [[1%R]; [2%R]]; OnDisk "extra-x-1.npy" [[9%R]]].
Proof. vm_compute. repeat split; reflexivity. Qed.

(* ================================================================= *)
(** ** Batches of the generator *)

(** The example of the documentation: ten shards of a hundred rows in
    batches of 250 give four full batches; in batches of 300 with
    [drop_remainder] three batches, the last hundred rows dropped. *)
Example ten_by_hundred_batches :
  dataset_size ten_by_hundred = 1000
  /\ batch_sizes (iterate_batches ten_by_hundred 250 true true false)
     = Some [250; 250; 250; 250]
  /\ batch_sizes (iterate_batches ten_by_hundred 300 true true true)
     = Some [300; 300; 300].
Proof. vm_compute. repeat split; reflexivity. Qed.

(** C1, on the code: when the last shard has no row, the [while] loop
    that holds the final flush is not entered for it, and the rows
    buffered from the shards before are never yielded although
    [drop_remainder] is off: of the rows 1, 2, 3 only 1 and 2 come
    out. *)
Theorem trailing_empty_shard_drops_remainder :
  iterate_batches trailing_empty 2 true true false
  = Returns [([[1%R]; [2%R]], [1%R; 2%R])]
  /\ map shard_data (y_shards trailing_empty) = [[1%R; 2%R; 3%R]; []]
  /\ disable_transform trailing_empty = false
  /\ dataset_min_output trailing_empty = NINF
  /\ dataset_max_output trailing_empty = PINF.
Proof. vm_compute. repeat split; reflexivity. Qed.

(* ================================================================= *)
(** ** Frozen statistics *)

Ltac break_match H :=
  match type of H with
  | context [match ?x with _ => _ end] => destruct x eqn:?
  end.

Ltac frozen H :=
  unfold bind, get; cbn beta iota; rewrite H; reflexivity.

Lemma split_returns_frozen
  (rng : Type) (choice : rng -> nat -> nat -> list nat * rng)
  (rebuild : DatasetBuilder -> list (shard x_array) -> list (shard y_array)
             -> outcome DatasetBuilder)
  g fraction size to_disk target s s' dtraining dvalidation :
  split rng choice rebuild g fraction size to_disk target s
  = (Returns (Some (dtraining, dvalidation)), s') ->
  freeze_statistics dtraining = true /\ freeze_statistics dvalidation = true.
Proof.
  unfold split, bind, assign, read, ret, raise. intros H.
  repeat (break_match H; try discriminate).
  inversion H; subst. split; reflexivity.
Qed.

(** C5.  Both datasets that [split] returns are frozen, and on a frozen
    dataset every mutating method raises the frozen-statistics error
    and leaves the dataset as it was. *)
Theorem frozen_statistics_block_mutation :
  forall (np_percentile : y_array -> Q -> R)
         (rng : Type) (choice : rng -> nat -> nat -> list nat * rng)
         (rebuild : DatasetBuilder -> list (shard x_array)
                    -> list (shard y_array) -> outcome DatasetBuilder)
         (s : DatasetBuilder),
    (forall g fraction size to_disk target s' dtraining dvalidation,
        split rng choice rebuild g fraction size to_disk target s
        = (Returns (Some (dtraining, dvalidation)), s') ->
        freeze_statistics dtraining = true
        /\ freeze_statistics dvalidation = true)
    /\ (freeze_statistics s = true ->
        (forall max_percentile min_percentile,
            subsample np_percentile max_percentile min_percentile s
            = (Raises FrozenStatisticsError, s))
        /\ (forall relabel_function,
               relabel np_percentile relabel_function s
               = (Raises FrozenStatisticsError, s))
        /\ map_normalize_x s = (Raises FrozenStatisticsError, s)
        /\ map_normalize_y s = (Raises FrozenStatisticsError, s)
        /\ map_denormalize_x s = (Raises FrozenStatisticsError, s)
        /\ map_denormalize_y s = (Raises FrozenStatisticsError, s)
        /\ update_x_statistics s = (Raises FrozenStatisticsError, s)
        /\ update_y_statistics s = (Raises FrozenStatisticsError, s)).
Proof.
  intros np_percentile rng choice rebuild s. split.
  - intros g fraction size to_disk target s' dtraining dvalidation H.
    eapply split_returns_frozen, H.
  - intros H. repeat split; intros;
      [ unfold subsample | unfold relabel | unfold map_normalize_x
      | unfold map_normalize_y | unfold map_denormalize_x
      | unfold map_denormalize_y | unfold update_x_statistics
      | unfold update_y_statistics ]; frozen H.
Qed.

(** A split of four rows in halves returns two datasets, and the
    training half refuses a [subsample]. *)
Lemma frozen_statistics_block_mutation_witness :
  exists dtraining dvalidation s',
    split unit first_positions rebuild_with_init tt (1 # 2) 5000 false
      "dataset" four_rows
    = (Returns (Some (dtraining, dvalidation)), s')
    /\ freeze_statistics dtraining = true
    /\ subsample least_value 100 0 dtraining
       = (Raises FrozenStatisticsError, dtraining).
Proof.
  destruct (split unit first_positions rebuild_with_init tt (1 # 2) 5000
              false "dataset" four_rows) as [[[[dt dv]|]|e] s'] eqn:E;
    try (vm_compute in E; discriminate).
  exists dt, dv, s'. split; [reflexivity|].
  destruct (frozen_statistics_block_mutation least_value unit
              first_positions rebuild_with_init four_rows) as [Hs _].
  destruct (Hs _ _ _ _ _ _ _ _ E) as [Ht _].
  split; [exact Ht|].
  destruct (frozen_statistics_block_mutation least_value unit
              first_positions rebuild_with_init dt) as [_ Hf].
  destruct (Hf Ht) as [Hsub _]. apply Hsub.
Defined.

(* ================================================================= *)
(** ** The two groups of [split] *)

Ltac decide_reals :=
  unfold Rleb, Rltb;
  repeat match goal with
         | |- context [Rle_dec ?a ?b] => destruct (Rle_dec a b); try lra
         | |- context [Rlt_dec ?a ?b] => destruct (Rlt_dec a b); try lra
         end.

Lemma np_where_none mask from :
  Forall (fun b => b = false) mask -> np_where mask from = [].
Proof.
  intros H. revert from. induction H as [|b mask Hb _ IH]; intros from.
  - reflexivity.
  - cbn. rewrite Hb. apply IH.
Qed.

(** No prediction is below the lower threshold and above the upper one
    at once: with thresholds in order, the hidden group of [split] has
    no candidate, whatever the predictions. *)
Lemma hidden_candidates_nil s original_y :
  bound_ordered (dataset_min_output s) (dataset_max_output s) ->
  hidden_candidates s original_y = [].
Proof.
  intros Hord. unfold hidden_candidates. apply np_where_none.
  apply Forall_forall. intros b Hb. apply in_map_iff in Hb.
  destruct Hb as [y [Hy _]]. subst b.
  destruct (dataset_min_output s) as [|lo|], (dataset_max_output s) as [|hi|];
    cbn in *; try reflexivity; try contradiction;
    try (now rewrite andb_false_r).
  unfold Rltb. destruct (Rlt_dec y lo), (Rlt_dec hi y); try reflexivity.
  exfalso. lra.
Qed.

(** C2, on the code: with thresholds [[2, 3]] and predictions
    1, 2, 3, 4 the samples 0 and 3 lie outside the thresholds, yet the
    hidden group has no candidate (its mask is the conjunction
    [min > y and max < y]), so the validation ids are drawn from the
    active group alone. *)
Theorem hidden_group_of_split_is_empty :
  prop_y (set_disable_transform true thresholds_2_3)
  = (Returns [1%R; 2%R; 3%R; 4%R], set_disable_transform true thresholds_2_3)
  /\ np_where (map (outside thresholds_2_3) [1%R; 2%R; 3%R; 4%R]) 0 = [0; 3]
  /\ active_candidates thresholds_2_3 [1%R; 2%R; 3%R; 4%R] = [1; 2]
  /\ hidden_candidates thresholds_2_3 [1%R; 2%R; 3%R; 4%R] = []
  /\ validation_ids unit first_positions tt thresholds_2_3 (1 # 2)
       [1%R; 2%R; 3%R; 4%R] = Returns [1].
Proof.
  assert (Hh : hidden_candidates thresholds_2_3 [1%R; 2%R; 3%R; 4%R] = []).
  { apply hidden_candidates_nil. cbn. lra. }
  assert (Ha : active_candidates thresholds_2_3 [1%R; 2%R; 3%R; 4%R] = [1; 2]).
  { unfold active_candidates. cbn. decide_reals. reflexivity. }
  split; [|split; [|split; [|split]]].
  - vm_compute. reflexivity.
  - unfold outside. cbn. decide_reals. reflexivity.
  - exact Ha.
  - exact Hh.
  - unfold validation_ids. rewrite Ha, Hh. reflexivity.
Qed.

(* ================================================================= *)
(** ** Statistics *)

(** What [update_x_statistics] does on a dataset that is not frozen:
    it streams the designs with [is_normalized_x] off and everything
    else as it is, and either stores the statistics of these batches
    and puts the flag back, or stops at the exception of the stream
    with the flag off. *)
Lemma update_x_statistics_unfrozen s :
  freeze_statistics s = false ->
  update_x_statistics s =
  match iterate_batches (set_is_normalized_x false s)
          (internal_batch_size s) true false false with
  | Returns batches =>
      let m := running_x_mean (map fst batches) in
      (Returns tt,
       set_x_standard_dev
         (Some (protected_x_standard_dev m (map fst batches)))
         (set_x_mean (Some m) s))
  | Raises e => (Raises e, set_is_normalized_x false s)
  end.
Proof.
  intros H. unfold update_x_statistics, bind, get, assign, read.
  cbn beta iota. rewrite H.
  change (internal_batch_size (set_is_normalized_x false s))
    with (internal_batch_size s).
  destruct (iterate_batches _ _ _ _ _) as [batches|e]; [|reflexivity].
  cbn zeta. destruct s; reflexivity.
Qed.

Lemma update_y_statistics_unfrozen s :
  freeze_statistics s = false ->
  update_y_statistics s =
  match iterate_batches (set_is_normalized_y false s)
          (internal_batch_size s) false true false with
  | Returns batches =>
      let m := running_y_mean (map snd batches) in
      (Returns tt,
       set_y_standard_dev
         (Some (protected_y_standard_dev m (map snd batches)))
         (set_y_mean (Some m) s))
  | Raises e => (Raises e, set_is_normalized_y false s)
  end.
Proof.
  intros H. unfold update_y_statistics, bind, get, assign, read.
  cbn beta iota. rewrite H.
  change (internal_batch_size (set_is_normalized_y false s))
    with (internal_batch_size s).
  destruct (iterate_batches _ _ _ _ _) as [batches|e]; [|reflexivity].
  cbn zeta. destruct s; reflexivity.
Qed.







(* ================================================================= *)
(** ** Normalization round trip *)









(* ================================================================= *)
(** ** Reading with the transform disabled *)

Lemma get_shard_x_same s1 s2 i :
  same_store s1 s2 -> get_shard_x s1 i = get_shard_x s2 i.
Proof.
  intros [Hx [_ Hn]]. unfold get_shard_x, shard_id_rejected, get_num_shards.
  now rewrite Hx, Hn.
Qed.

Lemma get_shard_y_same s1 s2 i :
  same_store s1 s2 -> get_shard_y s1 i = get_shard_y s2 i.
Proof.
  intros [_ [Hy Hn]]. unfold get_shard_y, shard_id_rejected, get_num_shards.
  now rewrite Hy, Hn.
Qed.

Lemma for_loop_pending s batch_size return_x return_y drop_remainder ids :
  forall buf b c,
    for_loop s batch_size return_x return_y drop_remainder ids buf
    = Returns (Some (b, Suspended c)) ->
    exists pre, ids = pre ++ shard_id c :: pending c.
Proof.
  induction ids as [|sid ids IH]; intros buf b c H; [discriminate|].
  cbn [for_loop] in H.
  destruct (if return_x then _ else _) as [xd|e]; [|discriminate].
  destruct (get_shard_y s _) as [yd|e]; [|discriminate].
  destruct (while_loop _ _ _ _ _ _ _ _ _ _ _) as [b' pos|buf'].
  - injection H as _ H. subst c. now exists [].
  - apply IH in H. destruct H as [pre H]. exists (sid :: pre).
    now rewrite H.
Qed.

Section SameSlices.

(** Two states with the same shard count, the same shards below that
    count, and transforms that agree on the slices of the requested
    channels, read the same batches. *)
Variables s1 s2 : DatasetBuilder.
Variables return_x return_y : bool.
Hypothesis Hn : num_shards s1 = num_shards s2.
Hypothesis Hread :
  forall sid, sid < num_shards s1 ->
    get_shard_x s1 (Z.of_nat sid) = get_shard_x s2 (Z.of_nat sid)
    /\ get_shard_y s1 (Z.of_nat sid) = get_shard_y s2 (Z.of_nat sid).
Hypothesis Hslice :
  forall x y,
    (return_x = false -> x = []) ->
    (if disable_transform s1 then (x, y)
     else batch_transform s1 x y return_x return_y)
    = (if disable_transform s2 then (x, y)
       else batch_transform s2 x y return_x return_y).

Lemma while_loop_same fuel batch_size drop_remainder sid xd yd :
  forall pos buf,
    while_loop fuel s1 batch_size return_x return_y drop_remainder
      sid xd yd pos buf
    = while_loop fuel s2 batch_size return_x return_y drop_remainder
        sid xd yd pos buf.
Proof.
  induction fuel as [|fuel IH]; intros pos buf; [reflexivity|].
  cbn [while_loop]. rewrite Hslice.
  2:{ intros E. now rewrite E. }
  unfold get_num_shards. rewrite Hn.
  destruct (pos <? length yd); [|reflexivity].
  destruct (if disable_transform s2 then _ else _) as [xs ys].
  match goal with
  | |- (if ?c then _ else _) = _ => destruct c; [reflexivity | apply IH]
  end.
Qed.

Lemma for_loop_same batch_size drop_remainder ids :
  Forall (fun sid => sid < num_shards s1) ids ->
  forall buf,
    for_loop s1 batch_size return_x return_y drop_remainder ids buf
    = for_loop s2 batch_size return_x return_y drop_remainder ids buf.
Proof.
  induction 1 as [|sid ids Hsid _ IH]; intros buf; [reflexivity|].
  cbn [for_loop]. destruct (Hread sid Hsid) as [Hx Hy]. rewrite Hx, Hy.
  destruct (if return_x then _ else _) as [xd|e]; [|reflexivity].
  destruct (get_shard_y s2 _) as [yd|e]; [|reflexivity].
  rewrite while_loop_same.
  destruct (while_loop _ _ _ _ _ _ _ _ _ _ _); [reflexivity | apply IH].
Qed.

Lemma seq_bounded n : Forall (fun sid => sid < n) (seq 0 n).
Proof. apply Forall_forall. intros i Hi. apply in_seq in Hi. lia. Qed.

Lemma gen_next_same batch_size drop_remainder g :
  gen_bounded s1 g ->
  gen_next s1 batch_size return_x return_y drop_remainder g
  = gen_next s2 batch_size return_x return_y drop_remainder g.
Proof.
  intros Hg. destruct g as [|c]; cbn [gen_next].
  - unfold get_num_shards. rewrite <- Hn.
    destruct (_ || _); [reflexivity|].
    apply for_loop_same, seq_bounded.
  - rewrite while_loop_same.
    destruct (while_loop _ _ _ _ _ _ _ _ _ _ _);
      [reflexivity | now apply for_loop_same].
Qed.

Lemma gen_next_bounded batch_size drop_remainder g b g' :
  gen_bounded s1 g ->
  gen_next s1 batch_size return_x return_y drop_remainder g
  = Returns (Some (b, g')) ->
  gen_bounded s1 g'.
Proof.
  intros Hg H. destruct g' as [|c']; [exact I|].
  destruct g as [|c]; cbn [gen_next] in H.
  - destruct (_ || _); [discriminate|].
    apply for_loop_pending in H. destruct H as [pre H].
    pose proof (seq_bounded (get_num_shards s1)) as B.
    rewrite H in B. apply Forall_app in B. destruct B as [_ B].
    apply Forall_inv_tail in B. exact B.
  - destruct (while_loop _ _ _ _ _ _ _ _ _ _ _) as [b' pos|buf].
    + injection H as _ H. subst c'. exact Hg.
    + apply for_loop_pending in H. destruct H as [pre H].
      cbn [gen_bounded] in Hg. rewrite H in Hg.
      apply Forall_app in Hg. destruct Hg as [_ Hg].
      apply Forall_inv_tail in Hg. exact Hg.
Qed.

Lemma iterate_batches_same batch_size drop_remainder :
  iterate_batches s1 batch_size return_x return_y drop_remainder
  = iterate_batches s2 batch_size return_x return_y drop_remainder.
Proof.
  unfold iterate_batches.
  assert (Hrows : stored_rows s1 = stored_rows s2).
  { unfold stored_rows, rows_of, get_num_shards. rewrite <- Hn. f_equal.
    apply map_ext_in. intros sid Hsid. apply in_seq in Hsid.
    destruct (Hread sid ltac:(lia)) as [_ Hy]. now rewrite Hy. }
  rewrite Hrows.
  assert (Hb : gen_bounded s1 NotStarted) by exact I.
  revert Hb. generalize (S (stored_rows s2)) NotStarted.
  induction n as [|fuel IH]; intros g Hg; [reflexivity|].
  cbn [drain]. rewrite <- (gen_next_same _ _ _ Hg).
  destruct (gen_next s1 _ _ _ _ _) as [[[b g']|]|e] eqn:E; try reflexivity.
  rewrite (IH g'); [reflexivity|].
  eapply gen_next_bounded; eassumption.
Qed.

End SameSlices.

Lemma iterate_batches_same_store s1 s2 return_x return_y batch_size
  drop_remainder :
  same_store s1 s2 ->
  (forall x y,
      (return_x = false -> x = []) ->
      (if disable_transform s1 then (x, y)
       else batch_transform s1 x y return_x return_y)
      = (if disable_transform s2 then (x, y)
         else batch_transform s2 x y return_x return_y)) ->
  iterate_batches s1 batch_size return_x return_y drop_remainder
  = iterate_batches s2 batch_size return_x return_y drop_remainder.
Proof.
  intros Hs Hslice. apply iterate_batches_same.
  - now destruct Hs as [_ [_ Hn]].
  - intros sid _. split;
      [apply get_shard_x_same | apply get_shard_y_same]; exact Hs.
  - exact Hslice.
Qed.



(* ================================================================= *)
(** ** Sub-sampling *)

Lemma prop_y_state s : prop_y s = (fst (prop_y s), s).
Proof.
  unfold prop_y, bind, read.
  now destruct (iterate_batches _ _ _ _ _).
Qed.







Lemma select_all {A : Type} (f : A -> bool) (l : list A) :
  (forall a, f a = true) -> select (map f l) l = l.
Proof.
  intros H. induction l as [|a l IH]; [reflexivity|].
  cbn. now rewrite H, IH.
Qed.

(** The count of the constructor is the size of the full distribution
    of the predictions. *)
Lemma init_dataset_size xs ys b s y :
  init xs ys b = Returns s ->
  stored_predictions s = Returns y ->
  dataset_size s = length y.
Proof.
  unfold init. intros H Hy.
  destruct (iterate_samples _ true false) as [l|e]; [|discriminate].
  match type of H with
  | context [iterate_samples ?st false true] => set (s0 := st) in *
  end.
  assert (Hs0 : dataset_min_output s0 = NINF /\ dataset_max_output s0 = PINF
                /\ is_normalized_y s0 = false
                /\ disable_transform s0 = false
                /\ internal_batch_size s0 = b
                /\ x_shards s0 = xs /\ y_shards s0 = ys
                /\ num_shards s0 = length (combine xs ys)).
  { unfold s0. destruct l as [|[x ?] l]; repeat split; reflexivity. }
  destruct Hs0 as [Hlo [Hhi [Hny [Hdt [Hb [Hxs [Hys Hn]]]]]]].
  unfold iterate_samples in H. rewrite Hb in H.
  destruct (iterate_batches s0 b false true false) as [bs|e] eqn:Hbs;
    [|discriminate].
  injection H as H. subst s.
  assert (Hst : same_store s0 (set_disable_transform true
                                 (set_dataset_size
                                    (length (concat (map (unpack false true)
                                                       bs))) s0))).
  { split; [|split]; reflexivity. }
  unfold stored_predictions, prop_y, bind, read in Hy.
  cbn [internal_batch_size set_disable_transform set_dataset_size] in Hy.
  rewrite Hb in Hy.
  rewrite <- (iterate_batches_same_store s0 _ false true _ _ Hst) in Hy.
  - rewrite Hbs in Hy. cbn [fst] in Hy.
    cbn [dataset_size set_dataset_size].
    assert (Hlen : length (concat (map (unpack false true) bs))
                   = length (concat (map snd bs))).
    { clear. induction bs as [|[bx by_] bs IH]; [reflexivity|].
      cbn [map concat]. rewrite !length_app, IH.
      unfold unpack. cbn. now rewrite length_map. }
    rewrite Hlen. unfold np_concatenate in Hy.
    destruct (map snd bs); [discriminate|].
    now injection Hy as <-.
  - intros x0 y0 Hx0. rewrite (Hx0 eq_refl), Hdt.
    cbn [disable_transform set_disable_transform].
    unfold batch_transform. rewrite Hny. cbn.
    rewrite andb_false_r, select_all; [reflexivity|]. intros v.
    unfold in_range. now rewrite Hlo, Hhi.
Qed.



(* ================================================================= *)
(** ** Relabelling *)

(** With no empty last shard, [relabel] with [lambda x, y: y * 0 + 1]
    keeps the two shards at three and two rows, in memory and on disk,
    and every stored prediction is [v * 0 + 1]. *)
Example relabel_three_and_two :
  fst (relabel least_value all_ones three_and_two) = Returns tt
  /\ shard_sizes three_and_two = [3; 2]
  /\ y_shards (snd (relabel least_value all_ones three_and_two))
     = [InMemory [(1 * 0 + 1)%R; (2 * 0 + 1)%R; (3 * 0 + 1)%R];
        OnDisk "y-1.npy" [(4 * 0 + 1)%R; (5 * 0 + 1)%R]]
  /\ x_shards (snd (relabel least_value all_ones three_and_two))
     = x_shards three_and_two
  /\ dataset_size (snd (relabel least_value all_ones three_and_two)) = 5.
Proof. vm_compute. repeat split; reflexivity. Qed.

(** C7, on the code: with three rows in the first shard and an empty
    last shard, read in batches of two, [self.y] counts two examples
    (the generator never yields the third row); [relabel] then writes the
    first shard back after two rows, and the shard shrinks from three
    rows to two. *)
Theorem relabel_shrinks_shard_before_empty_last :
  fst (relabel least_value all_ones trailing_empty) = Returns tt
  /\ shard_sizes trailing_empty = [3; 0]
  /\ shard_sizes (snd (relabel least_value all_ones trailing_empty)) = [2; 0]
  /\ y_shards (snd (relabel least_value all_ones trailing_empty))
     = [InMemory [(1 * 0 + 1)%R; (2 * 0 + 1)%R]; InMemory []].
Proof. vm_compute. repeat split; reflexivity. Qed.

(* ================================================================= *)
(** ** The batches are the rows, in order *)

Lemma select_app {A : Type} (m1 m2 : list bool) (a1 a2 : list A) :
  length m1 = length a1 ->
  select (m1 ++ m2) (a1 ++ a2) = select m1 a1 ++ select m2 a2.
Proof.
  revert a1. induction m1 as [|b m1 IH]; intros [|r a1] H;
    try discriminate; [reflexivity|].
  cbn. injection H as H. rewrite (IH a1 H). now destruct b.
Qed.

Lemma slice_skipn {A : Type} (a : list A) (i n : nat) :
  skipn i a = slice a i (i + n) ++ skipn (i + n) a.
Proof.
  unfold slice. replace (i + n - i) with n by lia.
  rewrite <- (firstn_skipn n (skipn i a)) at 1.
  now rewrite skipn_skipn, (Nat.add_comm n i).
Qed.

Lemma slice_length_eq {A B : Type} (a : list A) (b : list B) (i j : nat) :
  length a = length b -> length (slice a i j) = length (slice b i j).
Proof.
  intros H. unfold slice. rewrite !length_firstn, !length_skipn. lia.
Qed.

Lemma bapp_assoc (a b c : batch) : bapp (bapp a b) c = bapp a (bapp b c).
Proof. unfold bapp. cbn. now rewrite !app_assoc. Qed.

Lemma bapp_nil_r (a : batch) : bapp a ([], []) = a.
Proof. unfold bapp. destruct a. cbn. now rewrite !app_nil_r. Qed.

Lemma bapp_nil_l (a : batch) : bapp ([], []) a = a.
Proof. unfold bapp. now destruct a. Qed.

Lemma standardize_app x1 x2 m sd :
  standardize (x1 ++ x2) m sd = standardize x1 m sd ++ standardize x2 m sd.
Proof. unfold standardize. apply map_app. Qed.

Section Emit.

Variable s : DatasetBuilder.
Variables return_x return_y : bool.

Lemma emit_nil : emit s return_x return_y [] [] = ([], []).
Proof.
  unfold emit, batch_transform. cbn.
  destruct (disable_transform s); [now destruct return_x, return_y|].
  destruct return_x, return_y; cbn;
    repeat match goal with
           | |- context [if ?c then _ else _] => destruct c
           | |- context [match ?o with Some _ => _ | None => _ end] =>
               destruct o
           end; reflexivity.
Qed.

(** The transform works row by row: on two slices of paired rows, one
    after the other, it gives what it gives on each. *)
Lemma emit_app x1 y1 x2 y2 :
  (return_x = true -> length x1 = length y1) ->
  (return_x = false -> x1 = [] /\ x2 = []) ->
  emit s return_x return_y (x1 ++ x2) (y1 ++ y2)
  = bapp (emit s return_x return_y x1 y1) (emit s return_x return_y x2 y2).
Proof.
  intros Hlen Hnil. unfold emit, bapp.
  destruct (disable_transform s).
  - cbn. destruct return_x, return_y; try reflexivity.
  - unfold batch_transform. rewrite !map_app.
    assert (Hx : (if return_x then select (map (in_range s) y1
                                            ++ map (in_range s) y2) (x1 ++ x2)
                  else [])
                 = (if return_x then select (map (in_range s) y1) x1 else [])
                   ++ (if return_x then select (map (in_range s) y2) x2
                       else [])).
    { destruct return_x; [|reflexivity].
      apply select_app. rewrite length_map. symmetry. now apply Hlen. }
    assert (Hy : (if return_y then select (map (in_range s) y1
                                            ++ map (in_range s) y2) (y1 ++ y2)
                  else [])
                 = (if return_y then select (map (in_range s) y1) y1 else [])
                   ++ (if return_y then select (map (in_range s) y2) y2
                       else [])).
    { destruct return_y; [|reflexivity].
      apply select_app. now rewrite length_map. }
    rewrite Hx, Hy. cbn [fst snd].
    f_equal.
    + destruct return_x; [|reflexivity].
      destruct (is_normalized_x s && true); [|reflexivity].
      destruct (x_mean s), (x_standard_dev s); try reflexivity.
      apply standardize_app.
    + destruct return_y; [|reflexivity].
      destruct (is_normalized_y s && true); [|reflexivity].
      destruct (y_mean s), (y_standard_dev s); try reflexivity.
      apply map_app.
Qed.

End Emit.

Section Emission.

Variable s : DatasetBuilder.
Variable batch_size : nat.
Variables return_x return_y drop_remainder : bool.

Lemma emit_skipn xd yd pos n :
  (return_x = true -> length xd = length yd) ->
  emit s return_x return_y (when return_x (skipn pos xd)) (skipn pos yd)
  = bapp (emit s return_x return_y
            (when return_x (slice xd pos (pos + n))) (slice yd pos (pos + n)))
         (emit s return_x return_y
            (when return_x (skipn (pos + n) xd)) (skipn (pos + n) yd)).
Proof.
  intros Hlen.
  rewrite (slice_skipn yd pos n) at 1.
  replace (when return_x (skipn pos xd))
    with (when return_x (slice xd pos (pos + n))
          ++ when return_x (skipn (pos + n) xd)).
  2:{ unfold when. destruct return_x; [|reflexivity].
      symmetry. apply slice_skipn. }
  apply emit_app.
  - intros E. unfold when. rewrite E. apply slice_length_eq. now apply Hlen.
  - intros E. unfold when. now rewrite E.
Qed.

Lemma when_skipn_all (xd : x_array) (yd : y_array) pos :
  length yd <= pos ->
  (return_x = true -> length xd = length yd) ->
  when return_x (skipn pos xd) = [].
Proof.
  intros Hpos Hlen. unfold when. destruct return_x; [|reflexivity].
  apply skipn_all2. rewrite (Hlen eq_refl). exact Hpos.
Qed.

(** The [while] loop neither loses nor reorders rows: what was buffered
    and what the shard still held is what is yielded and what the shard
    then still holds, or what is buffered at the fall through; and in
    the last shard, without [drop_remainder], the loop falls through
    only from the end of the shard. *)
Lemma while_loop_emits fuel sid xd yd :
  forall pos buf,
    length yd - pos <= fuel ->
    y_batch_size buf < batch_size ->
    (return_x = true -> length xd = length yd) ->
    match while_loop fuel s batch_size return_x return_y drop_remainder
            sid xd yd pos buf with
    | Yield b pos' =>
        bapp (contents buf)
          (emit s return_x return_y (when return_x (skipn pos xd))
             (skipn pos yd))
        = bapp b (emit s return_x return_y (when return_x (skipn pos' xd))
                    (skipn pos' yd))
    | Done buf' =>
        contents buf'
        = bapp (contents buf)
            (emit s return_x return_y (when return_x (skipn pos xd))
               (skipn pos yd))
        /\ (sid + 1 = get_num_shards s -> drop_remainder = false ->
            length yd <= pos)
    end.
Proof.
  induction fuel as [|fuel IH]; intros pos buf Hfuel Hsize Hlen.
  - cbn [while_loop]. rewrite (when_skipn_all xd yd pos) by (auto; lia).
    rewrite (skipn_all2 yd) by lia.
    rewrite emit_nil, bapp_nil_r. split; [reflexivity|]. intros _ _. lia.
  - cbn [while_loop]. destruct (pos <? length yd) eqn:Hpos.
    2:{ apply Nat.ltb_ge in Hpos.
        rewrite (when_skipn_all xd yd pos) by auto.
        rewrite (skipn_all2 yd) by lia.
        rewrite emit_nil, bapp_nil_r. split; [reflexivity|].
        intros _ _. exact Hpos. }
    apply Nat.ltb_lt in Hpos.
    set (n := batch_size - y_batch_size buf).
    rewrite (emit_skipn xd yd pos n Hlen).
    fold (when return_x (slice xd pos (pos + n))).
    assert (Hemit :
              emit s return_x return_y
                (when return_x (slice xd pos (pos + n)))
                (slice yd pos (pos + n))
              = (let '(x', y') :=
                   if disable_transform s
                   then (when return_x (slice xd pos (pos + n)),
                         slice yd pos (pos + n))
                   else batch_transform s
                          (when return_x (slice xd pos (pos + n)))
                          (slice yd pos (pos + n)) return_x return_y in
                 (if return_x then x' else [], if return_y then y' else [])))
      by reflexivity.
    destruct (if disable_transform s then _ else _) as [x' y'].
    rewrite Hemit. clear Hemit.
    set (size := y_batch_size buf
                 + (if return_y then length y' else length x')).
    set (xb := if return_x then x_batch buf ++ [x'] else x_batch buf).
    set (yb := if return_y then y_batch buf ++ [y'] else y_batch buf).
    assert (Hcont : (concat xb, concat yb)
                    = bapp (contents buf)
                        (if return_x then x' else [],
                         if return_y then y' else [])).
    { unfold bapp, contents, xb, yb. cbn [fst snd].
      destruct return_x, return_y;
        rewrite ?concat_app; cbn [concat]; now rewrite ?app_nil_r. }
    match goal with
    | |- match (if ?c then _ else _) with _ => _ end => destruct c eqn:Hc
    end.
    + rewrite Hcont. now rewrite bapp_assoc.
    + apply orb_false_iff in Hc. destruct Hc as [Hsz Hlast].
      apply Nat.leb_gt in Hsz.
      specialize (IH (pos + n) (mkBuffer xb yb size)).
      assert (Hn : 1 <= n) by (unfold n; lia).
      specialize (IH ltac:(lia) Hsz Hlen).
      destruct (while_loop _ _ _ _ _ _ _ _ _ _ _) as [b pos'|buf'].
      * rewrite <- IH. unfold contents at 2. cbn [x_batch y_batch].
        rewrite Hcont. now rewrite bapp_assoc.
      * destruct IH as [IH1 IH2]. split.
        -- rewrite IH1. unfold contents at 1. cbn [x_batch y_batch].
           rewrite Hcont. now rewrite bapp_assoc.
        -- intros Hs Hd. specialize (IH2 Hs Hd).
           rewrite Hd in Hlast. cbn [negb] in Hlast.
           rewrite andb_true_r in Hlast.
           apply andb_false_iff in Hlast. destruct Hlast as [H|H].
           ++ apply Nat.leb_gt in H. lia.
           ++ apply Nat.eqb_neq in H. contradiction.
Qed.


Lemma rows_x_cons sid ids xd :
  (if return_x then get_shard_x s (Z.of_nat sid) else Returns []) = Returns xd ->
  rows_x s return_x (sid :: ids) = when return_x xd ++ rows_x s return_x ids.
Proof.
  unfold rows_x, when, x_data. destruct return_x; [|reflexivity].
  intros H. cbn [map concat]. now rewrite H.
Qed.

Lemma rows_y_cons sid ids yd :
  get_shard_y s (Z.of_nat sid) = Returns yd ->
  rows_y s (sid :: ids) = yd ++ rows_y s ids.
Proof.
  unfold rows_y, y_data. intros H. cbn [map concat]. now rewrite H.
Qed.

Lemma rest_x_split c :
  rest_x s return_x c
  = when return_x (skipn (shard_position c) (x_shard_data c))
    ++ rows_x s return_x (pending c).
Proof. unfold rest_x, rows_x, when. now destruct return_x. Qed.

Lemma emit_rest c :
  (return_x = true -> length (x_shard_data c) = length (y_shard_data c)) ->
  emit s return_x return_y (rest_x s return_x c) (rest_y s c)
  = bapp (emit s return_x return_y
            (when return_x (skipn (shard_position c) (x_shard_data c)))
            (skipn (shard_position c) (y_shard_data c)))
         (emit s return_x return_y (rows_x s return_x (pending c))
            (rows_y s (pending c))).
Proof.
  intros Hlen. rewrite rest_x_split. unfold rest_y. apply emit_app.
  - intros E. unfold when. rewrite E. rewrite !length_skipn.
    now rewrite (Hlen E).
  - intros E. unfold when, rows_x. now rewrite E.
Qed.

(** The [for] loop neither loses nor reorders rows, and it ends
    without a last [yield] only if the remainder is to be dropped or
    the last shard has no row. *)
Lemma for_loop_emits ids :
  forall buf,
    y_batch_size buf < batch_size ->
    aligned s return_x ids ->
    match for_loop s batch_size return_x return_y drop_remainder ids buf with
    | Returns (Some (b, Suspended c)) =>
        (exists pre, ids = pre ++ shard_id c :: pending c)
        /\ (return_x = true ->
            length (x_shard_data c) = length (y_shard_data c))
        /\ bapp (contents buf)
             (emit s return_x return_y (rows_x s return_x ids) (rows_y s ids))
           = bapp b (emit s return_x return_y (rest_x s return_x c)
                       (rest_y s c))
    | Returns (Some (_, NotStarted)) => False
    | Returns None =>
        drop_remainder = false ->
        forall pre, ids = pre ++ [get_num_shards s - 1] ->
                    0 < get_num_shards s ->
                    0 < length (y_data s (get_num_shards s - 1)) ->
                    False
    | Raises _ => True
    end.
Proof.
  induction ids as [|sid ids IH]; intros buf Hsize Hal.
  - cbn [for_loop]. intros _ pre H. now destruct pre.
  - cbn [for_loop].
    destruct (if return_x then get_shard_x s (Z.of_nat sid) else Returns [])
      as [xd|e] eqn:Hx; [|exact I].
    destruct (get_shard_y s (Z.of_nat sid)) as [yd|e] eqn:Hy; [|exact I].
    assert (Hlen : return_x = true -> length xd = length yd).
    { intros E. pose proof (Hal E) as HF. apply Forall_inv in HF.
      unfold x_data, y_data in HF. rewrite E in Hx.
      now rewrite Hx, Hy in HF. }
    assert (Hal' : aligned s return_x ids).
    { intros E. pose proof (Hal E) as HF. now apply Forall_inv_tail in HF. }
    pose proof (while_loop_emits (length yd) sid xd yd 0 buf
                  ltac:(lia) Hsize Hlen) as W.
    rewrite (rows_x_cons sid ids xd Hx), (rows_y_cons sid ids yd Hy).
    assert (Happ : emit s return_x return_y
                     (when return_x xd ++ rows_x s return_x ids)
                     (yd ++ rows_y s ids)
                   = bapp (emit s return_x return_y (when return_x xd) yd)
                       (emit s return_x return_y (rows_x s return_x ids)
                          (rows_y s ids))).
    { apply emit_app.
      - intros E. unfold when. rewrite E. now apply Hlen.
      - intros E. unfold when, rows_x. now rewrite E. }
    rewrite Happ.
    destruct (while_loop _ _ _ _ _ _ _ _ _ _ _) as [b pos|buf'] eqn:Hw.
    + cbn [skipn] in W. split; [now exists []|]. split; [exact Hlen|].
      rewrite (emit_rest (mkCursor sid ids xd yd pos) Hlen).
      cbn [shard_position x_shard_data y_shard_data pending].
      rewrite <- !bapp_assoc. now rewrite W.
    + cbn [skipn] in W. destruct W as [W1 W2].
      apply while_loop_done_size in Hw; [|exact Hsize].
      specialize (IH buf' Hw Hal').
      destruct (for_loop _ _ _ _ _ _ _) as [[[b [|c]]|]|e]; auto.
      * destruct IH as [[pre Hpre] [Hc IH]].
        split; [exists (sid :: pre); now rewrite Hpre|].
        split; [exact Hc|].
        rewrite <- IH, W1. now rewrite bapp_assoc.
      * intros Hd pre Hpre Hn Hlast.
        destruct ids as [|sid' ids'].
        -- destruct pre as [|p pre]; [|now destruct pre].
           injection Hpre as Hsid.
           assert (Hs : sid + 1 = get_num_shards s) by lia.
           specialize (W2 Hs Hd).
           unfold y_data in Hlast. rewrite <- Hsid, Hy in Hlast. lia.
        -- destruct pre as [|p pre]; [discriminate|].
           injection Hpre as _ Hpre. eapply IH; eassumption.
Qed.

End Emission.

Lemma seq_split a n pre x post :
  seq a n = pre ++ x :: post ->
  x = a + length pre /\ post = seq (S x) (n - S (length pre))
  /\ length pre < n.
Proof.
  revert a n. induction pre as [|p pre IH]; intros a n H.
  - destruct n as [|n]; [discriminate|]. cbn in H. injection H as Hx Hp.
    subst. cbn. rewrite Nat.add_0_r, Nat.sub_0_r. repeat split. lia.
  - destruct n as [|n]; [discriminate|]. cbn in H. injection H as _ H.
    apply IH in H. destruct H as [Hx [Hp Hl]]. cbn [length].
    repeat split; [lia | now rewrite Hp | lia].
Qed.

Lemma seq_last a n : 0 < n -> seq a n = seq a (n - 1) ++ [a + n - 1].
Proof.
  intros H. replace n with ((n - 1) + 1) at 1 by lia.
  rewrite seq_app. cbn [seq]. f_equal. f_equal. lia.
Qed.

Lemma aligned_app s return_x pre post :
  aligned s return_x (pre ++ post) -> aligned s return_x post.
Proof.
  intros H E. specialize (H E). apply Forall_app in H. now destruct H.
Qed.

Lemma aligned_tail s return_x sid ids :
  aligned s return_x (sid :: ids) -> aligned s return_x ids.
Proof. intros H E. specialize (H E). now apply Forall_inv_tail in H. Qed.

(** One [next] without [drop_remainder], when the last shard has a
    row: the rows still to read are the batch of this [next] and the
    rows still to read after it; the generator ends only when no row
    is left. *)
Lemma gen_next_emits s batch_size return_x return_y g :
  (1 <= batch_size)%Z ->
  last_shard_nonempty s ->
  gen_wf s return_x g ->
  match gen_next s batch_size return_x return_y false g with
  | Returns (Some (b, g')) =>
      gen_wf s return_x g'
      /\ gen_rest s return_x return_y g
         = bapp b (gen_rest s return_x return_y g')
  | Returns None => gen_rest s return_x return_y g = ([], [])
  | Raises _ => True
  end.
Proof.
  intros Hbs Hlast Hwf.
  assert (Hsize : y_batch_size empty_buffer < Z.to_nat batch_size)
    by (cbn; lia).
  destruct g as [|c]; cbn [gen_next].
  - destruct (_ || _); [exact I|].
    cbn [gen_wf] in Hwf.
    pose proof (for_loop_emits s (Z.to_nat batch_size) return_x return_y
                  false (seq 0 (get_num_shards s)) empty_buffer Hsize Hwf)
      as F.
    destruct (for_loop _ _ _ _ _ _ _) as [[[b [|c]]|]|e];
      try exact I; try contradiction.
    + destruct F as [[pre Hpre] [Hc F]]. split.
      * cbn [gen_wf]. split; [now exists pre|]. split; [|exact Hc].
        rewrite Hpre in Hwf. apply aligned_app in Hwf.
        now apply aligned_tail in Hwf.
      * cbn [gen_rest]. rewrite <- F.
        unfold contents, empty_buffer. cbn [x_batch y_batch concat].
        now rewrite bapp_nil_l.
    + cbn [gen_rest]. unfold last_shard_nonempty in Hlast.
      destruct (get_num_shards s) as [|n] eqn:Hn.
      * cbn [seq]. unfold rows_x, rows_y. cbn [map concat].
        destruct return_x; apply emit_nil.
      * exfalso. destruct Hlast as [Hz|Hl]; [discriminate|].
        apply (F eq_refl (seq 0 n)); [|lia|exact Hl].
        rewrite (seq_last 0 (S n)) by lia.
        replace (0 + S n - 1) with n by lia.
        replace (S n - 1) with n by lia. reflexivity.
  - destruct Hwf as [[pre Hpre] [Hal Hc]].
    pose proof (while_loop_emits s (Z.to_nat batch_size) return_x return_y
                  false (length (y_shard_data c) - shard_position c)
                  (shard_id c) (x_shard_data c) (y_shard_data c)
                  (shard_position c) empty_buffer (Nat.le_refl _) Hsize Hc)
      as W.
    destruct (while_loop _ _ _ _ _ _ _ _ _ _ _) as [b pos|buf] eqn:Hw.
    + split.
      * cbn [gen_wf shard_id pending x_shard_data y_shard_data].
        split; [now exists pre|]. split; assumption.
      * cbn [gen_rest]. rewrite (emit_rest s return_x return_y c Hc).
        rewrite (emit_rest s return_x return_y
                   (mkCursor (shard_id c) (pending c) (x_shard_data c)
                      (y_shard_data c) pos) Hc).
        cbn [shard_position x_shard_data y_shard_data pending].
        unfold contents, empty_buffer in W. cbn [x_batch y_batch concat] in W.
        rewrite bapp_nil_l in W. rewrite W. now rewrite bapp_assoc.
    + destruct W as [W1 W2].
      unfold contents at 2, empty_buffer in W1.
      cbn [x_batch y_batch concat] in W1. rewrite bapp_nil_l in W1.
      apply while_loop_done_size in Hw; [|exact Hsize].
      pose proof (for_loop_emits s (Z.to_nat batch_size) return_x return_y
                    false (pending c) buf Hw Hal) as F.
      destruct (for_loop _ _ _ _ _ _ _) as [[[b [|c']]|]|e];
        try exact I; try contradiction.
      * destruct F as [[pre' Hpre'] [Hc' F]]. split.
        -- cbn [gen_wf]. split.
           ++ exists (pre ++ shard_id c :: pre').
              rewrite Hpre, Hpre'. now rewrite <- app_assoc.
           ++ split; [|exact Hc'].
              rewrite Hpre' in Hal. apply aligned_app in Hal.
              now apply aligned_tail in Hal.
        -- cbn [gen_rest]. rewrite (emit_rest s return_x return_y c Hc).
           rewrite <- W1. exact F.
      * cbn [gen_rest]. rewrite (emit_rest s return_x return_y c Hc).
        apply seq_split in Hpre. destruct Hpre as [Hsid [Hpend Hl]].
        cbn [Nat.add] in Hsid.
        destruct (pending c) as [|p ps] eqn:Hp.
        -- assert (Hn : shard_id c + 1 = get_num_shards s).
           { destruct (get_num_shards s - S (length pre)) eqn:E;
               [lia|discriminate]. }
           specialize (W2 Hn eq_refl).
           rewrite (when_skipn_all return_x _ (y_shard_data c)) by auto.
           rewrite skipn_all2 by exact W2.
           rewrite emit_nil. unfold rows_x, rows_y. cbn [map concat].
           destruct return_x; now rewrite emit_nil.
        -- exfalso.
           assert (Hm : 0 < get_num_shards s - S (length pre)).
           { destruct (get_num_shards s - S (length pre));
               [discriminate|lia]. }
           destruct Hlast as [Hz|Hlast]; [lia|].
           apply (F eq_refl
                    (seq (S (shard_id c))
                       (get_num_shards s - S (length pre) - 1)));
             [|lia|exact Hlast].
           rewrite Hpend. rewrite (seq_last _ _ Hm). do 2 f_equal. lia.
Qed.

Lemma concat_batches_cons b bs :
  concat_batches (b :: bs) = bapp b (concat_batches bs).
Proof. reflexivity. Qed.

(** Draining a generator gives the rows it had still to read. *)
Lemma drain_emits s batch_size return_x return_y :
  (1 <= batch_size)%Z ->
  last_shard_nonempty s ->
  forall fuel g bs,
    gen_wf s return_x g ->
    drain fuel s batch_size return_x return_y false g = Returns bs ->
    concat_batches bs = gen_rest s return_x return_y g.
Proof.
  intros Hbs Hlast. induction fuel as [|fuel IH]; intros g bs Hwf H.
  - discriminate.
  - cbn [drain] in H.
    pose proof (gen_next_emits s batch_size return_x return_y g
                  Hbs Hlast Hwf) as N.
    destruct (gen_next _ _ _ _ _ _) as [[[b g']|]|e]; [| |discriminate].
    + destruct N as [Hwf' N].
      destruct (drain fuel _ _ _ _ _ _) as [bs'|e] eqn:Hd; [|discriminate].
      injection H as <-. rewrite concat_batches_cons, N.
      f_equal. now apply IH.
    + injection H as <-. now rewrite N.
Qed.

(** Without [drop_remainder], on a dataset of paired shards whose last
    shard has a row, the batches of [iterate_batches], concatenated in
    the order of their yield, are the rows of the shards in shard order
    and row order: all of them when the transform is disabled, and
    otherwise those the transform keeps, as it returns them. *)
Theorem iterate_batches_all_rows s batch_size return_x return_y :
  paired s ->
  aligned s return_x (seq 0 (get_num_shards s)) ->
  last_shard_nonempty s ->
  (1 <= batch_size)%Z ->
  return_x || return_y = true ->
  exists bs,
    iterate_batches s batch_size return_x return_y false = Returns bs
    /\ concat_batches bs
       = emit s return_x return_y
           (rows_x s return_x (seq 0 (get_num_shards s)))
           (rows_y s (seq 0 (get_num_shards s))).
Proof.
  intros Hp Hal Hlast Hbs Hret.
  destruct (iterate_batches_returns s batch_size return_x return_y false
              Hp Hbs Hret) as [bs H].
  exists bs. split; [exact H|].
  unfold iterate_batches in H.
  exact (drain_emits s batch_size return_x return_y Hbs Hlast _ NotStarted bs
           Hal H).
Qed.

Lemma select_filter {A : Type} (f : A -> bool) (l : list A) :
  select (map f l) l = filter f l.
Proof.
  induction l as [|a l IH]; [reflexivity|].
  cbn. now rewrite IH.
Qed.

(** X3.  With the transform disabled and both channels requested, the
    batches are all the stored rows. *)
Corollary iterate_batches_stored_rows s batch_size :
  paired s ->
  aligned s true (seq 0 (get_num_shards s)) ->
  last_shard_nonempty s ->
  (1 <= batch_size)%Z ->
  disable_transform s = true ->
  exists bs,
    iterate_batches s batch_size true true false = Returns bs
    /\ concat (map fst bs) = concat (map (x_data s) (seq 0 (get_num_shards s)))
    /\ concat (map snd bs) = rows_y s (seq 0 (get_num_shards s)).
Proof.
  intros Hp Hal Hlast Hbs Hd.
  destruct (iterate_batches_all_rows s batch_size true true Hp Hal Hlast Hbs
              eq_refl) as [bs [H E]].
  exists bs. split; [exact H|].
  unfold emit in E. rewrite Hd in E. unfold concat_batches, rows_x in E.
  now injection E as E1 E2.
Qed.

(** With the transform enabled, the predictions that come out are
    those within the thresholds, in order, and as many as the filter
    keeps when they are normalized too. *)
Corollary iterate_batches_visible_rows s batch_size :
  paired s ->
  last_shard_nonempty s ->
  (1 <= batch_size)%Z ->
  disable_transform s = false ->
  exists bs,
    iterate_batches s batch_size false true false = Returns bs
    /\ length (concat (map snd bs))
       = length (filter (in_range s) (rows_y s (seq 0 (get_num_shards s))))
    /\ (is_normalized_y s = false ->
        concat (map snd bs)
        = filter (in_range s) (rows_y s (seq 0 (get_num_shards s)))).
Proof.
  intros Hp Hlast Hbs Hd.
  destruct (iterate_batches_all_rows s batch_size false true Hp
              ltac:(intros E; discriminate) Hlast Hbs eq_refl) as [bs [H E]].
  exists bs. split; [exact H|].
  unfold emit, batch_transform in E. rewrite Hd in E.
  unfold concat_batches in E. cbn [rows_x] in E.
  injection E as _ E. rewrite E, select_filter.
  rewrite andb_true_r. split.
  - destruct (is_normalized_y s); [|reflexivity].
    destruct (y_mean s), (y_standard_dev s); try reflexivity.
    apply length_map.
  - intros Hn. now rewrite Hn.
Qed.

(** When the last shard has a row, the full distribution that
    [subsample], [relabel] and [split] read is every stored
    prediction. *)
Corollary stored_predictions_all_rows s :
  paired s ->
  0 < get_num_shards s ->
  0 < length (y_data s (get_num_shards s - 1)) ->
  (1 <= internal_batch_size s)%Z ->
  stored_predictions s = Returns (rows_y s (seq 0 (get_num_shards s))).
Proof.
  intros Hp Hn Hlast Hbs.
  set (s1 := set_disable_transform true s).
  assert (Hrows : forall ids, rows_y s1 ids = rows_y s ids) by reflexivity.
  destruct (iterate_batches_all_rows s1 (internal_batch_size s) false true
              Hp ltac:(intros E; discriminate) (or_intror Hlast) Hbs eq_refl)
    as [bs [H E]].
  unfold stored_predictions, prop_y, bind, read. fold s1.
  change (internal_batch_size s1) with (internal_batch_size s).
  rewrite H. cbn [fst].
  unfold emit, concat_batches in E.
  change (disable_transform s1) with true in E. cbn beta iota in E.
  injection E as _ E. change (get_num_shards s1) with (get_num_shards s) in E.
  rewrite Hrows in E.
  unfold np_concatenate. destruct (map snd bs) as [|b l] eqn:Hm.
  - exfalso. cbn [concat] in E.
    change (num_shards s) with (get_num_shards s) in E.
    rewrite (seq_last 0 _ Hn) in E. unfold rows_y in E.
    rewrite map_app, concat_app in E. cbn [map concat Nat.add] in E.
    rewrite app_nil_r in E.
    destruct (y_data s (get_num_shards s - 1)); [cbn in Hlast; lia|].
    now destruct (concat (map (y_data s) (seq 0 (get_num_shards s - 1)))).
  - rewrite E. reflexivity.
Qed.

(* ================================================================= *)
(** ** Shards without a partner *)

(** X4.  The generator reads the shards below the shard count only: its
    batches are those of the dataset cut down to the paired shards. *)
Lemma iterate_batches_ignores_excess s batch_size return_x return_y
  drop_remainder :
  iterate_batches s batch_size return_x return_y drop_remainder
  = iterate_batches
      (set_x_shards (firstn (num_shards s) (x_shards s))
         (set_y_shards (firstn (num_shards s) (y_shards s)) s))
      batch_size return_x return_y drop_remainder.
Proof.
  apply iterate_batches_same.
  - reflexivity.
  - intros sid Hsid.
    unfold get_shard_x, get_shard_y, shard_id_rejected, get_num_shards.
    cbn [x_shards y_shards num_shards set_x_shards set_y_shards].
    rewrite !py_index_nat, !nth_error_firstn.
    apply Nat.ltb_lt in Hsid. now rewrite Hsid.
  - intros x y _. reflexivity.
Qed.

(** The constructor does not report lists of different lengths: it
    raises only what its first passes over the data raise, and on
    in-range batch sizes nothing. *)
Lemma init_accepts_unpaired xs ys b :
  (1 <= b)%Z -> exists s, init xs ys b = Returns s.
Proof.
  intros Hb. unfold init.
  set (s0 := mkDatasetBuilder xs ys (length (combine xs ys)) 0%Q 100%Q
               NINF PINF b false false false false None None None None
               None None 0).
  assert (Hp : paired s0).
  { unfold paired, s0. cbn. rewrite length_combine. lia. }
  unfold iterate_samples at 1.
  destruct (iterate_batches_returns s0 (internal_batch_size s0) true false
              false Hp Hb eq_refl) as [bs H].
  rewrite H.
  match goal with
  | |- context [iterate_samples ?st false true] => set (s1 := st)
  end.
  assert (Hp1 : paired s1).
  { unfold s1. destruct (concat _) as [|[x ?] l]; exact Hp. }
  assert (Hb1 : (1 <= internal_batch_size s1)%Z).
  { unfold s1. destruct (concat _) as [|[x ?] l]; exact Hb. }
  unfold iterate_samples.
  destruct (iterate_batches_returns s1 (internal_batch_size s1) false true
              false Hp1 Hb1 eq_refl) as [bs' H'].
  rewrite H'. eexists. reflexivity.
Qed.

(* ================================================================= *)
(** ** What [relabel] leaves in place *)

Lemma same_layout_refl s : same_layout s s.
Proof. repeat split. Qed.

Lemma same_layout_trans s1 s2 s3 :
  same_layout s1 s2 -> same_layout s2 s3 -> same_layout s1 s3.
Proof.
  intros [A1 [B1 C1]] [A2 [B2 C2]]. repeat split; congruence.
Qed.

Lemma keeps_layout_ret {A : Type} (a : A) : keeps_layout (ret a).
Proof. intros s o s' H. injection H as _ <-. apply same_layout_refl. Qed.

Lemma keeps_layout_raise {A : Type} e : keeps_layout (raise (A:=A) e).
Proof. intros s o s' H. injection H as _ <-. apply same_layout_refl. Qed.

Lemma keeps_layout_get : keeps_layout get.
Proof. intros s o s' H. injection H as _ <-. apply same_layout_refl. Qed.

Lemma keeps_layout_read {A : Type} (f : DatasetBuilder -> outcome A) :
  keeps_layout (read f).
Proof. intros s o s' H. injection H as _ <-. apply same_layout_refl. Qed.

Lemma keeps_layout_bind {A B : Type} (c : M A) (k : A -> M B) :
  keeps_layout c -> (forall a, keeps_layout (k a)) -> keeps_layout (bind c k).
Proof.
  intros Hc Hk s o s' H. unfold bind in H.
  destruct (c s) as [[a|e] s1] eqn:E.
  - eapply same_layout_trans; [eapply Hc, E | eapply Hk, H].
  - injection H as _ <-. eapply Hc, E.
Qed.

Lemma keeps_layout_assign f :
  (forall s, same_layout s (f s)) -> keeps_layout (assign f).
Proof. intros Hf s o s' H. injection H as _ <-. apply Hf. Qed.

Lemma keeps_layout_if {A : Type} (b : bool) (c1 c2 : M A) :
  keeps_layout c1 -> keeps_layout c2 -> keeps_layout (if b then c1 else c2).
Proof. now destruct b. Qed.

Lemma list_update_place {A : Type} (l : list (shard A)) n sh d :
  nth_error l n = Some sh ->
  map shard_place (list_update l n (shard_store sh d)) = map shard_place l.
Proof.
  revert n. induction l as [|a l IH]; intros [|n] H; try discriminate.
  - injection H as ->. cbn. now destruct sh.
  - cbn. f_equal. now apply IH.
Qed.

Lemma keeps_layout_set_shard_y shard_id data :
  keeps_layout (set_shard_y shard_id data).
Proof.
  intros s o s' H. unfold set_shard_y in H.
  destruct (shard_id_rejected s shard_id);
    [injection H as _ <-; apply same_layout_refl|].
  destruct (py_index (y_shards s) shard_id) as [sh|] eqn:Hi;
    [|injection H as _ <-; apply same_layout_refl].
  unfold py_index, py_setitem in *.
  destruct (0 <=? shard_id)%Z.
  - destruct (Z.to_nat shard_id <? length (y_shards s));
      [|injection H as _ <-; apply same_layout_refl].
    injection H as _ <-. split; [reflexivity|]. split; [reflexivity|].
    cbn [y_shards set_y_shards]. now apply list_update_place.
  - destruct (0 <=? Z.of_nat (length (y_shards s)) + shard_id)%Z;
      [|discriminate].
    injection H as _ <-. split; [reflexivity|]. split; [reflexivity|].
    cbn [y_shards set_y_shards]. now apply list_update_place.
Qed.

Ltac layout_using known :=
  repeat first
    [ known
    | apply keeps_layout_bind; [|intros ?]
    | apply keeps_layout_if
    | apply keeps_layout_ret
    | apply keeps_layout_raise
    | apply keeps_layout_get
    | apply keeps_layout_read
    | apply keeps_layout_set_shard_y
    | apply keeps_layout_assign; intros ?; repeat split ].

Ltac layout := layout_using fail.

Lemma keeps_layout_prop_y : keeps_layout prop_y.
Proof. unfold prop_y. layout. Qed.

Lemma keeps_layout_update_x_statistics : keeps_layout update_x_statistics.
Proof. unfold update_x_statistics. layout. Qed.

Lemma keeps_layout_update_y_statistics : keeps_layout update_y_statistics.
Proof. unfold update_y_statistics. layout. Qed.

Lemma keeps_layout_subsample np_percentile max_percentile min_percentile :
  keeps_layout (subsample np_percentile max_percentile min_percentile).
Proof.
  unfold subsample.
  layout_using
    ltac:(first [ apply keeps_layout_prop_y
                | apply keeps_layout_update_x_statistics
                | apply keeps_layout_update_y_statistics ]).
Qed.

Lemma keeps_layout_relabel_while fuel examples y_batch :
  forall read_position l,
    keeps_layout (relabel_while fuel examples y_batch read_position l).
Proof.
  induction fuel as [|fuel IH]; intros read_position l.
  - apply keeps_layout_raise.
  - cbn [relabel_while]. layout_using ltac:(apply IH).
Qed.

Lemma keeps_layout_relabel_for fuel f examples :
  forall g l, keeps_layout (relabel_for fuel f examples g l).
Proof.
  induction fuel as [|fuel IH]; intros g l.
  - apply keeps_layout_raise.
  - cbn [relabel_for]. apply keeps_layout_bind; [apply keeps_layout_read|].
    intros [[[x_batch y_batch] g']|]; [|apply keeps_layout_ret].
    layout_using
      ltac:(first [apply keeps_layout_relabel_while | apply IH]).
Qed.

(** X16.  Whatever its outcome, [relabel] leaves the design shards and the
    shard count as they are and every prediction shard in its place, in
    memory or in its file. *)
Lemma relabel_keeps_layout np_percentile f :
  keeps_layout (relabel np_percentile f).
Proof.
  unfold relabel.
  layout_using
    ltac:(first [ apply keeps_layout_prop_y
                | apply keeps_layout_relabel_for
                | apply keeps_layout_subsample ]).
Qed.

(* ================================================================= *)
(** * Further properties of the methods, the oracle table and the
      sharding script *)

(* ================================================================= *)
(** ** The size of a batch *)

Lemma select_length {A : Type} (mask : list bool) (a : list A) :
  length (select mask a) <= length a.
Proof.
  revert a. induction mask as [|b mask IH]; intros [|r a]; cbn; try lia.
  specialize (IH a). destruct b; cbn; lia.
Qed.

Lemma slice_length_le {A : Type} (a : list A) (i t : nat) :
  length (slice a i (i + t)) <= t.
Proof.
  unfold slice. replace (i + t - i) with t by lia. apply firstn_le_length.
Qed.

Lemma standardize_length x m sd : length (standardize x m sd) = length x.
Proof. unfold standardize. apply length_map. Qed.

(** The transform returns no more rows than it is given. *)
Lemma transform_rows s x y return_x return_y x' y' :
  (if disable_transform s then (x, y)
   else batch_transform s x y return_x return_y) = (x', y') ->
  (if return_y then length y' else length x')
  <= (if return_y then length y else length x).
Proof.
  destruct (disable_transform s).
  - intros H. injection H as <- <-. lia.
  - unfold batch_transform. intros H. injection H as <- <-.
    destruct return_y.
    + rewrite andb_true_r.
      destruct (is_normalized_y s);
        [destruct (y_mean s), (y_standard_dev s)|];
        rewrite ?length_map; apply select_length.
    + destruct return_x.
      * rewrite andb_true_r.
        destruct (is_normalized_x s);
          [destruct (x_mean s), (x_standard_dev s)|];
          rewrite ?standardize_length; apply select_length.
      * rewrite andb_false_r. cbn. lia.
Qed.

Section BatchSizes.

Variable s : DatasetBuilder.
Variable batch_size : nat.
Variables return_x return_y drop_remainder : bool.

Lemma while_loop_batch_rows fuel sid xd yd :
  forall pos buf,
    y_batch_size buf = buffered_rows return_y buf ->
    y_batch_size buf < batch_size ->
    match while_loop fuel s batch_size return_x return_y drop_remainder
            sid xd yd pos buf with
    | Yield b _ =>
        batch_rows return_y b <= batch_size
        /\ (drop_remainder = true -> batch_rows return_y b = batch_size)
    | Done buf' =>
        y_batch_size buf' = buffered_rows return_y buf'
        /\ y_batch_size buf' < batch_size
    end.
Proof.
  induction fuel as [|fuel IH]; intros pos buf Hc Hlt; cbn [while_loop].
  - split; assumption.
  - destruct (pos <? length yd); [|split; assumption].
    destruct (if disable_transform s then _ else _) as [xs ys] eqn:Hsl.
    apply transform_rows in Hsl.
    assert (Hread : (if return_y then length ys else length xs)
                    <= batch_size - y_batch_size buf).
    { etransitivity; [exact Hsl|].
      destruct return_y; [apply slice_length_le|].
      destruct return_x; [apply slice_length_le | cbn; lia]. }
    assert (Hrows :
              buffered_rows return_y
                (mkBuffer
                   (if return_x then x_batch buf ++ [xs] else x_batch buf)
                   (if return_y then y_batch buf ++ [ys] else y_batch buf)
                   (y_batch_size buf
                    + (if return_y then length ys else length xs)))
              = y_batch_size buf
                + (if return_y then length ys else length xs)).
    { unfold buffered_rows in *. cbn [x_batch y_batch].
      destruct return_y.
      - rewrite concat_app, length_app. cbn. rewrite app_nil_r. lia.
      - destruct return_x.
        + rewrite concat_app, length_app. cbn. rewrite app_nil_r. lia.
        + cbn in Hsl. lia. }
    match goal with
    | |- match (if ?c then _ else _) with _ => _ end => destruct c eqn:Hy
    end.
    + unfold buffered_rows in Hrows. cbn [x_batch y_batch] in Hrows.
      unfold batch_rows. cbn [fst snd].
      assert (Hdrop : drop_remainder = true ->
                      batch_size
                      <= y_batch_size buf
                         + (if return_y then length ys else length xs)).
      { intros ->. rewrite andb_false_r, orb_false_r in Hy.
        now apply Nat.leb_le in Hy. }
      clear Hy Hsl IH Hc.
      destruct return_y; cbv beta iota in *;
        (split; [lia | intros E; specialize (Hdrop E); lia]).
    + apply orb_false_iff in Hy. destruct Hy as [Hsz _].
      apply Nat.leb_gt in Hsz.
      apply IH; [|exact Hsz]. cbn [y_batch_size]. now rewrite Hrows.
Qed.

Lemma for_loop_batch_rows ids :
  forall buf,
    y_batch_size buf = buffered_rows return_y buf ->
    y_batch_size buf < batch_size ->
    match for_loop s batch_size return_x return_y drop_remainder ids buf with
    | Returns (Some (b, _)) =>
        batch_rows return_y b <= batch_size
        /\ (drop_remainder = true -> batch_rows return_y b = batch_size)
    | _ => True
    end.
Proof.
  induction ids as [|sid ids IH]; intros buf Hc Hlt; cbn [for_loop].
  - exact I.
  - destruct (if return_x then _ else _) as [xd|]; [|exact I].
    destruct (get_shard_y s (Z.of_nat sid)) as [yd|]; [|exact I].
    pose proof (while_loop_batch_rows (length yd) sid xd yd 0 buf Hc Hlt) as W.
    destruct (while_loop _ _ _ _ _ _ _ _ _ _ _) as [b pos|buf'].
    + exact W.
    + destruct W as [Hc' Hlt']. apply IH; assumption.
Qed.

End BatchSizes.

Lemma gen_next_batch_rows s batch_size return_x return_y drop_remainder g :
  (1 <= batch_size)%Z ->
  match gen_next s batch_size return_x return_y drop_remainder g with
  | Returns (Some (b, _)) =>
      batch_rows return_y b <= Z.to_nat batch_size
      /\ (drop_remainder = true ->
          batch_rows return_y b = Z.to_nat batch_size)
  | _ => True
  end.
Proof.
  intros Hbs.
  assert (Hc : y_batch_size empty_buffer
               = buffered_rows return_y empty_buffer).
  { unfold buffered_rows. now destruct return_y. }
  assert (Hlt : y_batch_size empty_buffer < Z.to_nat batch_size).
  { cbn. lia. }
  destruct g as [|c]; cbn [gen_next].
  - destruct (_ || _); [exact I|].
    apply for_loop_batch_rows; assumption.
  - pose proof (while_loop_batch_rows s (Z.to_nat batch_size) return_x
                  return_y drop_remainder
                  (length (y_shard_data c) - shard_position c) (shard_id c)
                  (x_shard_data c) (y_shard_data c) (shard_position c)
                  empty_buffer Hc Hlt) as W.
    destruct (while_loop _ _ _ _ _ _ _ _ _ _ _) as [b pos|buf'].
    + exact W.
    + destruct W as [Hc' Hlt']. apply for_loop_batch_rows; assumption.
Qed.

Lemma drain_batch_rows s batch_size return_x return_y drop_remainder :
  (1 <= batch_size)%Z ->
  forall fuel g bs,
    drain fuel s batch_size return_x return_y drop_remainder g = Returns bs ->
    Forall (fun b =>
              batch_rows return_y b <= Z.to_nat batch_size
              /\ (drop_remainder = true ->
                  batch_rows return_y b = Z.to_nat batch_size)) bs.
Proof.
  intros Hbs. induction fuel as [|fuel IH]; intros g bs H.
  - discriminate.
  - cbn [drain] in H.
    pose proof (gen_next_batch_rows s batch_size return_x return_y
                  drop_remainder g Hbs) as N.
    destruct (gen_next _ _ _ _ _ _) as [[[b g']|]|e]; [| |discriminate].
    + destruct (drain fuel _ _ _ _ _ _) as [bs'|e] eqn:Hd; [|discriminate].
      injection H as <-. constructor; [exact N|]. now apply (IH g').
    + injection H as <-. constructor.
Qed.

(** X2.  No batch of [iterate_batches] has more than [batch_size] rows, and
    with [drop_remainder] every batch has exactly [batch_size] rows.
    The rows are counted in the prediction channel when it is
    requested, and in the design channel otherwise. *)
Theorem iterate_batches_batch_size :
  forall s batch_size return_x return_y drop_remainder bs,
    iterate_batches s batch_size return_x return_y drop_remainder
    = Returns bs ->
    Forall (fun b =>
              batch_rows return_y b <= Z.to_nat batch_size
              /\ (drop_remainder = true ->
                  batch_rows return_y b = Z.to_nat batch_size)) bs.
Proof.
  intros s batch_size return_x return_y drop_remainder bs H.
  destruct (Z_lt_le_dec batch_size 1) as [Hlt|Hle].
  - unfold iterate_batches in H. cbn [drain gen_next] in H.
    apply Z.ltb_lt in Hlt. rewrite Hlt in H. discriminate.
  - unfold iterate_batches in H. eapply drain_batch_rows; eassumption.
Qed.

Lemma iterate_batches_batch_size_witness :
  iterate_batches three_and_two 2 true true true
  = Returns [([[1%R]; [2%R]], [1%R; 2%R]); ([[3%R]; [4%R]], [3%R; 4%R])]
  /\ Forall (fun b => batch_rows true b <= 2
                      /\ (true = true -> batch_rows true b = 2))
       [([[1%R]; [2%R]], [1%R; 2%R]); ([[3%R]; [4%R]], [3%R; 4%R])].
Proof.
  assert (H : iterate_batches three_and_two 2 true true true
              = Returns [([[1%R]; [2%R]], [1%R; 2%R]);
                         ([[3%R]; [4%R]], [3%R; 4%R])])
    by (vm_compute; reflexivity).
  split; [exact H|].
  exact (iterate_batches_batch_size three_and_two 2 true true true _ H).
Defined.

(* ================================================================= *)
(** ** The samples of [iterate_samples] *)

Lemma select_length_eq {A B : Type} (mask : list bool) (a : list A)
  (b : list B) :
  length a = length b -> length (select mask a) = length (select mask b).
Proof.
  revert a b. induction mask as [|m mask IH]; intros [|r a] [|r' b] H;
    cbn in *; try reflexivity; try discriminate.
  injection H as H. specialize (IH a b H). destruct m; cbn; lia.
Qed.

Lemma emit_lengths s x y :
  length x = length y ->
  length (fst (emit s true true x y)) = length (snd (emit s true true x y)).
Proof.
  intros H. unfold emit. destruct (disable_transform s); [exact H|].
  unfold batch_transform. rewrite !andb_true_r. cbn [fst snd].
  assert (E : length (select (map (in_range s) y) x)
              = length (select (map (in_range s) y) y))
    by now apply select_length_eq.
  destruct (is_normalized_x s);
    [destruct (x_mean s), (x_standard_dev s)|];
    rewrite ?standardize_length;
    (destruct (is_normalized_y s);
     [destruct (y_mean s), (y_standard_dev s)|]);
    rewrite ?length_map; exact E.
Qed.

Lemma aligned_rows s ids :
  aligned s true ids ->
  length (concat (map (x_data s) ids)) = length (rows_y s ids).
Proof.
  intros H. specialize (H eq_refl). unfold rows_y.
  induction H as [|sid ids Hsid _ IH]; [reflexivity|].
  cbn [map concat]. rewrite !length_app. lia.
Qed.

Lemma gen_rest_lengths s g :
  gen_wf s true g ->
  length (fst (gen_rest s true true g)) = length (snd (gen_rest s true true g)).
Proof.
  destruct g as [|c]; cbn [gen_wf gen_rest].
  - intros H. apply emit_lengths. unfold rows_x. now apply aligned_rows.
  - intros (_ & Ha & Hl). apply emit_lengths.
    unfold rest_x, rest_y. rewrite !length_app, !length_skipn.
    rewrite (aligned_rows _ _ Ha), (Hl eq_refl). reflexivity.
Qed.

(** A batch with both channels has as many designs as predictions. *)
Lemma drain_paired_rows s batch_size :
  (1 <= batch_size)%Z ->
  last_shard_nonempty s ->
  forall fuel g bs,
    gen_wf s true g ->
    drain fuel s batch_size true true false g = Returns bs ->
    Forall (fun b => length (fst b) = length (snd b)) bs.
Proof.
  intros Hbs Hlast. induction fuel as [|fuel IH]; intros g bs Hwf H.
  - discriminate.
  - cbn [drain] in H.
    pose proof (gen_next_emits s batch_size true true g Hbs Hlast Hwf) as N.
    pose proof (gen_rest_lengths s g Hwf) as L.
    destruct (gen_next _ _ _ _ _ _) as [[[b g']|]|e]; [| |discriminate].
    + destruct N as [Hwf' N].
      destruct (drain fuel _ _ _ _ _ _) as [bs'|e] eqn:Hd; [|discriminate].
      injection H as <-. constructor; [|now apply (IH g')].
      pose proof (gen_rest_lengths s g' Hwf') as L'.
      rewrite N in L. unfold bapp in L. cbn [fst snd] in L.
      rewrite !length_app in L. unfold batch, x_array, y_array in *. lia.
    + injection H as <-. constructor.
Qed.

Lemma zip_with_app {A B C : Type} (f : A -> B -> C) a a' b b' :
  length a = length b ->
  zip_with f (a ++ a') (b ++ b') = zip_with f a b ++ zip_with f a' b'.
Proof.
  revert b. induction a as [|u a IH]; intros [|v b] H; cbn in *;
    try discriminate; [reflexivity|].
  injection H as H. now rewrite IH.
Qed.

Lemma unpack_concat bs :
  Forall (fun b : batch => length (fst b) = length (snd b)) bs ->
  concat (map (unpack true true) bs)
  = zip_rows (concat (map fst bs)) (concat (map snd bs)).
Proof.
  induction 1 as [|b bs Hb _ IH]; [reflexivity|].
  cbn [map concat]. unfold zip_rows in *.
  rewrite zip_with_app by exact Hb. now rewrite IH.
Qed.

Lemma zip_rows_length x y :
  length x = length y -> length (zip_rows x y) = length y.
Proof.
  unfold zip_rows. revert y. induction x as [|r x IH]; intros [|v y] H;
    cbn in *; try discriminate; [reflexivity|].
  injection H as H. now rewrite IH.
Qed.

Lemma zip_rows_fst x y :
  length x = length y -> map fst (zip_rows x y) = x.
Proof.
  unfold zip_rows. revert y. induction x as [|r x IH]; intros [|v y] H;
    cbn in *; try discriminate; [reflexivity|].
  injection H as H. now rewrite IH.
Qed.

Lemma zip_rows_snd x y :
  length x = length y -> map snd (zip_rows x y) = y.
Proof.
  unfold zip_rows. revert y. induction x as [|r x IH]; intros [|v y] H;
    cbn in *; try discriminate; [reflexivity|].
  injection H as H. now rewrite IH.
Qed.

Lemma iterate_samples_emitted s :
  paired s ->
  aligned s true (seq 0 (get_num_shards s)) ->
  last_shard_nonempty s ->
  (1 <= internal_batch_size s)%Z ->
  iterate_samples s true true
  = Returns
      (let e := emit s true true
                  (rows_x s true (seq 0 (get_num_shards s)))
                  (rows_y s (seq 0 (get_num_shards s))) in
       zip_rows (fst e) (snd e)).
Proof.
  intros Hp Ha Hlast Hbs.
  destruct (iterate_batches_all_rows s (internal_batch_size s) true true
              Hp Ha Hlast Hbs eq_refl) as (bs & H & E).
  unfold iterate_samples. rewrite H. f_equal.
  rewrite unpack_concat.
  - unfold concat_batches in E. cbv zeta. now rewrite <- E.
  - unfold iterate_batches in H.
    eapply drain_paired_rows; [exact Hbs|exact Hlast| |exact H]. exact Ha.
Qed.

(** X5.  [iterate_samples] on a dataset of paired shards whose last shard
    has a row: with the transform disabled the samples are the stored
    rows, each design with its prediction, in shard order and row
    order; there are as many of them as stored predictions. *)
Theorem iterate_samples_stored_rows :
  forall s,
    paired s ->
    aligned s true (seq 0 (get_num_shards s)) ->
    last_shard_nonempty s ->
    (1 <= internal_batch_size s)%Z ->
    disable_transform s = true ->
    iterate_samples s true true
    = Returns (zip_rows (concat (map (x_data s) (seq 0 (get_num_shards s))))
                 (rows_y s (seq 0 (get_num_shards s))))
    /\ map fst (zip_rows (concat (map (x_data s) (seq 0 (get_num_shards s))))
                  (rows_y s (seq 0 (get_num_shards s))))
       = concat (map (x_data s) (seq 0 (get_num_shards s)))
    /\ map snd (zip_rows (concat (map (x_data s) (seq 0 (get_num_shards s))))
                  (rows_y s (seq 0 (get_num_shards s))))
       = rows_y s (seq 0 (get_num_shards s)).
Proof.
  intros s Hp Ha Hlast Hbs Hd.
  rewrite (iterate_samples_emitted s Hp Ha Hlast Hbs).
  unfold emit. rewrite Hd. cbn [fst snd rows_x].
  pose proof (aligned_rows s _ Ha) as L.
  split; [reflexivity|].
  split; [now apply zip_rows_fst | now apply zip_rows_snd].
Qed.

Lemma iterate_samples_stored_rows_witness :
  iterate_samples (set_disable_transform true three_and_two) true true
  = Returns [([1%R], 1%R); ([2%R], 2%R); ([3%R], 3%R);
             ([4%R], 4%R); ([5%R], 5%R)].
Proof.
  assert (Hp : paired (set_disable_transform true three_and_two))
    by (vm_compute; lia).
  assert (Ha : aligned (set_disable_transform true three_and_two) true
                 (seq 0 (get_num_shards
                           (set_disable_transform true three_and_two)))).
  { intros _. vm_compute. repeat constructor. }
  assert (Hl : last_shard_nonempty (set_disable_transform true three_and_two))
    by (right; vm_compute; lia).
  assert (Hb : (1 <= internal_batch_size
                       (set_disable_transform true three_and_two))%Z)
    by (vm_compute; discriminate).
  destruct (iterate_samples_stored_rows
              (set_disable_transform true three_and_two)
              Hp Ha Hl Hb eq_refl) as [H _].
  rewrite H. vm_compute. reflexivity.
Defined.

(* ================================================================= *)
(** ** Termination of the generator *)

Lemma drain_length s batch_size return_x return_y drop_remainder :
  forall fuel g bs,
    drain fuel s batch_size return_x return_y drop_remainder g = Returns bs ->
    length bs < fuel.
Proof.
  induction fuel as [|fuel IH]; intros g bs H; [discriminate|].
  cbn [drain] in H.
  destruct (gen_next _ _ _ _ _ _) as [[[b g']|]|e]; [| |discriminate].
  - destruct (drain fuel _ _ _ _ _ _) as [bs'|e] eqn:Hd; [|discriminate].
    injection H as <-. apply IH in Hd. cbn. lia.
  - injection H as <-. cbn. lia.
Qed.

(** X1.  On a dataset whose shard count does not exceed its lists of shards,
    [iterate_batches] with a batch size of at least one and a requested
    channel comes to its end without raising, after at most one batch
    per stored row. *)
Theorem iterate_batches_terminates :
  forall s batch_size return_x return_y drop_remainder,
    paired s ->
    (1 <= batch_size)%Z ->
    return_x || return_y = true ->
    exists bs,
      iterate_batches s batch_size return_x return_y drop_remainder
      = Returns bs
      /\ length bs <= stored_rows s.
Proof.
  intros s batch_size return_x return_y drop_remainder Hp Hbs Hr.
  destruct (iterate_batches_returns s batch_size return_x return_y
              drop_remainder Hp Hbs Hr) as [bs H].
  exists bs. split; [exact H|].
  unfold iterate_batches in H. apply drain_length in H. lia.
Qed.

Lemma iterate_batches_terminates_witness :
  exists bs,
    iterate_batches three_and_two 2 true true false = Returns bs
    /\ length bs <= stored_rows three_and_two.
Proof.
  apply iterate_batches_terminates.
  - vm_compute. lia.
  - lia.
  - reflexivity.
Defined.

(* ================================================================= *)
(** ** Writing and reading a shard *)

Lemma nth_error_list_update_eq {A : Type} (l : list A) i v :
  i < length l -> nth_error (list_update l i v) i = Some v.
Proof.
  revert i. induction l as [|a l IH]; intros [|i] H; cbn in *; try lia.
  - reflexivity.
  - apply IH. lia.
Qed.

Lemma nth_error_list_update_neq {A : Type} (l : list A) i j v :
  j <> i -> nth_error (list_update l i v) j = nth_error l j.
Proof.
  revert i j. induction l as [|a l IH]; intros [|i] [|j] H; cbn;
    try reflexivity; try congruence.
  apply IH. congruence.
Qed.

Lemma py_setitem_nat {A : Type} (l : list A) (i : nat) v :
  i < length l -> py_setitem l (Z.of_nat i) v = Some (list_update l i v).
Proof.
  intros H. unfold py_setitem.
  destruct (0 <=? Z.of_nat i)%Z eqn:E; [|apply Z.leb_gt in E; lia].
  rewrite Nat2Z.id. apply Nat.ltb_lt in H. now rewrite H.
Qed.

(** X6.  A prediction shard written with [set_shard_y] at an id below the
    shard count is what [get_shard_y] reads there afterwards; the other
    prediction shards, the design shards and the layout are as before.
    The same holds of [set_shard_x] and [get_shard_x]. *)
Theorem set_shard_then_get_shard :
  forall s i,
    paired s ->
    i < get_num_shards s ->
    (forall d, exists s',
        set_shard_y (Z.of_nat i) d s = (Returns tt, s')
        /\ get_shard_y s' (Z.of_nat i) = Returns d
        /\ (forall j, j <> i ->
                      get_shard_y s' (Z.of_nat j) = get_shard_y s (Z.of_nat j))
        /\ (forall j, get_shard_x s' j = get_shard_x s j)
        /\ same_layout s s')
    /\ (forall d, exists s',
        set_shard_x (Z.of_nat i) d s = (Returns tt, s')
        /\ get_shard_x s' (Z.of_nat i) = Returns d
        /\ (forall j, j <> i ->
                      get_shard_x s' (Z.of_nat j) = get_shard_x s (Z.of_nat j))
        /\ (forall j, get_shard_y s' j = get_shard_y s j)
        /\ num_shards s' = num_shards s).
Proof.
  intros s i [Hx Hy] Hi. unfold get_num_shards in Hi. split; intros d.
  - destruct (get_shard_y_paired s i Hi Hy) as (sh & Hsh & _).
    assert (Hlen : i < length (y_shards s)) by lia.
    exists (set_y_shards (list_update (y_shards s) i (shard_store sh d)) s).
    assert (Hset : set_shard_y (Z.of_nat i) d s
                   = (Returns tt,
                      set_y_shards
                        (list_update (y_shards s) i (shard_store sh d)) s)).
    { unfold set_shard_y.
      rewrite (shard_id_accepted s i Hi), py_index_nat, Hsh.
      now rewrite (py_setitem_nat _ _ _ Hlen). }
    split; [exact Hset|]. split; [|split; [|split]].
    + unfold get_shard_y, shard_id_rejected, get_num_shards.
      cbn [num_shards y_shards set_y_shards].
      fold (get_num_shards s). fold (shard_id_rejected s (Z.of_nat i)).
      rewrite (shard_id_accepted s i Hi), py_index_nat.
      rewrite (nth_error_list_update_eq _ _ _ Hlen). now destruct sh.
    + intros j Hj. unfold get_shard_y, shard_id_rejected, get_num_shards.
      cbn [num_shards y_shards set_y_shards].
      rewrite !py_index_nat.
      now rewrite (nth_error_list_update_neq _ _ _ _ Hj).
    + intros j. reflexivity.
    + eapply keeps_layout_set_shard_y. exact Hset.
  - destruct (get_shard_x_paired s i Hi Hx) as (sh & Hsh & _).
    assert (Hlen : i < length (x_shards s)) by lia.
    exists (set_x_shards (list_update (x_shards s) i (shard_store sh d)) s).
    split; [|split; [|split; [|split]]].
    + unfold set_shard_x.
      rewrite (shard_id_accepted s i Hi), py_index_nat, Hsh.
      now rewrite (py_setitem_nat _ _ _ Hlen).
    + unfold get_shard_x, shard_id_rejected, get_num_shards.
      cbn [num_shards x_shards set_x_shards].
      fold (get_num_shards s). fold (shard_id_rejected s (Z.of_nat i)).
      rewrite (shard_id_accepted s i Hi), py_index_nat.
      rewrite (nth_error_list_update_eq _ _ _ Hlen). now destruct sh.
    + intros j Hj. unfold get_shard_x, shard_id_rejected, get_num_shards.
      cbn [num_shards x_shards set_x_shards].
      rewrite !py_index_nat.
      now rewrite (nth_error_list_update_neq _ _ _ _ Hj).
    + intros j. reflexivity.
    + reflexivity.
Qed.

Lemma set_shard_then_get_shard_witness :
  exists s',
    set_shard_y 1 [7%R; 8%R] three_and_two = (Returns tt, s')
    /\ get_shard_y s' 1 = Returns [7%R; 8%R]
    /\ y_shards s' = [InMemory [1%R; 2%R; 3%R];
                      OnDisk "y-1.npy" [7%R; 8%R]].
Proof.
  assert (Hp : paired three_and_two) by (vm_compute; lia).
  assert (Hi : 1 < get_num_shards three_and_two) by (vm_compute; lia).
  destruct (set_shard_then_get_shard three_and_two 1 Hp Hi) as [Hy _].
  destruct (Hy [7%R; 8%R]) as (s' & Hset & Hget & _).
  exists s'. split; [exact Hset|]. split; [exact Hget|].
  assert (E : set_shard_y 1 [7%R; 8%R] three_and_two
              = (Returns tt,
                 set_y_shards [InMemory [1%R; 2%R; 3%R];
                               OnDisk "y-1.npy" [7%R; 8%R]] three_and_two))
    by (vm_compute; reflexivity).
  change (Z.of_nat 1) with 1%Z in Hset. rewrite E in Hset.
  injection Hset as <-. reflexivity.
Defined.

(* ================================================================= *)
(** ** The constructor *)


(* ================================================================= *)
(** ** A failed read of the predictions *)

Lemma prop_y_raises s e :
  stored_predictions s = Raises e ->
  prop_y (set_disable_transform true s)
  = (Raises e, set_disable_transform true s).
Proof.
  unfold stored_predictions. intros H.
  rewrite prop_y_state. now rewrite H.
Qed.

(** X15.  [subsample] with [min_percentile > max_percentile] raises the
    invalid-argument error and leaves the dataset as it was.  When the
    read of [self.y] raises, [subsample], [relabel], [split] and [clone]
    raise what it raised and leave [disable_transform] on: the dataset
    is otherwise unchanged, and from then on it yields every stored row
    unfiltered and unnormalized. *)
Theorem failed_read_leaves_transform_disabled :
  forall (np_percentile : y_array -> Q -> R)
         (rng : Type) (np_random_choice : rng -> nat -> nat -> list nat * rng)
         (rebuild_dataset :
            DatasetBuilder -> list (shard x_array) -> list (shard y_array)
            -> outcome DatasetBuilder)
         s max_percentile min_percentile,
    (freeze_statistics s = false ->
     Qle_bool min_percentile max_percentile = false ->
     subsample np_percentile max_percentile min_percentile s
     = (Raises InvalidArgument, s))
    /\ (forall e,
           stored_predictions s = Raises e ->
           (freeze_statistics s = false ->
            Qle_bool min_percentile max_percentile = true ->
            subsample np_percentile max_percentile min_percentile s
            = (Raises e, set_disable_transform true s))
           /\ (freeze_statistics s = false ->
               forall f, relabel np_percentile f s
                         = (Raises e, set_disable_transform true s))
           /\ (forall g fraction shard_size to_disk disk_target,
                  split rng np_random_choice rebuild_dataset g fraction
                    shard_size to_disk disk_target s
                  = (Raises e, set_disable_transform true s))
           /\ (forall shard_size to_disk disk_target,
                  clone rebuild_dataset shard_size to_disk disk_target s
                  = (Raises e, set_disable_transform true s))).
Proof.
  intros np_percentile rng np_random_choice rebuild_dataset s
    max_percentile min_percentile.
  split.
  - intros Hf Hq. unfold subsample, bind, get. now rewrite Hf, Hq.
  - intros e He. apply prop_y_raises in He.
    split; [|split; [|split]].
    + intros Hf Hq. unfold subsample, bind at 1, get. rewrite Hf, Hq.
      cbn [negb]. unfold bind at 1, assign. unfold bind at 1.
      now rewrite He.
    + intros Hf f. unfold relabel, bind at 1, get. rewrite Hf.
      unfold bind at 1, assign. unfold bind at 1. now rewrite He.
    + intros g fraction shard_size to_disk disk_target.
      unfold split, bind at 1, assign. unfold bind at 1. now rewrite He.
    + intros shard_size to_disk disk_target.
      unfold clone, bind at 1, assign. unfold bind at 1. now rewrite He.
Qed.

Lemma failed_read_leaves_transform_disabled_witness :
  stored_predictions no_shards = Raises NumpyValueError
  /\ clone rebuild_with_init 5000 false "dataset" no_shards
     = (Raises NumpyValueError, set_disable_transform true no_shards)
  /\ subsample least_value 100 0 no_shards
     = (Raises NumpyValueError, set_disable_transform true no_shards).
Proof.
  assert (H : stored_predictions no_shards = Raises NumpyValueError)
    by (vm_compute; reflexivity).
  destruct (failed_read_leaves_transform_disabled least_value unit
              first_positions rebuild_with_init no_shards 100 0)
    as [_ F].
  destruct (F NumpyValueError H) as (Hsub & _ & _ & Hclone).
  split; [exact H|]. split; [apply Hclone|].
  apply Hsub; reflexivity.
Defined.

(* ================================================================= *)
(** ** The properties [x] and [y] *)

Lemma iterate_batches_no_shards s batch_size return_x return_y drop_remainder :
  get_num_shards s = 0 ->
  (1 <= batch_size)%Z ->
  return_x || return_y = true ->
  iterate_batches s batch_size return_x return_y drop_remainder = Returns [].
Proof.
  intros Hn Hb Hr. unfold iterate_batches, stored_rows. rewrite Hn.
  cbn [seq rows_of map list_sum drain gen_next]. rewrite Hn.
  assert (E : (batch_size <? 1)%Z = false) by (apply Z.ltb_ge; lia).
  rewrite E. cbn [orb].
  destruct return_x, return_y; try discriminate; reflexivity.
Qed.

(** X8.  The properties [x] and [y] of a dataset whose shard count does not
    exceed its lists of shards.  Without a shard, both raise the error
    of [np.concatenate] on an empty list.  With the transform disabled,
    paired shards and a last shard that has a row, they are the stored
    designs and the stored predictions, in shard order and row order,
    and the dataset is left as it was. *)
Theorem prop_x_prop_y_outcome :
  forall s,
    paired s ->
    (1 <= internal_batch_size s)%Z ->
    (get_num_shards s = 0 ->
     prop_x s = (Raises NumpyValueError, s)
     /\ prop_y s = (Raises NumpyValueError, s))
    /\ (disable_transform s = true ->
        aligned s true (seq 0 (get_num_shards s)) ->
        0 < get_num_shards s ->
        0 < length (y_data s (get_num_shards s - 1)) ->
        prop_x s
        = (Returns (concat (map (x_data s) (seq 0 (get_num_shards s)))), s)
        /\ prop_y s = (Returns (rows_y s (seq 0 (get_num_shards s))), s)).
Proof.
  intros s Hp Hb. split.
  - intros Hn. unfold prop_x, prop_y, bind, read.
    rewrite (iterate_batches_no_shards s _ true false false Hn Hb eq_refl).
    rewrite (iterate_batches_no_shards s _ false true false Hn Hb eq_refl).
    split; reflexivity.
  - intros Hd Ha Hn Hlast.
    assert (Hx : length (concat (map (x_data s) (seq 0 (get_num_shards s))))
                 = length (rows_y s (seq 0 (get_num_shards s))))
      by now apply aligned_rows.
    assert (Hy : rows_y s (seq 0 (get_num_shards s)) <> []).
    { unfold rows_y. rewrite (seq_last 0 _ Hn), map_app, concat_app.
      cbn [map concat Nat.add]. rewrite app_nil_r.
      destruct (y_data s (get_num_shards s - 1)); [cbn in Hlast; lia|].
      intros E. apply app_eq_nil in E. destruct E. discriminate. }
    split.
    + destruct (iterate_batches_all_rows s (internal_batch_size s) true false
                  Hp Ha (or_intror Hlast) Hb eq_refl) as (bs & H & E).
      unfold emit in E. rewrite Hd in E. unfold concat_batches in E.
      injection E as Ex _. unfold rows_x in Ex.
      unfold prop_x, bind, read. rewrite H. unfold np_concatenate.
      destruct (map fst bs) as [|b l] eqn:Hbs.
      * cbn in Ex. rewrite <- Ex in Hx. cbn in Hx.
        destruct (rows_y s _); [congruence | discriminate].
      * now rewrite Ex.
    + destruct (iterate_batches_all_rows s (internal_batch_size s) false true
                  Hp (fun E => ltac:(discriminate)) (or_intror Hlast) Hb
                  eq_refl) as (bs & H & E).
      unfold emit in E. rewrite Hd in E. unfold concat_batches in E.
      injection E as _ Ey.
      unfold prop_y, bind, read. rewrite H. unfold np_concatenate.
      destruct (map snd bs) as [|b l] eqn:Hbs.
      * cbn in Ey. congruence.
      * now rewrite Ey.
Qed.

Lemma prop_x_prop_y_outcome_witness :
  prop_y (set_disable_transform true three_and_two)
  = (Returns [1%R; 2%R; 3%R; 4%R; 5%R], set_disable_transform true three_and_two)
  /\ prop_x no_shards = (Raises NumpyValueError, no_shards).
Proof.
  split.
  - destruct (prop_x_prop_y_outcome (set_disable_transform true three_and_two))
      as [_ H].
    + vm_compute. lia.
    + vm_compute. discriminate.
    + destruct H as [_ H].
      * reflexivity.
      * intros _. vm_compute. repeat constructor.
      * vm_compute. lia.
      * vm_compute. lia.
      * rewrite H. f_equal.
  - destruct (prop_x_prop_y_outcome no_shards) as [H _].
    + vm_compute. lia.
    + vm_compute. discriminate.
    + apply H. reflexivity.
Defined.

Lemma iterate_batches_stored_rows_witness :
  exists bs,
    iterate_batches (set_disable_transform true thresholds_2_3) 3
      true true false = Returns bs
    /\ concat (map snd bs) = [1%R; 2%R; 3%R; 4%R].
Proof.
  destruct (iterate_batches_stored_rows
              (set_disable_transform true thresholds_2_3) 3)
    as (bs & H & _ & Hy).
  - vm_compute. lia.
  - intros _. vm_compute. repeat constructor.
  - right. vm_compute. lia.
  - lia.
  - reflexivity.
  - exists bs. split; [exact H|]. rewrite Hy. vm_compute. reflexivity.
Defined.

(* ================================================================= *)
(** ** What the streaming statistics compute *)

Lemma np_sum_from (l : list R) (a : R) :
  fold_left Rplus l a = (a + np_sum l)%R.
Proof.
  unfold np_sum. revert a. induction l as [|v l IH]; intros a; cbn.
  - lra.
  - rewrite IH, (IH (0 + v)%R). lra.
Qed.

Lemma np_sum_app (a b : list R) : np_sum (a ++ b) = (np_sum a + np_sum b)%R.
Proof.
  unfold np_sum at 1. rewrite fold_left_app.
  fold (np_sum a). apply np_sum_from.
Qed.

(** Past its first row the running mean is the sum of the rows read
    over their number. *)
Lemma y_mean_fold batches :
  forall k m,
    0 < k ->
    fold_left y_mean_step batches (INR k, m)
    = (INR (k + length (concat batches)),
       ((m * INR k + np_sum (concat batches))
        / INR (k + length (concat batches)))%R).
Proof.
  induction batches as [|b batches IH]; intros k m Hk.
  - cbn [fold_left concat length]. rewrite Nat.add_0_r.
    assert (INR k <> 0%R) by (apply not_0_INR; lia).
    f_equal. unfold np_sum. cbn. field. assumption.
  - cbn [fold_left concat]. unfold y_mean_step at 2.
    rewrite <- plus_INR.
    rewrite (IH (k + length b)) by lia.
    rewrite length_app, np_sum_app, Nat.add_assoc.
    assert (INR (k + length b) <> 0%R) by (apply not_0_INR; lia).
    assert (INR (k + length b + length (concat batches)) <> 0%R)
      by (apply not_0_INR; lia).
    f_equal. field. split; assumption.
Qed.

Lemma running_y_mean_mean b batches :
  b <> [] -> running_y_mean (b :: batches) = mean (concat (b :: batches)).
Proof.
  intros Hb. unfold running_y_mean. cbn [fold_left concat].
  assert (Hk : 0 < length b) by (destruct b; [congruence | cbn; lia]).
  assert (E : y_mean_step (0%R, 0%R) b
              = (INR (length b), (np_sum b / INR (length b))%R)).
  { unfold y_mean_step. rewrite !Rplus_0_l. f_equal.
    assert (INR (length b) <> 0%R) by (apply not_0_INR; lia).
    field. assumption. }
  rewrite E, (y_mean_fold batches _ _ Hk). cbn [snd].
  unfold mean. rewrite length_app, np_sum_app.
  assert (INR (length b) <> 0%R) by (apply not_0_INR; lia).
  f_equal. field. assumption.
Qed.

Lemma y_variance_fold m batches :
  forall acc,
    fold_left (y_variance_step m) batches acc
    = fold_left y_mean_step
        (map (map (fun v => ((v - m) * (v - m))%R)) batches) acc.
Proof.
  induction batches as [|b batches IH]; intros acc; [reflexivity|].
  cbn [fold_left map]. rewrite IH. f_equal.
  destruct acc as [samples variance].
  unfold y_variance_step, y_mean_step. now rewrite length_map.
Qed.

Lemma running_y_variance_deviation m b batches :
  b <> [] ->
  running_y_variance m (b :: batches)
  = mean_square_deviation m (concat (b :: batches)).
Proof.
  intros Hb. unfold running_y_variance. rewrite y_variance_fold.
  fold (running_y_mean
          (map (map (fun v => ((v - m) * (v - m))%R)) (b :: batches))).
  cbn [map]. rewrite running_y_mean_mean.
  - unfold mean_square_deviation. f_equal.
    change (map (fun v : R => ((v - m) * (v - m))%R) b
            :: map (map (fun v : R => ((v - m) * (v - m))%R)) batches)
      with (map (map (fun v : R => ((v - m) * (v - m))%R)) (b :: batches)).
    now rewrite concat_map.
  - destruct b; [congruence | discriminate].
Qed.

(** X9.  When the pass over the predictions starts with a batch that has a
    row, [update_y_statistics] caches the arithmetic mean of the
    predictions the generator yields with normalization off, and the
    square root of their mean squared deviation from that mean, with 1
    in place of a zero. *)
Theorem update_y_statistics_mean_and_deviation :
  forall s b batches,
    freeze_statistics s = false ->
    iterate_batches (set_is_normalized_y false s) (internal_batch_size s)
      false true false = Returns (b :: batches) ->
    snd b <> [] ->
    update_y_statistics s
    = (Returns tt,
       set_y_standard_dev
         (Some (zero_to_one
                  (sqrt (mean_square_deviation
                           (mean (concat (map snd (b :: batches))))
                           (concat (map snd (b :: batches)))))))
         (set_y_mean (Some (mean (concat (map snd (b :: batches))))) s)).
Proof.
  intros s b batches Hf H Hb.
  rewrite (update_y_statistics_unfrozen s Hf), H. cbv zeta.
  unfold protected_y_standard_dev. cbn [map].
  rewrite (running_y_mean_mean _ _ Hb).
  now rewrite (running_y_variance_deviation _ _ _ Hb).
Qed.

Lemma update_y_statistics_mean_and_deviation_witness :
  y_mean (snd (update_y_statistics four_rows))
  = Some (mean [1%R; 2%R; 3%R; 4%R])
  /\ y_standard_dev (snd (update_y_statistics four_rows))
     = Some (zero_to_one
               (sqrt (mean_square_deviation (mean [1%R; 2%R; 3%R; 4%R])
                        [1%R; 2%R; 3%R; 4%R]))).
Proof.
  assert (H : iterate_batches (set_is_normalized_y false four_rows)
                (internal_batch_size four_rows) false true false
              = Returns [([], [1%R; 2%R]); ([], [3%R; 4%R])])
    by (vm_compute; reflexivity).
  assert (Hb : snd (@pair x_array y_array [] [1%R; 2%R]) <> [])
    by discriminate.
  rewrite (update_y_statistics_mean_and_deviation four_rows _ _
             eq_refl H Hb).
  split; reflexivity.
Defined.

(* ================================================================= *)
(** ** The statistics of the designs, feature by feature *)

Lemma nth_map_lt (f : R -> R) (w : list R) j :
  j < length w -> nth j (map f w) 0%R = f (nth j w 0%R).
Proof.
  intros H. rewrite (nth_indep _ 0%R (f 0%R)) by now rewrite length_map.
  apply map_nth.
Qed.

Lemma zip_with_length {A B C : Type} (f : A -> B -> C) u w :
  length (zip_with f u w) = Nat.min (length u) (length w).
Proof.
  revert w. induction u as [|a u IH]; intros [|b w]; cbn; try reflexivity.
  now rewrite IH.
Qed.

Lemma nth_zip_with (f : R -> R -> R) u w j :
  j < length u -> j < length w ->
  nth j (zip_with f u w) 0%R = f (nth j u 0%R) (nth j w 0%R).
Proof.
  revert w j. induction u as [|a u IH]; intros [|b w] [|j] Hu Hw;
    cbn in *; try lia; try reflexivity.
  apply IH; lia.
Qed.

Lemma wide_bcast f d a b : wide d a -> wide d b -> wide d (bcast f a b).
Proof.
  destruct a as [c|u], b as [c'|w]; cbn; intros Ha Hb;
    rewrite ?length_map, ?zip_with_length; try exact I; lia.
Qed.

Lemma entry_bcast f d a b j :
  wide d a -> wide d b -> j < d ->
  entry j (bcast f a b) = f (entry j a) (entry j b).
Proof.
  destruct a as [c|u], b as [c'|w]; cbn; intros Ha Hb Hj.
  - reflexivity.
  - apply (nth_map_lt (fun v => f c v)). lia.
  - apply (nth_map_lt (fun v => f v c')). lia.
  - apply nth_zip_with; lia.
Qed.

Lemma wide_nd_map f d a : wide d a -> wide d (nd_map f a).
Proof. destruct a; cbn; [trivial | now rewrite length_map]. Qed.

Lemma entry_nd_map f d a j :
  wide d a -> j < d -> entry j (nd_map f a) = f (entry j a).
Proof.
  destruct a as [c|w]; cbn; intros Ha Hj; [reflexivity|].
  apply nth_map_lt. lia.
Qed.

Lemma is_row_bcast_l f a b : is_row a -> is_row (bcast f a b).
Proof. destruct a, b; cbn; tauto. Qed.

Lemma is_row_bcast_r f a b : is_row b -> is_row (bcast f a b).
Proof. destruct a, b; cbn; tauto. Qed.

Lemma is_row_nd_map f a : is_row a -> is_row (nd_map f a).
Proof. destruct a; cbn; tauto. Qed.

Section Columns.

Variable d : nat.

Lemma sum_rows_wide (batch : x_array) :
  forall acc,
    wide d acc ->
    Forall (fun row => length row = d) batch ->
    wide d (fold_left (fun acc row => bcast Rplus acc (Vec row)) batch acc)
    /\ (is_row acc \/ batch <> [] ->
        is_row (fold_left (fun acc row => bcast Rplus acc (Vec row))
                  batch acc)).
Proof.
  induction batch as [|row batch IH]; intros acc Hacc Hw.
  - cbn. split; [exact Hacc|]. intros [H|H]; [exact H | congruence].
  - inversion Hw as [|? ? Hrow Hw']; subst. cbn [fold_left].
    assert (Hvec : wide (length row) (Vec row)) by reflexivity.
    destruct (IH (bcast Rplus acc (Vec row))
                (wide_bcast _ _ _ _ Hacc Hvec) Hw') as (W & V).
    split; [exact W|]. intros _. apply V. left. now apply is_row_bcast_r.
Qed.

Lemma x_mean_step_wide samples m (batch : x_array) :
  wide d m ->
  Forall (fun row => length row = d) batch ->
  wide d (snd (x_mean_step (samples, m) batch))
  /\ (is_row m \/ batch <> [] ->
      is_row (snd (x_mean_step (samples, m) batch))).
Proof.
  intros Hm Hw.
  destruct (sum_rows_wide batch (Scalar 0%R) I Hw) as (W & V).
  fold (np_sum_rows batch) in W, V.
  unfold x_mean_step. cbn [snd]. split.
  - apply wide_bcast; apply wide_nd_map; assumption.
  - intros [H|H].
    + apply is_row_bcast_l. now apply is_row_nd_map.
    + apply is_row_bcast_r. apply is_row_nd_map. apply V. now right.
Qed.

Lemma x_mean_fold_wide (batches : list x_array) :
  forall samples m,
    wide d m ->
    Forall (Forall (fun row => length row = d)) batches ->
    wide d (snd (fold_left x_mean_step batches (samples, m)))
    /\ (is_row m -> is_row (snd (fold_left x_mean_step batches (samples, m)))).
Proof.
  induction batches as [|b batches IH]; intros samples m Hm Hw.
  - cbn. split; auto.
  - inversion Hw as [|? ? Hb Hw']; subst. cbn [fold_left].
    destruct (x_mean_step_wide samples m b Hm Hb) as (W & V).
    destruct (x_mean_step (samples, m) b) as [samples' m'].
    cbn [snd] in *.
    destruct (IH samples' m' W Hw') as (W' & V').
    split; [exact W'|]. intros H. apply V', V. now left.
Qed.

Variable j : nat.
Hypothesis Hj : j < d.

Lemma sum_rows_entry (batch : x_array) :
  forall acc,
    wide d acc ->
    Forall (fun row => length row = d) batch ->
    entry j (fold_left (fun acc row => bcast Rplus acc (Vec row)) batch acc)
    = fold_left Rplus (column j batch) (entry j acc).
Proof.
  induction batch as [|row batch IH]; intros acc Hacc Hw; [reflexivity|].
  inversion Hw as [|? ? Hrow Hw']; subst.
  cbn [fold_left column map].
  assert (Hvec : wide (length row) (Vec row)) by reflexivity.
  rewrite (IH _ (wide_bcast _ _ _ _ Hacc Hvec) Hw').
  now rewrite (entry_bcast Rplus (length row) acc (Vec row) j Hacc Hvec Hj).
Qed.

(** A step of the running mean of the designs is, in every feature,
    the step of the running mean of that feature. *)
Lemma x_mean_step_entry samples m (batch : x_array) :
  wide d m ->
  Forall (fun row => length row = d) batch ->
  fst (x_mean_step (samples, m) batch)
  = fst (y_mean_step (samples, entry j m) (column j batch))
  /\ entry j (snd (x_mean_step (samples, m) batch))
     = snd (y_mean_step (samples, entry j m) (column j batch)).
Proof.
  intros Hm Hw.
  destruct (sum_rows_wide batch (Scalar 0%R) I Hw) as (W & _).
  pose proof (sum_rows_entry batch (Scalar 0%R) I Hw) as E.
  fold (np_sum_rows batch) in W, E.
  unfold x_mean_step, y_mean_step, column. cbn [fst snd].
  rewrite length_map. split; [reflexivity|].
  rewrite (entry_bcast Rplus d) by
    (try apply wide_nd_map; assumption).
  rewrite !(entry_nd_map _ d) by assumption.
  now rewrite E.
Qed.

Lemma x_mean_fold_entry (batches : list x_array) :
  forall samples m,
    wide d m ->
    Forall (Forall (fun row => length row = d)) batches ->
    fst (fold_left x_mean_step batches (samples, m))
    = fst (fold_left y_mean_step (map (column j) batches)
             (samples, entry j m))
    /\ entry j (snd (fold_left x_mean_step batches (samples, m)))
       = snd (fold_left y_mean_step (map (column j) batches)
                (samples, entry j m)).
Proof.
  induction batches as [|b batches IH]; intros samples m Hm Hw.
  - cbn. split; reflexivity.
  - inversion Hw as [|? ? Hb Hw']; subst.
    cbn [fold_left map].
    destruct (x_mean_step_entry samples m b Hm Hb) as (E1 & E2).
    destruct (x_mean_step_wide samples m b Hm Hb) as (W & _).
    destruct (x_mean_step (samples, m) b) as [samples' m'].
    destruct (y_mean_step (samples, entry j m) (column j b))
      as [ysamples ym].
    cbn [fst snd] in *. subst ysamples ym.
    now apply IH.
Qed.

End Columns.

Lemma column_concat j (batches : list x_array) :
  concat (map (column j) batches) = column j (concat batches).
Proof. unfold column. now rewrite concat_map. Qed.

Lemma vec_by_entries d a (g : nat -> R) :
  is_row a -> wide d a -> (forall j, j < d -> entry j a = g j) ->
  a = Vec (map g (seq 0 d)).
Proof.
  destruct a as [c|w]; cbn; intros V W E; [destruct V|].
  f_equal. apply (nth_ext _ _ 0%R (g 0)).
  - now rewrite length_map, length_seq.
  - intros j Hj. rewrite W in Hj.
    rewrite (map_nth g), seq_nth by lia. now apply E.
Qed.

(** The running mean of the designs over batches of rows of [d]
    features, the first batch with a row, is the row of the arithmetic
    means of the features. *)
Lemma running_x_mean_columns d (b : x_array) (batches : list x_array) :
  b <> [] ->
  Forall (Forall (fun row => length row = d)) (b :: batches) ->
  running_x_mean (b :: batches)
  = Vec (map (fun j => mean (column j (concat (b :: batches)))) (seq 0 d)).
Proof.
  intros Hb Hw. unfold running_x_mean.
  assert (S0 : wide d (Scalar 0%R)) by exact I.
  apply vec_by_entries.
  - inversion Hw as [|? ? Hwb Hw']; subst. cbn [fold_left].
    destruct (x_mean_step_wide d 0%R (Scalar 0%R) b S0 Hwb) as (W & V).
    destruct (x_mean_step (0%R, Scalar 0%R) b) as [samples m].
    cbn [snd] in *.
    apply (x_mean_fold_wide d batches samples m W Hw'). apply V. now right.
  - now apply (x_mean_fold_wide d (b :: batches) 0%R (Scalar 0%R) S0 Hw).
  - intros j Hj.
    destruct (x_mean_fold_entry d j Hj (b :: batches) 0%R (Scalar 0%R)
                S0 Hw) as (_ & E).
    rewrite E. cbn [entry].
    fold (running_y_mean (map (column j) (b :: batches))).
    cbn [map]. rewrite running_y_mean_mean.
    + change (column j b :: map (column j) batches)
        with (map (column j) (b :: batches)).
      now rewrite column_concat.
    + destruct b; [congruence | discriminate].
Qed.

Lemma x_variance_fold x_mean (batches : list x_array) :
  forall acc,
    fold_left (x_variance_step x_mean) batches acc
    = fold_left x_mean_step (map (squared_deviations x_mean) batches) acc.
Proof.
  induction batches as [|b batches IH]; intros acc; [reflexivity|].
  cbn [fold_left map]. rewrite IH. f_equal.
  destruct acc as [samples variance].
  unfold x_variance_step, x_mean_step, squared_deviations.
  now rewrite length_map.
Qed.

Lemma squared_deviations_wide d m (batch : x_array) :
  length m = d ->
  Forall (fun row => length row = d) batch ->
  Forall (fun row => length row = d) (squared_deviations (Vec m) batch).
Proof.
  intros Hm Hw. unfold squared_deviations. apply Forall_map.
  eapply Forall_impl; [|exact Hw]. cbv beta. intros row Hrow.
  cbn [row_op]. rewrite length_map, zip_with_length. lia.
Qed.

Lemma squared_deviations_column d m (batch : x_array) j :
  length m = d -> j < d ->
  Forall (fun row => length row = d) batch ->
  column j (squared_deviations (Vec m) batch)
  = map (fun v => ((v - nth j m 0) * (v - nth j m 0))%R) (column j batch).
Proof.
  intros Hm Hj Hw. unfold column, squared_deviations. rewrite !map_map.
  apply map_ext_in. intros row Hin.
  rewrite Forall_forall in Hw. specialize (Hw row Hin).
  cbn [row_op].
  rewrite (nth_map_lt (fun v => (v * v)%R))
    by (rewrite zip_with_length; lia).
  now rewrite nth_zip_with by lia.
Qed.

Lemma squared_deviations_concat m (batches : list x_array) :
  concat (map (squared_deviations m) batches)
  = squared_deviations m (concat batches).
Proof. unfold squared_deviations. now rewrite concat_map. Qed.

Lemma running_x_variance_columns d m (b : x_array)
  (batches : list x_array) :
  b <> [] -> length m = d ->
  Forall (Forall (fun row => length row = d)) (b :: batches) ->
  running_x_variance (Vec m) (b :: batches)
  = Vec (map (fun j => mean_square_deviation (nth j m 0%R)
                         (column j (concat (b :: batches)))) (seq 0 d)).
Proof.
  intros Hb Hm Hw. unfold running_x_variance. rewrite x_variance_fold.
  fold (running_x_mean (map (squared_deviations (Vec m)) (b :: batches))).
  cbn [map]. rewrite (running_x_mean_columns d).
  - f_equal. apply map_ext_in. intros j Hin. apply in_seq in Hin.
    unfold mean_square_deviation. f_equal.
    change (squared_deviations (Vec m) b
            :: map (squared_deviations (Vec m)) batches)
      with (map (squared_deviations (Vec m)) (b :: batches)).
    rewrite squared_deviations_concat.
    apply (squared_deviations_column d); [exact Hm | lia |].
    now apply Forall_concat.
  - destruct b; [congruence | discriminate].
  - change (squared_deviations (Vec m) b
            :: map (squared_deviations (Vec m)) batches)
      with (map (squared_deviations (Vec m)) (b :: batches)).
    apply Forall_map. eapply Forall_impl; [|exact Hw].
    intros batch. now apply squared_deviations_wide.
Qed.

(** X10.  When the pass over the designs starts with a batch that has a
    row and every design has [d] features, [update_x_statistics] caches,
    feature by feature, the arithmetic mean of the designs the
    generator yields with normalization off, and the square root of
    their mean squared deviation from that mean, with 1 in place of a
    zero. *)
Theorem update_x_statistics_mean_and_deviation :
  forall s d b batches,
    freeze_statistics s = false ->
    iterate_batches (set_is_normalized_x false s) (internal_batch_size s)
      true false false = Returns (b :: batches) ->
    fst b <> [] ->
    Forall (fun row => length row = d) (concat (map fst (b :: batches))) ->
    update_x_statistics s
    = (Returns tt,
       set_x_standard_dev
         (Some (Vec (map (fun j =>
                            zero_to_one
                              (sqrt (mean_square_deviation
                                       (mean (column j
                                                (concat (map fst
                                                           (b :: batches)))))
                                       (column j
                                          (concat (map fst
                                                     (b :: batches)))))))
                       (seq 0 d))))
         (set_x_mean
            (Some (Vec (map (fun j =>
                               mean (column j
                                       (concat (map fst (b :: batches)))))
                          (seq 0 d)))) s)).
Proof.
  intros s d b batches Hf H Hb Hw.
  apply Forall_concat in Hw.
  rewrite (update_x_statistics_unfrozen s Hf), H. cbv zeta.
  unfold protected_x_standard_dev. cbn [map] in *.
  rewrite (running_x_mean_columns d _ _ Hb Hw).
  rewrite (running_x_variance_columns d _ _ _ Hb) by
    (try exact Hw; now rewrite length_map, length_seq).
  cbn [nd_map]. rewrite !map_map.
  do 4 f_equal. apply map_ext_in. intros j Hin. apply in_seq in Hin.
  do 3 f_equal.
  rewrite (nth_indep _ 0%R (mean (column 0 (concat (fst b :: map fst batches)))))
    by (rewrite length_map, length_seq; lia).
  rewrite (map_nth (fun j => mean (column j (concat (fst b :: map fst batches))))).
  now rewrite seq_nth by lia.
Qed.

Lemma update_x_statistics_mean_and_deviation_witness :
  x_mean (snd (update_x_statistics four_rows))
  = Some (Vec (map (fun j => mean (column j [[1%R]; [2%R]; [3%R]; [4%R]]))
                 (seq 0 1))).
Proof.
  assert (H : iterate_batches (set_is_normalized_x false four_rows)
                (internal_batch_size four_rows) true false false
              = Returns [([[1%R]; [2%R]], []); ([[3%R]; [4%R]], [])])
    by (vm_compute; reflexivity).
  assert (Hb : fst (@pair x_array y_array [[1%R]; [2%R]] []) <> [])
    by discriminate.
  rewrite (update_x_statistics_mean_and_deviation four_rows 1 _ _
             eq_refl H Hb).
  - reflexivity.
  - repeat constructor.
Defined.

(* ================================================================= *)
(** ** Switching normalization on and off *)





(* ================================================================= *)
(** ** Statistics on first use *)



(* ================================================================= *)
(** ** The same for the designs *)







(* ================================================================= *)
(** ** The validation ids of [split] *)

Lemma np_where_in mask :
  forall from i,
    In i (np_where mask from) ->
    from <= i /\ nth_error mask (i - from) = Some true.
Proof.
  induction mask as [|b mask IH]; intros from i H; [destruct H|].
  cbn [np_where] in H.
  assert (Hrec : In i (np_where mask (S from)) ->
                 from <= i /\ nth_error (b :: mask) (i - from) = Some true).
  { intros Hin. apply IH in Hin. destruct Hin as [Hle Hn].
    split; [lia|]. replace (i - from) with (S (i - S from)) by lia.
    exact Hn. }
  destruct b; [|auto].
  destruct H as [<-|H]; [|auto].
  split; [lia|]. now rewrite Nat.sub_diag.
Qed.

Lemma sample_ids_drawn (rng : Type)
  (np_random_choice : rng -> nat -> nat -> list nat * rng)
  g fraction candidates ids g' :
  (forall g n k, k <= n ->
                 Forall (fun p => p < n) (fst (np_random_choice g n k))) ->
  sample_ids rng np_random_choice g fraction candidates = Returns (ids, g') ->
  Forall (fun id => In id candidates) ids.
Proof.
  intros Hchoice H. unfold sample_ids, random_choice in H.
  destruct (_ || _) eqn:E; [discriminate|].
  apply orb_false_iff in E. destruct E as [E1 E2].
  apply Z.ltb_ge in E1, E2.
  specialize (Hchoice g (length candidates)
                (Z.to_nat (py_int (fraction
                                   * inject_Z (Z.of_nat (length candidates)))))
                ltac:(lia)).
  destruct (np_random_choice _ _ _) as [positions g0].
  injection H as <- <-. cbn [fst] in Hchoice.
  apply Forall_map. eapply Forall_impl; [|exact Hchoice].
  intros p Hp. now apply nth_In.
Qed.

(** X17.  When [np.random.choice] keeps to its contract (positions below the
    size of the population) and the thresholds of the dataset are in
    order, the second group of candidates of [split] is empty and every
    validation id is the position of a prediction within the
    thresholds: no row hidden by [subsample] is placed in the
    validation set. *)
Theorem split_validates_visible_rows :
  forall (rng : Type) (np_random_choice : rng -> nat -> nat -> list nat * rng)
         g s fraction original_y ids,
    (forall g n k, k <= n ->
                   Forall (fun p => p < n) (fst (np_random_choice g n k))) ->
    bound_ordered (dataset_min_output s) (dataset_max_output s) ->
    validation_ids rng np_random_choice g s fraction original_y
    = Returns ids ->
    hidden_candidates s original_y = []
    /\ Forall (fun id => exists y, nth_error original_y id = Some y
                                   /\ in_range s y = true) ids.
Proof.
  intros rng np_random_choice g s fraction original_y ids Hchoice Hord H.
  pose proof (hidden_candidates_nil s original_y Hord) as Hh.
  split; [exact Hh|].
  unfold validation_ids in H. rewrite Hh in H.
  destruct (sample_ids _ _ g _ _) as [[active g']|] eqn:Ea; [|discriminate].
  destruct (sample_ids _ _ g' _ _) as [[hidden g'']|] eqn:Eh; [|discriminate].
  injection H as <-.
  apply (sample_ids_drawn _ _ _ _ _ _ _ Hchoice) in Ea, Eh.
  apply Forall_app. split.
  - eapply Forall_impl; [|exact Ea]. cbv beta. intros id Hin.
    unfold active_candidates in Hin. apply np_where_in in Hin.
    destruct Hin as [_ Hn]. rewrite Nat.sub_0_r in Hn.
    rewrite nth_error_map in Hn.
    destruct (nth_error original_y id) as [y|]; [|discriminate].
    exists y. split; [reflexivity|].
    cbn in Hn. injection Hn as Hn. unfold in_range.
    now rewrite andb_comm.
  - eapply Forall_impl; [|exact Eh]. intros id [].
Qed.

Lemma split_validates_visible_rows_witness :
  Forall (fun id => exists y, nth_error [1%R; 2%R; 3%R; 4%R] id = Some y
                              /\ in_range thresholds_2_3 y = true) [1].
Proof.
  refine (proj2 (split_validates_visible_rows unit first_positions tt
                   thresholds_2_3 (1 # 2) [1%R; 2%R; 3%R; 4%R] [1] _ _ _)).
  - intros g n k Hk. cbn [first_positions fst].
    apply Forall_forall. intros p Hp. apply in_seq in Hp. lia.
  - cbn. lra.
  - unfold validation_ids, sample_ids, active_candidates, hidden_candidates,
      thresholds_2_3.
    cbn [dataset_min_output dataset_max_output set_dataset_size
         set_max_output set_min_output map].
    unfold ge_bound, le_bound, bound_gt, bound_lt, Rleb, Rltb.
    decide_reals. vm_compute. reflexivity.
Defined.

(* ================================================================= *)
(** ** The shards written by [split] and [clone] *)

Lemma pick_map {A B : Type} (f : A -> B) keep from (a : list A) :
  map f (pick keep from a) = pick keep from (map f a).
Proof.
  revert from. induction a as [|r a IH]; intros from; [reflexivity|].
  cbn. destruct (keep from); cbn; now rewrite IH.
Qed.

Lemma pick_all {A : Type} from (a : list A) :
  pick (fun _ => true) from a = a.
Proof.
  revert from. induction a as [|r a IH]; intros from; [reflexivity|].
  cbn. now rewrite IH.
Qed.




Section SplitLoop.

Variable size : nat.
Variable ids : list nat.
Variable shard_size : nat.
Variable to_disk : bool.
Variable disk_target : string.
Hypothesis Hsize : 1 <= shard_size.


End SplitLoop.



(** What [self.y] and [self.iterate_samples()] give the loops of
    [split] and [clone], which run with the transform disabled. *)
Lemma stored_samples s :
  paired s ->
  aligned s true (seq 0 (get_num_shards s)) ->
  0 < get_num_shards s ->
  0 < length (y_data s (get_num_shards s - 1)) ->
  (1 <= internal_batch_size s)%Z ->
  let X := concat (map (x_data s) (seq 0 (get_num_shards s))) in
  let Y := rows_y s (seq 0 (get_num_shards s)) in
  prop_y (set_disable_transform true s)
  = (Returns Y, set_disable_transform true s)
  /\ iterate_samples (set_disable_transform true s) true true
     = Returns (zip_rows X Y)
  /\ length X = length Y
  /\ Y <> [].
Proof.
  intros Hp Ha Hn Hlast Hb X Y.
  pose proof (stored_predictions_all_rows s Hp Hn Hlast Hb) as Hy.
  unfold stored_predictions in Hy.
  split; [rewrite prop_y_state; now rewrite Hy|].
  split; [|split].
  - rewrite (iterate_samples_emitted (set_disable_transform true s)).
    + reflexivity.
    + exact Hp.
    + exact Ha.
    + right. exact Hlast.
    + exact Hb.
  - now apply aligned_rows.
  - unfold Y, rows_y. rewrite (seq_last 0 _ Hn), map_app, concat_app.
    cbn [map concat Nat.add]. rewrite app_nil_r.
    destruct (y_data s (get_num_shards s - 1)); [cbn in Hlast; lia|].
    intros E. apply app_eq_nil in E. destruct E. discriminate.
Qed.

Lemma three_and_two_paired : paired three_and_two.
Proof. vm_compute. lia. Qed.

Lemma three_and_two_aligned :
  aligned three_and_two true (seq 0 (get_num_shards three_and_two)).
Proof. intros _. vm_compute. repeat constructor. Qed.







(* ================================================================= *)
(** ** A dataset built over given shards *)

Lemma init_fields xs ys b s :
  init xs ys b = Returns s ->
  x_shards s = xs /\ y_shards s = ys
  /\ num_shards s = Nat.min (length xs) (length ys)
  /\ internal_batch_size s = b
  /\ dataset_min_output s = NINF /\ dataset_max_output s = PINF
  /\ is_normalized_x s = false /\ is_normalized_y s = false
  /\ disable_transform s = false.
Proof.
  intros H. unfold init in H.
  destruct (iterate_samples _ true false) as [samples|]; [|discriminate].
  destruct (iterate_samples _ false true) as [predictions|];
    [|discriminate].
  injection H as <-.
  destruct samples as [|[x ?] samples]; cbn;
    (repeat split; try reflexivity; rewrite length_combine; reflexivity).
Qed.

Lemma nth_shard_data {A : Type} (l : list (shard (list A))) :
  map (fun i => match nth_error l i with
                | Some sh => shard_data sh
                | None => []
                end) (seq 0 (length l))
  = map shard_data l.
Proof.
  induction l as [|sh l IH]; [reflexivity|].
  cbn [length seq map nth_error]. f_equal.
  rewrite <- seq_shift, map_map. exact IH.
Qed.

Lemma x_data_nth s sid :
  sid < num_shards s ->
  x_data s sid = match nth_error (x_shards s) sid with
                 | Some sh => shard_data sh
                 | None => []
                 end.
Proof.
  intros H. unfold x_data, get_shard_x.
  rewrite (shard_id_accepted s sid H), py_index_nat.
  now destruct (nth_error (x_shards s) sid) as [[|]|].
Qed.

Lemma y_data_nth s sid :
  sid < num_shards s ->
  y_data s sid = match nth_error (y_shards s) sid with
                 | Some sh => shard_data sh
                 | None => []
                 end.
Proof.
  intros H. unfold y_data, get_shard_y.
  rewrite (shard_id_accepted s sid H), py_index_nat.
  now destruct (nth_error (y_shards s) sid) as [[|]|].
Qed.

Lemma x_data_all s :
  num_shards s = length (x_shards s) ->
  map (x_data s) (seq 0 (get_num_shards s)) = map shard_data (x_shards s).
Proof.
  intros H. unfold get_num_shards.
  transitivity (map (fun i => match nth_error (x_shards s) i with
                              | Some sh => shard_data sh
                              | None => []
                              end) (seq 0 (num_shards s))).
  - apply map_ext_in. intros sid Hin. apply in_seq in Hin.
    apply x_data_nth. lia.
  - rewrite H. apply nth_shard_data.
Qed.

Lemma y_data_all s :
  num_shards s = length (y_shards s) ->
  map (y_data s) (seq 0 (get_num_shards s)) = map shard_data (y_shards s).
Proof.
  intros H. unfold get_num_shards.
  transitivity (map (fun i => match nth_error (y_shards s) i with
                              | Some sh => shard_data sh
                              | None => []
                              end) (seq 0 (num_shards s))).
  - apply map_ext_in. intros sid Hin. apply in_seq in Hin.
    apply y_data_nth. lia.
  - rewrite H. apply nth_shard_data.
Qed.

Lemma select_all_rows {A B : Type} (f : B -> bool) (x : list A) (y : list B) :
  (forall v, f v = true) -> length x = length y -> select (map f y) x = x.
Proof.
  intros Hf. revert y. induction x as [|r x IH]; intros [|v y] H;
    cbn in *; try discriminate; try reflexivity.
  injection H as H. rewrite Hf. now rewrite IH.
Qed.

(** On a dataset as the constructor leaves it nothing is filtered or
    normalized. *)
Lemma emit_fresh s x y :
  dataset_min_output s = NINF -> dataset_max_output s = PINF ->
  is_normalized_x s = false -> is_normalized_y s = false ->
  length x = length y ->
  emit s true true x y = (x, y).
Proof.
  intros Hlo Hhi Hnx Hny Hlen. unfold emit.
  destruct (disable_transform s); [reflexivity|].
  unfold batch_transform. rewrite Hnx, Hny. cbn [andb].
  assert (Hall : forall v, in_range s v = true).
  { intros v. unfold in_range. now rewrite Hlo, Hhi. }
  now rewrite (select_all_rows _ _ _ Hall Hlen), (select_all _ _ Hall).
Qed.

Lemma lengths_nth {A B : Type} (xs : list (shard (list A)))
  (ys : list (shard (list B))) sid :
  shard_lengths xs = shard_lengths ys ->
  length (match nth_error xs sid with
          | Some sh => shard_data sh
          | None => []
          end)
  = length (match nth_error ys sid with
            | Some sh => shard_data sh
            | None => []
            end).
Proof.
  unfold shard_lengths. revert ys sid.
  induction xs as [|sx xs IH]; intros [|sy ys] [|sid] H; cbn in *;
    try discriminate; try reflexivity.
  - now injection H.
  - injection H as _ H. now apply IH.
Qed.

(** The constructor over shards that pair up row for row, each with a
    row: the dataset iterates to the rows of the shards, in order. *)
Lemma init_iterates_shards xs ys b batch_size :
  (1 <= b)%Z ->
  (1 <= batch_size)%Z ->
  shard_lengths xs = shard_lengths ys ->
  Forall (fun n => 1 <= n) (shard_lengths ys) ->
  exists d bs,
    init xs ys b = Returns d
    /\ iterate_batches d batch_size true true false = Returns bs
    /\ concat (map fst bs) = concat (map shard_data xs)
    /\ concat (map snd bs) = concat (map shard_data ys)
    /\ (ys <> [] -> dataset_size d = length (concat (map shard_data ys))).
Proof.
  intros Hb Hbs Hl Hne.
  destruct (init_accepts_unpaired xs ys b Hb) as [d Hd].
  destruct (init_fields xs ys b d Hd)
    as (Hx & Hy & Hn & Hib & Hlo & Hhi & Hnx & Hny & Hdis).
  assert (Hlen : length xs = length ys).
  { apply (f_equal (@length _)) in Hl. unfold shard_lengths in Hl.
    now rewrite !length_map in Hl. }
  assert (Hnx' : num_shards d = length (x_shards d)).
  { rewrite Hx. unfold x_array, y_array in *. lia. }
  assert (Hny' : num_shards d = length (y_shards d)).
  { rewrite Hy. unfold x_array, y_array in *. lia. }
  assert (Hp : paired d).
  { split; [rewrite <- Hnx' | rewrite <- Hny']; apply Nat.le_refl. }
  assert (Ha : aligned d true (seq 0 (get_num_shards d))).
  { intros _. apply Forall_forall. intros sid Hin. apply in_seq in Hin.
    unfold get_num_shards in Hin.
    rewrite x_data_nth, y_data_nth by lia. rewrite Hx, Hy.
    now apply lengths_nth. }
  assert (Hlast : last_shard_nonempty d).
  { unfold last_shard_nonempty, get_num_shards.
    destruct (num_shards d) as [|n] eqn:E; [now left|right].
    rewrite y_data_nth by lia. rewrite Hy.
    replace (S n - 1) with n by lia.
    unfold x_array, y_array in *.
    destruct (nth_error ys n) as [sh|] eqn:Hsh.
    - rewrite Forall_forall in Hne. apply Hne. unfold shard_lengths.
      apply in_map_iff. exists sh. split; [reflexivity|].
      eapply nth_error_In. exact Hsh.
    - apply nth_error_None in Hsh. rewrite Hy in Hny'.
      unfold y_array in *. lia. }
  destruct (iterate_batches_all_rows d batch_size true true Hp Ha Hlast Hbs
              eq_refl) as (bs & Hit & E).
  pose proof (aligned_rows d _ Ha) as Hrows.
  unfold rows_x in E.
  rewrite (emit_fresh d _ _ Hlo Hhi Hnx Hny Hrows) in E.
  unfold concat_batches in E. injection E as Ex Ey.
  unfold rows_y in Ey.
  rewrite (x_data_all d Hnx'), Hx in Ex.
  rewrite (y_data_all d Hny'), Hy in Ey.
  exists d, bs. split; [exact Hd|]. split; [exact Hit|].
  split; [exact Ex|]. split; [exact Ey|].
  intros Hys.
  assert (Hpos : 0 < get_num_shards d).
  { unfold get_num_shards. rewrite Hn. destruct ys; [congruence|].
    destruct xs; [discriminate|]. cbn. lia. }
  assert (Hl' : 0 < length (y_data d (get_num_shards d - 1))).
  { destruct Hlast as [E|E]; [lia | exact E]. }
  assert (Hib' : (1 <= internal_batch_size d)%Z) by (rewrite Hib; exact Hb).
  pose proof (stored_predictions_all_rows d Hp Hpos Hl' Hib') as Hsp.
  rewrite (init_dataset_size xs ys b d _ Hd Hsp).
  unfold rows_y. now rewrite (y_data_all d Hny'), Hy.
Qed.



(* ================================================================= *)
(** ** The lookup table of the NAS-Bench oracle *)

Lemma key_eqb_refl k : NASBenchOracle.key_eqb k k = true.
Proof.
  unfold NASBenchOracle.key_eqb.
  now destruct (list_eq_dec Req_dec_T k k).
Qed.

Lemma key_eqb_neq k k' : k <> k' -> NASBenchOracle.key_eqb k k' = false.
Proof.
  intros H. unfold NASBenchOracle.key_eqb.
  now destruct (list_eq_dec Req_dec_T k k').
Qed.

Lemma dict_get_set_eq d k v :
  NASBenchOracle.dict_get (NASBenchOracle.dict_set d k v) k = Some v.
Proof.
  induction d as [|[k' v'] d IH]; cbn.
  - now rewrite key_eqb_refl.
  - destruct (NASBenchOracle.key_eqb k' k) eqn:E; cbn; rewrite E;
      [reflexivity | exact IH].
Qed.

Lemma dict_get_set_neq d k v k' :
  k <> k' ->
  NASBenchOracle.dict_get (NASBenchOracle.dict_set d k v) k'
  = NASBenchOracle.dict_get d k'.
Proof.
  intros H. induction d as [|[k0 v0] d IH]; cbn.
  - now rewrite (key_eqb_neq _ _ H).
  - destruct (NASBenchOracle.key_eqb k0 k) eqn:E; cbn.
    + unfold NASBenchOracle.key_eqb in E.
      destruct (list_eq_dec Req_dec_T k0 k) as [->|]; [|discriminate].
      now rewrite (key_eqb_neq _ _ H).
    + now rewrite IH.
Qed.

Lemma table_keeps (samples : list (list R * R)) :
  forall d x,
    (forall y, ~ In (x, y) samples) ->
    NASBenchOracle.dict_get
      (fold_left (fun d sample =>
                    NASBenchOracle.dict_set d (fst sample) (snd sample))
         samples d) x
    = NASBenchOracle.dict_get d x.
Proof.
  induction samples as [|[k v] samples IH]; intros d x H; [reflexivity|].
  cbn [fold_left fst snd]. rewrite IH.
  - apply dict_get_set_neq. intros ->. apply (H v). now left.
  - intros y Hin. apply (H y). now right.
Qed.

(** X21.  The table of the NAS-Bench oracle is filled from the samples the
    dataset yields in its current state of filtering and
    normalization.  [protected_predict] returns, for a design among
    those samples, the prediction of the last sample with that design,
    and zero for any other design. *)
Theorem protected_predict_last_sample :
  forall dataset samples,
    iterate_samples dataset true true = Returns samples ->
    exists table,
      NASBenchOracle.sequence_to_score dataset = Returns table
      /\ (forall before x y after,
             samples = before ++ (x, y) :: after ->
             (forall y', ~ In (x, y') after) ->
             NASBenchOracle.protected_predict table x = y)
      /\ (forall x,
             (forall y, ~ In (x, y) samples) ->
             NASBenchOracle.protected_predict table x = 0%R).
Proof.
  intros dataset samples H. unfold NASBenchOracle.sequence_to_score.
  rewrite H. eexists. split; [reflexivity|]. split.
  - intros before x y after -> Hlast.
    unfold NASBenchOracle.protected_predict.
    rewrite fold_left_app. cbn [fold_left fst snd].
    now rewrite (table_keeps after _ x Hlast), dict_get_set_eq.
  - intros x Hx. unfold NASBenchOracle.protected_predict.
    now rewrite (table_keeps samples _ x Hx).
Qed.

Lemma protected_predict_last_sample_witness :
  exists table,
    NASBenchOracle.sequence_to_score four_rows = Returns table
    /\ NASBenchOracle.protected_predict table [2%R] = 2%R.
Proof.
  assert (H : iterate_samples four_rows true true
              = Returns [([1%R], 1%R); ([2%R], 2%R);
                         ([3%R], 3%R); ([4%R], 4%R)])
    by (vm_compute; reflexivity).
  destruct (protected_predict_last_sample four_rows _ H)
    as (table & Ht & Hlast & _).
  exists table. split; [exact Ht|].
  apply (Hlast [([1%R], 1%R)] [2%R] 2%R [([3%R], 3%R); ([4%R], 4%R)]).
  - reflexivity.
  - intros y' [E|[E|[]]]; injection E as E _; lra.
Defined.

(* ================================================================= *)
(** ** The shards of the superconductor script *)

Lemma ceiling_div (n p : Z) :
  Qceiling (inject_Z n / inject_Z p) = (- ((- n) / p))%Z.
Proof.
  unfold Qceiling. f_equal. rewrite Zdiv_Qdiv.
  apply Qfloor_comp. rewrite inject_Z_opp. unfold Qdiv. ring.
Qed.

Lemma firstn_add {A : Type} (n m : nat) (l : list A) :
  firstn (n + m) l = firstn n l ++ firstn m (skipn n l).
Proof.
  revert l. induction n as [|n IH]; intros [|a l]; cbn;
    rewrite ?firstn_nil; try reflexivity.
  now rewrite IH.
Qed.

(** Consecutive slices of [k] rows tile the array. *)
Lemma slices_tile {A : Type} (l : list A) (k : nat) :
  forall c a,
    concat (map (fun i => slice l (i * k) ((i + 1) * k)) (seq a c))
    = firstn (c * k) (skipn (a * k) l).
Proof.
  induction c as [|c IH]; intros a; [reflexivity|].
  cbn [seq map concat]. rewrite IH.
  unfold slice. replace ((a + 1) * k - a * k) with k by lia.
  replace (S c * k) with (k + c * k) by lia.
  rewrite firstn_add, skipn_skipn.
  now replace (S a * k) with (k + a * k) by lia.
Qed.

Lemma shards_fst (x : x_array) (y : y_array) k c :
  map fst (map (fun shard_id =>
                  (slice x (shard_id * k) ((shard_id + 1) * k),
                   slice y (shard_id * k) ((shard_id + 1) * k)))
             (seq 0 c))
  = map (fun i => slice x (i * k) ((i + 1) * k)) (seq 0 c).
Proof. rewrite map_map. reflexivity. Qed.

Lemma shards_snd (x : x_array) (y : y_array) k c :
  map snd (map (fun shard_id =>
                  (slice x (shard_id * k) ((shard_id + 1) * k),
                   slice y (shard_id * k) ((shard_id + 1) * k)))
             (seq 0 c))
  = map (fun i => slice y (i * k) ((i + 1) * k)) (seq 0 c).
Proof. rewrite map_map. reflexivity. Qed.

Lemma slice_length {A : Type} (l : list A) i j :
  length (slice l i j) = Nat.min (j - i) (length l - i).
Proof. unfold slice. now rewrite length_firstn, length_skipn. Qed.

Lemma shards_positive (x : x_array) (y : y_array) samples_per_shard :
  length x = length y ->
  (0 < samples_per_shard)%Z ->
  exists shards,
    ProcessRawSuperconductor.shards x y samples_per_shard = Some shards
    /\ concat (map fst shards) = x
    /\ concat (map snd shards) = y
    /\ Forall (fun shard =>
                 length (fst shard) = length (snd shard)
                 /\ 1 <= length (snd shard) <= Z.to_nat samples_per_shard)
         shards
    /\ (0 < length shards ->
        (length shards - 1) * Z.to_nat samples_per_shard < length y)
    /\ length y <= length shards * Z.to_nat samples_per_shard.
Proof.
  intros Hlen Hpos.
  unfold ProcessRawSuperconductor.shards,
    ProcessRawSuperconductor.batch_per_shard.
  destruct (samples_per_shard =? 0)%Z eqn:E; [apply Z.eqb_eq in E; lia|].
  rewrite ceiling_div.
  set (k := Z.to_nat samples_per_shard).
  set (c := Z.to_nat (- (- Z.of_nat (length y) / samples_per_shard))).
  assert (Hk : 0 < k) by (unfold k; lia).
  assert (Hc : length y <= c * k /\ (c - 1) * k <= length y
               /\ (0 < c -> (c - 1) * k < length y)).
  { pose proof (Z.div_mod (- Z.of_nat (length y)) samples_per_shard
                  ltac:(lia)) as D.
    pose proof (Z.mod_pos_bound (- Z.of_nat (length y)) samples_per_shard
                  Hpos) as B.
    unfold c, k. nia. }
  eexists. split; [reflexivity|].
  rewrite shards_fst, shards_snd, length_map, length_seq.
  rewrite !slices_tile. cbn [Nat.mul skipn].
  split; [apply firstn_all2; lia|].
  split; [apply firstn_all2; lia|].
  split; [|lia].
  apply Forall_forall. intros shard Hin.
  apply in_map_iff in Hin. destruct Hin as (i & <- & Hi).
  apply in_seq in Hi. cbn [fst snd].
  rewrite !slice_length, Hlen.
  assert (i * k < length y) by nia.
  nia.
Qed.

(** X22.  The script on arrays of equal length.  With a positive
    [samples_per_shard] it saves one pair of arrays for every started
    block of that many rows, that is the least number of pairs that can
    hold the rows: the pairs, concatenated in the order of
    their ids, are the two arrays; the two arrays of a pair have the
    same number of rows, at least one and at most [samples_per_shard].
    With [samples_per_shard = 0] the division raises; with a negative
    value nothing is saved. *)
Theorem superconductor_shards_tile :
  forall x y samples_per_shard,
    length x = length y ->
    ((0 < samples_per_shard)%Z ->
     exists shards,
       ProcessRawSuperconductor.shards x y samples_per_shard = Some shards
       /\ concat (map fst shards) = x
       /\ concat (map snd shards) = y
       /\ Forall (fun shard =>
                    length (fst shard) = length (snd shard)
                    /\ 1 <= length (snd shard) <= Z.to_nat samples_per_shard)
            shards
       /\ (0 < length shards ->
           (length shards - 1) * Z.to_nat samples_per_shard < length y)
       /\ length y <= length shards * Z.to_nat samples_per_shard)
    /\ ProcessRawSuperconductor.shards x y 0 = None
    /\ ((samples_per_shard < 0)%Z ->
        ProcessRawSuperconductor.shards x y samples_per_shard = Some []).
Proof.
  intros x y sps Hlen. split; [|split].
  - intros Hpos. now apply shards_positive.
  - reflexivity.
  - intros Hneg.
    unfold ProcessRawSuperconductor.shards,
      ProcessRawSuperconductor.batch_per_shard.
    destruct (sps =? 0)%Z eqn:E; [apply Z.eqb_eq in E; lia|].
    rewrite ceiling_div.
    assert (H : (0 <= - Z.of_nat (length y) / sps)%Z).
    { rewrite <- Z.div_opp_opp by lia. apply Z.div_pos; lia. }
    replace (Z.to_nat (- (- Z.of_nat (length y) / sps))) with 0 by lia.
    reflexivity.
Qed.

Lemma superconductor_shards_tile_witness :
  exists shards,
    ProcessRawSuperconductor.shards
      [[1%R]; [2%R]; [3%R]; [4%R]; [5%R]] [1%R; 2%R; 3%R; 4%R; 5%R] 2
    = Some shards
    /\ concat (map snd shards) = [1%R; 2%R; 3%R; 4%R; 5%R]
    /\ length shards = 3.
Proof.
  destruct (superconductor_shards_tile
              [[1%R]; [2%R]; [3%R]; [4%R]; [5%R]] [1%R; 2%R; 3%R; 4%R; 5%R]
              2 eq_refl) as [H _].
  destruct (H ltac:(lia)) as (shards & Hs & _ & Hy & _ & Hlo & Hhi).
  exists shards. split; [exact Hs|]. split; [exact Hy|].
  cbn in Hlo, Hhi. lia.
Defined.

(** X23.  The arrays the script saves, loaded as the shards of a dataset:
    the constructor accepts them, and iterating the dataset, in batches
    of any size, with both channels and without [drop_remainder],
    reproduces the two arrays the script was given. *)
Theorem superconductor_shards_load :
  forall x y samples_per_shard shards xs ys b batch_size,
    length x = length y ->
    (0 < samples_per_shard)%Z ->
    ProcessRawSuperconductor.shards x y samples_per_shard = Some shards ->
    map shard_data xs = map fst shards ->
    map shard_data ys = map snd shards ->
    (1 <= b)%Z ->
    (1 <= batch_size)%Z ->
    exists d bs,
      init xs ys b = Returns d
      /\ iterate_batches d batch_size true true false = Returns bs
      /\ concat (map fst bs) = x
      /\ concat (map snd bs) = y
      /\ (y <> [] -> dataset_size d = length y).
Proof.
  intros x y sps shards xs ys b batch_size Hlen Hpos Hs Hxs Hys Hb Hbs.
  destruct (shards_positive x y sps Hlen Hpos)
    as (shards' & Hs' & Hx & Hy & Hall & _).
  rewrite Hs in Hs'. injection Hs' as <-.
  assert (Lx : shard_lengths xs = map (fun p => length (fst p)) shards).
  { unfold shard_lengths.
    transitivity (map (@length _) (map shard_data xs));
      [symmetry; apply map_map|].
    transitivity (map (@length _) (map fst shards));
      [exact (f_equal (map (@length _)) Hxs) | apply map_map]. }
  assert (Ly : shard_lengths ys = map (fun p => length (snd p)) shards).
  { unfold shard_lengths.
    transitivity (map (@length _) (map shard_data ys));
      [symmetry; apply map_map|].
    transitivity (map (@length _) (map snd shards));
      [exact (f_equal (map (@length _)) Hys) | apply map_map]. }
  destruct (init_iterates_shards xs ys b batch_size Hb Hbs)
    as (d & bs & Hd & Hit & Ex & Ey & Esize).
  - rewrite Lx, Ly. apply map_ext_in. intros p Hin.
    rewrite Forall_forall in Hall. now apply Hall.
  - rewrite Ly. apply Forall_forall. intros n Hin.
    apply in_map_iff in Hin. destruct Hin as (p & <- & Hin).
    rewrite Forall_forall in Hall. now apply Hall.
  - exists d, bs. split; [exact Hd|]. split; [exact Hit|].
    split; [etransitivity; [exact Ex|]; etransitivity;
            [exact (f_equal (@concat _) Hxs) | exact Hx]|].
    assert (Ey' : concat (map shard_data ys) = y).
    { etransitivity; [exact (f_equal (@concat _) Hys) | exact Hy]. }
    split; [etransitivity; [exact Ey | exact Ey']|].
    intros Hne.
    etransitivity; [apply Esize | exact (f_equal (@length _) Ey')].
    intros ->. cbn in Hys. symmetry in Hys. apply map_eq_nil in Hys.
    subst shards. cbn in Hy. congruence.
Qed.

Lemma superconductor_shards_load_witness :
  exists d bs,
    init [InMemory [[1%R]; [2%R]]; InMemory [[3%R]]]
         [InMemory [1%R; 2%R]; InMemory [3%R]] 32 = Returns d
    /\ iterate_batches d 2 true true false = Returns bs
    /\ concat (map fst bs) = [[1%R]; [2%R]; [3%R]]
    /\ concat (map snd bs) = [1%R; 2%R; 3%R].
Proof.
  destruct (superconductor_shards_load
              [[1%R]; [2%R]; [3%R]] [1%R; 2%R; 3%R] 2
              [([[1%R]; [2%R]], [1%R; 2%R]); ([[3%R]], [3%R])]
              [InMemory [[1%R]; [2%R]]; InMemory [[3%R]]]
              [InMemory [1%R; 2%R]; InMemory [3%R]] 32 2)
    as (d & bs & Hd & Hit & Hx & Hy & _).
  - reflexivity.
  - lia.
  - vm_compute. reflexivity.
  - reflexivity.
  - reflexivity.
  - lia.
  - lia.
  - exists d, bs. repeat split; assumption.
Defined.

(* ================================================================= *)
(** ** [relabel] on shards that all have rows *)

Lemma shard_start_S s i :
  shard_start s (S i) = shard_start s i + length (y_data s i).
Proof.
  unfold shard_start, rows_y. rewrite seq_S, map_app, concat_app, length_app.
  cbn. now rewrite app_nil_r.
Qed.

Lemma shard_start_le s i j : i <= j -> shard_start s i <= shard_start s j.
Proof.
  induction 1 as [|j _ IH]; [lia|]. rewrite shard_start_S. lia.
Qed.

Lemma shard_start_lt s i j :
  Forall (fun i => 0 < length (y_data s i)) (seq 0 (get_num_shards s)) ->
  i < j -> j <= get_num_shards s -> shard_start s i < shard_start s j.
Proof.
  intros Hne Hij Hj. rewrite Forall_forall in Hne.
  induction Hij as [|j Hij IH].
  - rewrite shard_start_S.
    assert (0 < length (y_data s i)) by (apply Hne, in_seq; lia). lia.
  - rewrite shard_start_S. specialize (IH ltac:(lia)). lia.
Qed.

Lemma for_loop_agree s1 s2 return_x return_y batch_size drop_remainder ids :
  num_shards s1 = num_shards s2 ->
  (forall x y,
      (return_x = false -> x = []) ->
      (if disable_transform s1 then (x, y)
       else batch_transform s1 x y return_x return_y)
      = (if disable_transform s2 then (x, y)
         else batch_transform s2 x y return_x return_y)) ->
  Forall (fun sid =>
            get_shard_x s1 (Z.of_nat sid) = get_shard_x s2 (Z.of_nat sid)
            /\ get_shard_y s1 (Z.of_nat sid) = get_shard_y s2 (Z.of_nat sid))
    ids ->
  forall buf,
    for_loop s1 batch_size return_x return_y drop_remainder ids buf
    = for_loop s2 batch_size return_x return_y drop_remainder ids buf.
Proof.
  intros Hn Hslice. induction 1 as [|sid ids [Hx Hy] _ IH]; intros buf;
    [reflexivity|].
  cbn [for_loop]. rewrite Hx, Hy.
  destruct (if return_x then _ else _) as [xd|e]; [|reflexivity].
  destruct (get_shard_y s2 _) as [yd|e]; [|reflexivity].
  rewrite (while_loop_same s1 s2 return_x return_y Hn Hslice).
  destruct (while_loop _ _ _ _ _ _ _ _ _ _ _); [reflexivity | apply IH].
Qed.

(** A generator reads the same batch from two states that agree on the
    shards it has still to load. *)
Lemma gen_next_agree s1 s2 return_x return_y batch_size drop_remainder g :
  num_shards s1 = num_shards s2 ->
  (forall x y,
      (return_x = false -> x = []) ->
      (if disable_transform s1 then (x, y)
       else batch_transform s1 x y return_x return_y)
      = (if disable_transform s2 then (x, y)
         else batch_transform s2 x y return_x return_y)) ->
  Forall (fun sid =>
            get_shard_x s1 (Z.of_nat sid) = get_shard_x s2 (Z.of_nat sid)
            /\ get_shard_y s1 (Z.of_nat sid) = get_shard_y s2 (Z.of_nat sid))
    (to_load s1 g) ->
  gen_next s1 batch_size return_x return_y drop_remainder g
  = gen_next s2 batch_size return_x return_y drop_remainder g.
Proof.
  intros Hn Hslice Hload. destruct g as [|c]; cbn [gen_next to_load] in *.
  - unfold get_num_shards in *. rewrite <- Hn.
    destruct (_ || _); [reflexivity|].
    now apply for_loop_agree.
  - rewrite (while_loop_same s1 s2 return_x return_y Hn Hslice).
    destruct (while_loop _ _ _ _ _ _ _ _ _ _ _);
      [reflexivity | now apply for_loop_agree].
Qed.

Lemma set_y_shards_twice a b s :
  set_y_shards a (set_y_shards b s) = set_y_shards a s.
Proof. destruct s; reflexivity. Qed.

Lemma firstn_list_update {A : Type} (l : list A) n v :
  n < length l -> firstn (S n) (list_update l n v) = firstn n l ++ [v].
Proof.
  revert n. induction l as [|a l IH]; intros [|n] H; cbn in *; try lia.
  - reflexivity.
  - f_equal. apply IH. lia.
Qed.

Lemma shard_lengths_update {A : Type} (l : list (shard (list A))) n sh d :
  nth_error l n = Some sh ->
  length d = length (shard_data sh) ->
  shard_lengths (list_update l n (shard_store sh d)) = shard_lengths l.
Proof.
  unfold shard_lengths. revert n.
  induction l as [|a l IH]; intros [|n] H Hd; try discriminate.
  - injection H as ->. cbn. f_equal. rewrite <- Hd. now destruct sh.
  - cbn. f_equal. now apply IH.
Qed.

Lemma shard_data_store {A : Type} (sh : shard A) d :
  shard_data (shard_store sh d) = d.
Proof. now destruct sh. Qed.

Section Relabelling.

Variable s1 : DatasetBuilder.
Hypothesis Hp : paired s1.
Hypothesis Hne :
  Forall (fun i => 0 < length (y_data s1 i)) (seq 0 (get_num_shards s1)).

Lemma relabelled_shard shards written values waiting w :
  relabelled s1 shards written values waiting ->
  written <= w -> w < get_num_shards s1 ->
  exists sh,
    nth_error shards w = Some sh
    /\ length (shard_data sh) = length (y_data s1 w)
    /\ w < length shards.
Proof.
  intros (Hl & _ & Hu & _) Hw Hn.
  destruct (get_shard_y_paired s1 w Hn (proj2 Hp)) as (sh & Hsh & _).
  exists sh. rewrite (Hu w Hw). split; [exact Hsh|].
  split.
  - rewrite (y_data_nth s1 w Hn). now rewrite Hsh.
  - apply (f_equal (@length _)) in Hl. unfold shard_lengths in Hl.
    rewrite !length_map in Hl.
    assert (w < length (y_shards s1)) by (apply nth_error_Some; congruence).
    unfold y_array in *. lia.
Qed.

Lemma set_shard_y_relabelled shards w sh d :
  w < get_num_shards s1 ->
  nth_error shards w = Some sh ->
  set_shard_y (Z.of_nat w) d (set_y_shards shards s1)
  = (Returns tt,
     set_y_shards (list_update shards w (shard_store sh d)) s1).
Proof.
  intros Hn Hsh. unfold set_shard_y.
  rewrite (shard_id_accepted (set_y_shards shards s1) w Hn).
  cbn [y_shards set_y_shards]. rewrite py_index_nat, Hsh.
  rewrite py_setitem_nat by (apply nth_error_Some; congruence).
  now rewrite set_y_shards_twice.
Qed.

Lemma get_shard_y_unwritten shards i :
  i < get_num_shards s1 ->
  nth_error shards i = nth_error (y_shards s1) i ->
  get_shard_y (set_y_shards shards s1) (Z.of_nat i)
  = Returns (y_data s1 i).
Proof.
  intros Hn H. unfold get_shard_y.
  rewrite (shard_id_accepted (set_y_shards shards s1) i Hn).
  cbn [y_shards set_y_shards]. rewrite py_index_nat, H.
  rewrite (y_data_nth s1 i Hn).
  destruct (get_shard_y_paired s1 i Hn (proj2 Hp)) as (sh & Hsh & _).
  rewrite Hsh. now destruct sh.
Qed.

Lemma relabelled_write shards w values waiting sh slice :
  relabelled s1 shards w values waiting ->
  nth_error shards w = Some sh ->
  length (waiting ++ slice) = length (shard_data sh) ->
  relabelled s1 (list_update shards w (shard_store sh (waiting ++ slice)))
    (S w) (values ++ slice) [].
Proof.
  intros (Hl & Hpl & Hu & Hv) Hsh Hlen.
  assert (Hw : w < length shards) by (apply nth_error_Some; congruence).
  split; [|split; [|split]].
  - etransitivity; [exact (shard_lengths_update shards w sh _ Hsh Hlen)|].
    exact Hl.
  - etransitivity; [exact (list_update_place shards w sh _ Hsh) | exact Hpl].
  - intros i Hi.
    rewrite nth_error_list_update_neq by lia. apply Hu. lia.
  - rewrite (firstn_list_update shards w _ Hw), map_app, concat_app.
    cbn [map concat]. rewrite shard_data_store, !app_nil_r, <- Hv.
    now rewrite app_assoc.
Qed.

Lemma slice_firstn {A : Type} (a : list A) i n :
  slice a i (i + n) = firstn n (skipn i a).
Proof. unfold slice. now replace (i + n - i) with n by lia. Qed.

(** The [while] loop of [relabel] files the new values of a batch into
    the shards: it writes every shard the values fill, keeps the rest
    waiting, and at the last value writes the last shard. *)
Lemma relabel_while_files fuel (y_batch : y_array) :
  forall read_position l shards values,
    length values < (shard_start s1 (get_num_shards s1)) ->
    examples_processed l = length values ->
    writing s1 l ->
    relabelled s1 shards (relabel_shard_id l) values (concat (y_shard l)) ->
    length values + (length y_batch - read_position) <= (shard_start s1 (get_num_shards s1)) ->
    length y_batch - read_position < fuel ->
    exists l' shards',
      relabel_while fuel (shard_start s1 (get_num_shards s1)) y_batch read_position l
        (set_y_shards shards s1)
      = (Returns l', set_y_shards shards' s1)
      /\ in_step s1 l' shards' (values ++ skipn read_position y_batch).
Proof.
  induction fuel as [|fuel IH];
    intros rp l shards values Hlt Hproc Hw Hrel Hfit Hfuel; [lia|].
  cbn [relabel_while].
  destruct (rp <? length y_batch) eqn:Hrp.
  2:{ apply Nat.ltb_ge in Hrp. exists l, shards. split; [reflexivity|].
      rewrite skipn_all2 by exact Hrp. rewrite app_nil_r.
      left. split; [exact Hlt|]. split; [exact Hproc|].
      split; [exact Hw | exact Hrel]. }
  apply Nat.ltb_lt in Hrp.
  destruct Hw as (Hsid & Hsize & Hysz & Hroom & Hstart).
  set (w := relabel_shard_id l) in *.
  set (target := shard_size l - y_shard_size l) in *.
  rewrite (slice_firstn y_batch rp target).
  set (y_slice := firstn target (skipn rp y_batch)) in *.
  assert (Hsl : length y_slice = Nat.min target (length y_batch - rp)).
  { unfold y_slice. now rewrite length_firstn, length_skipn. }
  destruct (relabelled_shard shards w values _ w Hrel (Nat.le_refl w) Hsid)
    as (sh & Hsh & Hshl & Hwl).
  assert (Hnext : shard_start s1 (S w)
                  = shard_start s1 w + shard_size l).
  { rewrite shard_start_S. now rewrite Hsize. }
  assert (Hbound : shard_start s1 (S w) <= (shard_start s1 (get_num_shards s1))).
  { apply shard_start_le. lia. }
  destruct ((shard_size l <=? y_shard_size l + length y_slice)
            || ((shard_start s1 (get_num_shards s1)) <=? examples_processed l + length y_slice)) eqn:C.
  - (* the shard is written *)
    unfold bind at 1.
    rewrite (set_shard_y_relabelled shards w sh _ Hsid Hsh).
    rewrite concat_app. cbn [concat]. rewrite app_nil_r.
    destruct ((shard_start s1 (get_num_shards s1)) <=? examples_processed l + length y_slice) eqn:Hend;
      cbn [negb].
    + (* it was the last value *)
      apply Nat.leb_le in Hend.
      assert (Hall : length y_slice = length y_batch - rp) by lia.
      assert (Hfull : y_shard_size l + length y_slice = shard_size l) by lia.
      assert (Hlast : S w = get_num_shards s1).
      { destruct (Nat.eq_dec (S w) (get_num_shards s1)) as [E|E];
          [exact E|].
        pose proof (shard_start_lt s1 (S w) (get_num_shards s1) Hne
                      ltac:(lia) (Nat.le_refl _)). lia. }
      assert (Hskip : y_slice = skipn rp y_batch).
      { unfold y_slice. apply firstn_all2. rewrite length_skipn. lia. }
      destruct fuel as [|fuel]; [lia|]. cbn [relabel_while].
      assert (Hout : (rp + target <? length y_batch) = false)
        by (apply Nat.ltb_ge; lia).
      rewrite Hout. eexists _, _. split; [reflexivity|].
      right. rewrite <- Hskip. split.
      * rewrite length_app. lia.
      * rewrite <- Hlast. apply relabelled_write; try assumption.
        rewrite length_app, <- Hysz. lia.
    + (* the next shard is opened *)
      apply Nat.leb_gt in Hend.
      rewrite orb_false_r in C. apply Nat.leb_le in C.
      assert (Hfull : y_shard_size l + length y_slice = shard_size l) by lia.
      assert (Htake : length y_slice = target) by lia.
      assert (Hmore : S w < get_num_shards s1).
      { destruct (Nat.eq_dec (S w) (get_num_shards s1)) as [E|E];
          [rewrite E in Hnext; lia | lia]. }
      assert (Hrw : relabelled s1
                      (list_update shards w
                         (shard_store sh (concat (y_shard l) ++ y_slice)))
                      (S w) (values ++ y_slice) []).
      { apply relabelled_write; try assumption.
        rewrite length_app, <- Hysz. lia. }
      unfold bind at 1, read.
      replace (w + 1) with (S w) by lia.
      rewrite (get_shard_y_unwritten _ (S w) Hmore)
        by (apply Hrw; lia).
      assert (Hopen : 0 < length (y_data s1 (S w))).
      { rewrite Forall_forall in Hne. apply Hne, in_seq. lia. }
      destruct (IH (rp + target)
                  (mkRelabel (examples_processed l + length y_slice) [] 0
                     (S w) (length (y_data s1 (S w))))
                  (list_update shards w
                     (shard_store sh (concat (y_shard l) ++ y_slice)))
                  (values ++ y_slice))
        as (l' & shards' & Hrun & Hstep).
      * rewrite length_app. lia.
      * cbn [examples_processed]. rewrite length_app. lia.
      * unfold writing.
        cbn [relabel_shard_id shard_size y_shard_size y_shard
             examples_processed concat length].
        repeat split; try lia.
      * exact Hrw.
      * rewrite length_app. lia.
      * lia.
      * exists l', shards'. split; [exact Hrun|].
        rewrite <- app_assoc in Hstep.
        unfold y_slice in Hstep.
        rewrite <- slice_firstn, <- slice_skipn in Hstep. exact Hstep.
  - (* the values wait for the next batch *)
    apply orb_false_iff in C. destruct C as [C1 C2].
    apply Nat.leb_gt in C1, C2.
    assert (Hall : length y_slice = length y_batch - rp) by lia.
    assert (Hskip : y_slice = skipn rp y_batch).
    { unfold y_slice. apply firstn_all2. rewrite length_skipn. lia. }
    destruct fuel as [|fuel]; [lia|]. cbn [relabel_while].
    assert (Hout : (rp + target <? length y_batch) = false)
      by (apply Nat.ltb_ge; lia).
    rewrite Hout. eexists _, _. split; [reflexivity|].
    left. rewrite <- Hskip.
    destruct Hrel as (Hl & Hpl & Hu & Hv).
    split; [rewrite length_app; lia|].
    split; [cbn [examples_processed]; rewrite length_app; lia|].
    split.
    + unfold writing.
      cbn [relabel_shard_id shard_size y_shard_size y_shard
           examples_processed].
      rewrite concat_app, length_app. cbn [concat]. rewrite app_nil_r.
      fold w. repeat split; try lia.
    + cbn [relabel_shard_id y_shard]. fold w.
      rewrite concat_app. cbn [concat]. rewrite app_nil_r.
      repeat split; try assumption.
      rewrite app_assoc. now rewrite Hv.
Qed.


Variable relabel_function : x_array -> y_array -> y_array.
Hypothesis Hf : forall x y, length (relabel_function x y) = length y.
Hypothesis Hd : disable_transform s1 = true.
Hypothesis Hb : (1 <= internal_batch_size s1)%Z.
Hypothesis Hn : 0 < get_num_shards s1.

Lemma get_shard_y_data i :
  i < get_num_shards s1 ->
  get_shard_y s1 (Z.of_nat i) = Returns (y_data s1 i).
Proof.
  intros Hi. unfold y_data.
  destruct (get_shard_y_paired s1 i Hi (proj2 Hp)) as (sh & _ & H).
  now rewrite H.
Qed.

Lemma skipn_app_eq {A : Type} (a taken rest : list A) p :
  p <= length a ->
  skipn p a = taken ++ rest ->
  rest = skipn (p + length taken) a
  /\ p + length taken <= length a.
Proof.
  intros Hp' H. split.
  - rewrite Nat.add_comm, <- skipn_skipn, H.
    rewrite skipn_app, skipn_all, Nat.sub_diag. reflexivity.
  - apply (f_equal (@length _)) in H.
    rewrite length_skipn, length_app in H. lia.
Qed.

(** The shards a generator has still to load start at or after the
    rows it has yielded. *)
Lemma gen_loads_ahead g p :
  gen_wf s1 true g ->
  snd (gen_rest s1 true true g)
  = skipn p (rows_y s1 (seq 0 (get_num_shards s1))) ->
  p <= shard_start s1 (get_num_shards s1) ->
  Forall (fun i => i < get_num_shards s1 /\ p <= shard_start s1 i)
    (to_load s1 g).
Proof.
  intros Hwf Hrest Hle. apply Forall_forall. intros i Hi.
  assert (Hpos : 0 < shard_start s1 (get_num_shards s1)).
  { apply (shard_start_lt s1 0 _ Hne Hn (Nat.le_refl _)). }
  destruct g as [|c]; cbn [to_load gen_wf gen_rest] in *;
    unfold emit in Hrest; rewrite Hd in Hrest; cbn [snd] in Hrest.
  - apply in_seq in Hi. split; [lia|].
    apply (f_equal (@length _)) in Hrest. rewrite length_skipn in Hrest.
    unfold shard_start in *. lia.
  - destruct Hwf as ((pre & Hseq) & _ & _).
    destruct (seq_split 0 _ pre _ _ Hseq) as (Hcid & Hpend & Hpre).
    rewrite Hpend in Hi. apply in_seq in Hi.
    assert (Hrows : shard_start s1 (get_num_shards s1)
                    = shard_start s1 (S (shard_id c))
                      + length (rows_y s1 (pending c))).
    { unfold shard_start at 1.
      replace (get_num_shards s1)
        with (S (shard_id c) + (get_num_shards s1 - S (shard_id c)))
        at 1 by lia.
      rewrite seq_app. unfold rows_y at 1.
      rewrite map_app, concat_app, length_app. cbn [Nat.add].
      rewrite Hpend. unfold shard_start, rows_y.
      now replace (length pre) with (shard_id c) by lia. }
    split; [lia|].
    apply (f_equal (@length _)) in Hrest.
    unfold rest_y in Hrest. rewrite length_app, !length_skipn in Hrest.
    pose proof (shard_start_le s1 (S (shard_id c)) i ltac:(lia)).
    unfold shard_start in *. lia.
Qed.

Lemma in_step_unwritten l shards values i :
  in_step s1 l shards values ->
  i < get_num_shards s1 ->
  length values <= shard_start s1 i ->
  nth_error shards i = nth_error (y_shards s1) i.
Proof.
  intros [(Hlt & Hproc & Hw & Hrel)|(Hlen & Hrel)] Hi Hrows.
  - destruct Hw as (Hsid & _ & _ & _ & Hstart).
    destruct Hrel as (_ & _ & Hu & _). apply Hu.
    destruct (Nat.le_gt_cases (relabel_shard_id l) i) as [H|H]; [exact H|].
    pose proof (shard_start_lt s1 i (relabel_shard_id l) Hne H
                  ltac:(lia)). lia.
  - pose proof (shard_start_lt s1 i (get_num_shards s1) Hne Hi
                  (Nat.le_refl _)). lia.
Qed.

Lemma in_step_length l shards values :
  in_step s1 l shards values ->
  length values <= shard_start s1 (get_num_shards s1).
Proof. intros [(H & _)|(H & _)]; lia. Qed.

(** The generator reads the batch it would read from the shards as
    they were: [relabel] has written none of the shards it has still
    to load. *)
Lemma gen_next_relabelled g l shards values :
  in_step s1 l shards values ->
  gen_wf s1 true g ->
  snd (gen_rest s1 true true g)
  = skipn (length values) (rows_y s1 (seq 0 (get_num_shards s1))) ->
  gen_next (set_y_shards shards s1)
    (internal_batch_size (set_y_shards shards s1)) true true false g
  = gen_next s1 (internal_batch_size s1) true true false g.
Proof.
  intros Hstep Hwf Hrest.
  change (internal_batch_size (set_y_shards shards s1))
    with (internal_batch_size s1).
  apply gen_next_agree.
  - reflexivity.
  - intros x y _.
    change (disable_transform (set_y_shards shards s1))
      with (disable_transform s1).
    now rewrite Hd.
  - pose proof (gen_loads_ahead g (length values) Hwf Hrest
                  (in_step_length _ _ _ Hstep)) as Hload.
    change (to_load (set_y_shards shards s1) g) with (to_load s1 g).
    eapply Forall_impl; [|exact Hload]. cbv beta. intros i [Hi Hrows].
    split; [reflexivity|].
    rewrite (get_shard_y_unwritten shards i Hi
               (in_step_unwritten l shards values i Hstep Hi Hrows)).
    now rewrite (get_shard_y_data i Hi).
Qed.

Lemma relabel_while_in_step (y_batch : y_array) l shards values :
  in_step s1 l shards values ->
  length values + length y_batch <= shard_start s1 (get_num_shards s1) ->
  exists l' shards',
    relabel_while (length y_batch + get_num_shards s1 + 1)
      (shard_start s1 (get_num_shards s1)) y_batch 0 l
      (set_y_shards shards s1)
    = (Returns l', set_y_shards shards' s1)
    /\ in_step s1 l' shards' (values ++ y_batch).
Proof.
  intros Hstep Hfit.
  destruct Hstep as [(Hlt & Hproc & Hw & Hrel)|(Hlen & Hrel)].
  - destruct (relabel_while_files (length y_batch + get_num_shards s1 + 1)
                y_batch 0 l shards values Hlt Hproc Hw Hrel)
      as (l' & shards' & H & Hstep'); [lia | lia |].
    exists l', shards'. split; [exact H | exact Hstep'].
  - assert (E : y_batch = []) by (destruct y_batch; [reflexivity | cbn in *; lia]).
    subst y_batch. exists l, shards.
    replace (length (@nil R) + get_num_shards s1 + 1)
      with (S (get_num_shards s1)) by (cbn; lia).
    split; [reflexivity|]. rewrite app_nil_r. right. split; assumption.
Qed.

(** The [for] loop of [relabel] files the relabelled batches, in the
    order of their yield, into the shards. *)
Lemma relabel_for_files fuel :
  forall g l shards values,
    in_step s1 l shards values ->
    gen_wf s1 true g ->
    gen_readable s1 true g ->
    snd (gen_rest s1 true true g)
    = skipn (length values) (rows_y s1 (seq 0 (get_num_shards s1))) ->
    remaining s1 g < fuel ->
    exists l' shards' bs,
      drain fuel s1 (internal_batch_size s1) true true false g = Returns bs
      /\ relabel_for fuel relabel_function
           (shard_start s1 (get_num_shards s1)) g l (set_y_shards shards s1)
         = (Returns l', set_y_shards shards' s1)
      /\ relabelled s1 shards' (get_num_shards s1)
           (values
            ++ concat (map (fun b => relabel_function (fst b) (snd b)) bs))
           [].
Proof.
  assert (Hlast : last_shard_nonempty s1).
  { right. rewrite Forall_forall in Hne. apply Hne, in_seq. lia. }
  induction fuel as [|fuel IH];
    intros g l shards values Hstep Hwf Hread Hrest Hfuel; [lia|].
  cbn [relabel_for drain]. unfold bind at 1, read.
  rewrite (gen_next_relabelled g l shards values Hstep Hwf Hrest).
  pose proof (gen_next_readable s1 (internal_batch_size s1) true true false
                g Hb eq_refl Hread) as Hrd.
  pose proof (gen_next_emits s1 (internal_batch_size s1) true true g
                Hb Hlast Hwf) as Hem.
  destruct (gen_next s1 _ _ _ _ _) as [[[[x_batch y_batch] g']|]|e];
    [| |destruct Hrd].
  - destruct Hrd as [Hread' Hrem]. destruct Hem as [Hwf' Hem].
    apply (f_equal snd) in Hem. unfold bapp in Hem. cbn [fst snd] in Hem.
    rewrite Hrest in Hem.
    destruct (skipn_app_eq _ _ _ _ (in_step_length _ _ _ Hstep) Hem)
      as [Hrest' Hfit].
    fold (shard_start s1 (get_num_shards s1)) in Hfit.
    unfold bind at 1, get. unfold bind at 1.
    change (get_num_shards (set_y_shards shards s1))
      with (get_num_shards s1).
    destruct (relabel_while_in_step (relabel_function x_batch y_batch)
                l shards values Hstep)
      as (l2 & shards2 & Hwhile & Hstep2).
    { now rewrite Hf. }
    rewrite Hwhile.
    destruct (IH g' l2 shards2 (values ++ relabel_function x_batch y_batch)
                Hstep2 Hwf' Hread')
      as (l' & shards' & bs & Hdrain & Hfor & Hrel).
    { now rewrite length_app, Hf. }
    { lia. }
    rewrite Hdrain, Hfor. exists l', shards', ((x_batch, y_batch) :: bs).
    split; [reflexivity|]. split; [reflexivity|].
    cbn [map concat fst snd]. now rewrite app_assoc.
  - cbn [gen_rest] in Hem. apply (f_equal snd) in Hem. cbn [snd] in Hem.
    rewrite Hrest in Hem.
    assert (Hall : shard_start s1 (get_num_shards s1) <= length values).
    { apply (f_equal (@length _)) in Hem. rewrite length_skipn in Hem.
      unfold shard_start. cbn in Hem. lia. }
    exists l, shards, []. split; [reflexivity|]. split; [reflexivity|].
    cbn [map concat]. rewrite app_nil_r.
    destruct Hstep as [(Hlt & _)|(_ & Hrel)]; [lia | exact Hrel].
Qed.

End Relabelling.

(** X24.  [relabel] on a dataset that is not frozen, over paired shards that
    all have rows, with a relabelling function that returns one value
    for every row of its batch.  The new values are those of the
    batches of the whole dataset, read with the transform disabled and
    relabelled in the order of their yield; [relabel] files them into
    the prediction shards in that order: every shard keeps its place
    and its number of rows, the shards beyond the shard count are not
    touched, and the design shards stay as they are.  It then
    re-enables the transform and calls [subsample] with the
    percentiles of the dataset. *)
Theorem relabel_rewrites_predictions :
  forall (np_percentile : y_array -> Q -> R)
         (relabel_function : x_array -> y_array -> y_array) s,
    freeze_statistics s = false ->
    paired s ->
    aligned s true (seq 0 (get_num_shards s)) ->
    0 < get_num_shards s ->
    Forall (fun i => 0 < length (y_data s i)) (seq 0 (get_num_shards s)) ->
    (1 <= internal_batch_size s)%Z ->
    (forall x y, length (relabel_function x y) = length y) ->
    exists bs shards,
      iterate_batches (set_disable_transform true s) (internal_batch_size s)
        true true false = Returns bs
      /\ concat (map fst bs)
         = concat (map (x_data s) (seq 0 (get_num_shards s)))
      /\ concat (map snd bs) = rows_y s (seq 0 (get_num_shards s))
      /\ relabelled s shards (get_num_shards s)
           (concat (map (fun b => relabel_function (fst b) (snd b)) bs)) []
      /\ relabel np_percentile relabel_function s
         = subsample np_percentile
             (dataset_max_percentile s) (dataset_min_percentile s)
             (set_disable_transform false
                (set_y_shards shards (set_disable_transform true s))).
Proof.
  intros np_percentile relabel_function s Hfrozen Hp Ha Hn Hne Hb Hf.
  assert (Hlast : 0 < length (y_data s (get_num_shards s - 1))).
  { rewrite Forall_forall in Hne. apply Hne, in_seq. lia. }
  destruct (stored_samples s Hp Ha Hn Hlast Hb) as (Hy & _ & _ & _).
  set (s1 := set_disable_transform true s) in *.
  assert (Hstart : in_step s1 (mkRelabel 0 [] 0 0 (length (y_data s1 0)))
                     (y_shards s1) []).
  { left. split.
    - apply (shard_start_lt s1 0 _ Hne Hn (Nat.le_refl _)).
    - split; [reflexivity|]. split.
      + unfold writing.
        cbn [relabel_shard_id shard_size y_shard_size y_shard
             examples_processed concat length].
        rewrite Forall_forall in Hne.
        repeat split; try reflexivity; try exact Hn.
        apply (Hne 0), in_seq. lia.
      + repeat split. }
  destruct (relabel_for_files s1 Hp Hne relabel_function Hf eq_refl Hb Hn
              (S (stored_rows s1)) NotStarted _ _ [] Hstart Ha
              (paired_readable s1 true Hp) eq_refl (Nat.lt_succ_diag_r _))
    as (l' & shards & bs & Hdrain & Hfor & Hrel).
  destruct (iterate_batches_stored_rows s1 (internal_batch_size s1)
              Hp Ha (or_intror Hlast) Hb eq_refl) as (bs' & Hit & Hx & Hy').
  assert (bs' = bs).
  { unfold iterate_batches in Hit. rewrite Hdrain in Hit. now injection Hit. }
  subst bs'.
  exists bs, shards.
  split; [exact Hit|]. split; [exact Hx|]. split; [exact Hy'|].
  split; [exact Hrel|].
  unfold relabel. unfold bind at 1, get. rewrite Hfrozen.
  unfold bind at 1, assign. fold s1.
  rewrite (bind_returns _ _ _ _ _ Hy).
  unfold bind at 1, read.
  change 0%Z with (Z.of_nat 0).
  rewrite (get_shard_y_data s1 Hp 0 Hn).
  unfold bind at 1, get. unfold bind at 1.
  assert (Hs1 : set_y_shards (y_shards s1) s1 = s1)
    by (unfold s1; destruct s; reflexivity).
  rewrite Hs1 in Hfor.
  change (length (rows_y s (seq 0 (get_num_shards s))))
    with (shard_start s1 (get_num_shards s1)).
  rewrite Hfor.
  unfold bind at 1, assign. unfold bind, get. reflexivity.
Qed.

Lemma relabel_rewrites_predictions_witness :
  exists bs shards,
    iterate_batches (set_disable_transform true three_and_two) 2
      true true false = Returns bs
    /\ concat (map snd bs) = [1%R; 2%R; 3%R; 4%R; 5%R]
    /\ relabelled three_and_two shards 2
         (concat (map (fun b => all_ones (fst b) (snd b)) bs)) [].
Proof.
  destruct (relabel_rewrites_predictions least_value all_ones three_and_two)
    as (bs & shards & Hit & _ & Hy & Hrel & _).
  - reflexivity.
  - vm_compute. lia.
  - intros _. vm_compute. repeat constructor.
  - vm_compute. lia.
  - vm_compute. repeat constructor.
  - vm_compute. discriminate.
  - intros x y. unfold all_ones. apply length_map.
  - exists bs, shards. split; [exact Hit|].
    split; [etransitivity; [exact Hy | vm_compute; reflexivity]|].
    exact Hrel.
Defined.

(* ================================================================= *)
(** ** What the generator leaves out *)

Section Leftover.

Variable s : DatasetBuilder.
Variable batch_size : nat.
Variables return_x return_y drop_remainder : bool.

(** When the [for] loop ends without a [yield], every row of its
    shards is in the incomplete batch it carried, which is short of a
    full batch. *)
Lemma for_loop_leftover ids :
  forall buf,
    y_batch_size buf = buffered_rows return_y buf ->
    y_batch_size buf < batch_size ->
    aligned s return_x ids ->
    for_loop s batch_size return_x return_y drop_remainder ids buf
    = Returns None ->
    exists buf',
      contents buf'
      = bapp (contents buf)
          (emit s return_x return_y (rows_x s return_x ids) (rows_y s ids))
      /\ buffered_rows return_y buf' < batch_size.
Proof.
  induction ids as [|sid ids IH]; intros buf Hrows Hsize Hal H.
  - exists buf. split; [|now rewrite <- Hrows].
    unfold rows_x, rows_y. cbn [map concat].
    assert (E : emit s return_x return_y (if return_x then [] else []) []
                = ([], [])) by (destruct return_x; apply emit_nil).
    rewrite E. now rewrite bapp_nil_r.
  - cbn [for_loop] in H.
    destruct (if return_x then get_shard_x s (Z.of_nat sid) else Returns [])
      as [xd|e] eqn:Hx; [|discriminate].
    destruct (get_shard_y s (Z.of_nat sid)) as [yd|e] eqn:Hy; [|discriminate].
    assert (Hlen : return_x = true -> length xd = length yd).
    { intros E. pose proof (Hal E) as HF. apply Forall_inv in HF.
      unfold x_data, y_data in HF. rewrite E in Hx.
      now rewrite Hx, Hy in HF. }
    assert (Hal' : aligned s return_x ids).
    { intros E. pose proof (Hal E) as HF. now apply Forall_inv_tail in HF. }
    pose proof (while_loop_emits s batch_size return_x return_y
                  drop_remainder (length yd) sid xd yd 0 buf
                  ltac:(lia) Hsize Hlen) as W.
    pose proof (while_loop_batch_rows s batch_size return_x return_y
                  drop_remainder (length yd) sid xd yd 0 buf Hrows Hsize)
      as B.
    destruct (while_loop _ _ _ _ _ _ _ _ _ _ _) as [b pos|buf'];
      [discriminate|].
    cbn [skipn] in W. destruct W as [W _]. destruct B as [Hrows' Hsize'].
    destruct (IH buf' Hrows' Hsize' Hal' H) as (buf2 & E & Hleft).
    exists buf2. split; [|exact Hleft].
    rewrite E, W, (rows_x_cons s return_x sid ids xd Hx),
      (rows_y_cons s sid ids yd Hy).
    rewrite bapp_assoc. f_equal. symmetry. apply emit_app.
    + intros Ex. unfold when. rewrite Ex. now apply Hlen.
    + intros Ex. unfold when, rows_x. now rewrite Ex.
Qed.

End Leftover.

(** One [next] of the generator, with or without [drop_remainder]: a
    batch is the next rows of the generator, and when it ends the rows
    it has not yielded are short of a full batch. *)
Lemma gen_next_leftover s batch_size return_x return_y drop_remainder g :
  (1 <= batch_size)%Z ->
  gen_wf s return_x g ->
  match gen_next s batch_size return_x return_y drop_remainder g with
  | Returns (Some (b, g')) =>
      gen_wf s return_x g'
      /\ gen_rest s return_x return_y g
         = bapp b (gen_rest s return_x return_y g')
  | Returns None =>
      batch_rows return_y (gen_rest s return_x return_y g)
      < Z.to_nat batch_size
  | Raises _ => True
  end.
Proof.
  intros Hbs Hwf.
  assert (Hsize : y_batch_size empty_buffer < Z.to_nat batch_size)
    by (cbn; lia).
  assert (Hrows : y_batch_size empty_buffer
                  = buffered_rows return_y empty_buffer).
  { unfold buffered_rows. now destruct return_y. }
  assert (Hleft : forall buf',
             buffered_rows return_y buf' < Z.to_nat batch_size ->
             batch_rows return_y (contents buf') < Z.to_nat batch_size).
  { intros buf' H. unfold batch_rows, contents, buffered_rows in *.
    now destruct return_y. }
  destruct g as [|c]; cbn [gen_next].
  - destruct (_ || _); [exact I|].
    cbn [gen_wf] in Hwf.
    pose proof (for_loop_emits s (Z.to_nat batch_size) return_x return_y
                  drop_remainder (seq 0 (get_num_shards s)) empty_buffer
                  Hsize Hwf) as F.
    pose proof (for_loop_leftover s (Z.to_nat batch_size) return_x return_y
                  drop_remainder (seq 0 (get_num_shards s)) empty_buffer
                  Hrows Hsize Hwf) as L.
    destruct (for_loop _ _ _ _ _ _ _) as [[[b [|c]]|]|e];
      try exact I; try contradiction.
    + destruct F as [[pre Hpre] [Hc F]]. split.
      * cbn [gen_wf]. split; [now exists pre|]. split; [|exact Hc].
        rewrite Hpre in Hwf. apply aligned_app in Hwf.
        now apply aligned_tail in Hwf.
      * cbn [gen_rest]. rewrite <- F.
        unfold contents, empty_buffer. cbn [x_batch y_batch concat].
        now rewrite bapp_nil_l.
    + destruct (L eq_refl) as (buf' & E & Hb').
      cbn [gen_rest].
      unfold contents at 2, empty_buffer in E.
      cbn [x_batch y_batch concat] in E. rewrite bapp_nil_l in E.
      rewrite <- E. now apply Hleft.
  - destruct Hwf as [[pre Hpre] [Hal Hc]].
    pose proof (while_loop_emits s (Z.to_nat batch_size) return_x return_y
                  drop_remainder
                  (length (y_shard_data c) - shard_position c)
                  (shard_id c) (x_shard_data c) (y_shard_data c)
                  (shard_position c) empty_buffer (Nat.le_refl _) Hsize Hc)
      as W.
    pose proof (while_loop_batch_rows s (Z.to_nat batch_size) return_x
                  return_y drop_remainder
                  (length (y_shard_data c) - shard_position c)
                  (shard_id c) (x_shard_data c) (y_shard_data c)
                  (shard_position c) empty_buffer Hrows Hsize) as B.
    destruct (while_loop _ _ _ _ _ _ _ _ _ _ _) as [b pos|buf] eqn:Hw.
    + split.
      * cbn [gen_wf shard_id pending x_shard_data y_shard_data].
        split; [now exists pre|]. split; assumption.
      * cbn [gen_rest]. rewrite (emit_rest s return_x return_y c Hc).
        rewrite (emit_rest s return_x return_y
                   (mkCursor (shard_id c) (pending c) (x_shard_data c)
                      (y_shard_data c) pos) Hc).
        cbn [shard_position x_shard_data y_shard_data pending].
        unfold contents, empty_buffer in W. cbn [x_batch y_batch concat] in W.
        rewrite bapp_nil_l in W. rewrite W. now rewrite bapp_assoc.
    + destruct W as [W1 _]. destruct B as [Hrows' Hsize'].
      unfold contents at 2, empty_buffer in W1.
      cbn [x_batch y_batch concat] in W1. rewrite bapp_nil_l in W1.
      pose proof (for_loop_emits s (Z.to_nat batch_size) return_x return_y
                    drop_remainder (pending c) buf Hsize' Hal) as F.
      pose proof (for_loop_leftover s (Z.to_nat batch_size) return_x
                    return_y drop_remainder (pending c) buf
                    Hrows' Hsize' Hal) as L.
      destruct (for_loop _ _ _ _ _ _ _) as [[[b [|c']]|]|e];
        try exact I; try contradiction.
      * destruct F as [[pre' Hpre'] [Hc' F]]. split.
        -- cbn [gen_wf]. split.
           ++ exists (pre ++ shard_id c :: pre').
              rewrite Hpre, Hpre'. now rewrite <- app_assoc.
           ++ split; [|exact Hc'].
              rewrite Hpre' in Hal. apply aligned_app in Hal.
              now apply aligned_tail in Hal.
        -- cbn [gen_rest]. rewrite (emit_rest s return_x return_y c Hc).
           rewrite <- W1. exact F.
      * destruct (L eq_refl) as (buf' & E & Hb').
        cbn [gen_rest]. rewrite (emit_rest s return_x return_y c Hc).
        rewrite <- W1, <- E. now apply Hleft.
Qed.

Lemma batch_rows_bapp return_y a b :
  batch_rows return_y (bapp a b)
  = batch_rows return_y a + batch_rows return_y b.
Proof.
  unfold batch_rows, bapp. cbn [fst snd].
  destruct return_y; apply length_app.
Qed.

Lemma drain_leftover s batch_size return_x return_y drop_remainder :
  (1 <= batch_size)%Z ->
  forall fuel g bs,
    gen_wf s return_x g ->
    drain fuel s batch_size return_x return_y drop_remainder g = Returns bs ->
    exists left,
      gen_rest s return_x return_y g = bapp (concat_batches bs) left
      /\ batch_rows return_y left < Z.to_nat batch_size.
Proof.
  intros Hbs. induction fuel as [|fuel IH]; intros g bs Hwf H;
    [discriminate|].
  cbn [drain] in H.
  pose proof (gen_next_leftover s batch_size return_x return_y
                drop_remainder g Hbs Hwf) as N.
  destruct (gen_next _ _ _ _ _ _) as [[[b g']|]|e]; [| |discriminate].
  - destruct N as [Hwf' N].
    destruct (drain fuel _ _ _ _ _ _) as [bs'|e] eqn:Hd; [|discriminate].
    injection H as <-.
    destruct (IH g' bs' Hwf' Hd) as (left & E & Hleft).
    exists left. split; [|exact Hleft].
    rewrite concat_batches_cons, N, E. now rewrite bapp_assoc.
  - injection H as <-. exists (gen_rest s return_x return_y g).
    split; [|exact N].
    unfold concat_batches. cbn [map concat]. now rewrite bapp_nil_l.
Qed.

Lemma batch_rows_concat return_y n bs :
  Forall (fun b => batch_rows return_y b = n) bs ->
  batch_rows return_y (concat_batches bs) = length bs * n.
Proof.
  induction 1 as [|b bs Hb _ IH].
  - unfold concat_batches, batch_rows. cbn. now destruct return_y.
  - rewrite concat_batches_cons, batch_rows_bapp, IH, Hb. cbn. lia.
Qed.

(** X25.  With or without [drop_remainder], on shards that pair up row for
    row, the batches of [iterate_batches], concatenated, are the first
    of the rows the transform keeps, in order, and fewer than
    [batch_size] rows are left out.  With [drop_remainder], where every
    batch is full, the number of batches is therefore the number of
    those rows divided by [batch_size], rounded down. *)
Theorem iterate_batches_leaves_less_than_a_batch :
  forall s batch_size return_x return_y drop_remainder bs,
    aligned s return_x (seq 0 (get_num_shards s)) ->
    iterate_batches s batch_size return_x return_y drop_remainder
    = Returns bs ->
    exists left,
      emit s return_x return_y
        (rows_x s return_x (seq 0 (get_num_shards s)))
        (rows_y s (seq 0 (get_num_shards s)))
      = bapp (concat_batches bs) left
      /\ batch_rows return_y left < Z.to_nat batch_size
      /\ (drop_remainder = true ->
          length bs
          = batch_rows return_y
              (emit s return_x return_y
                 (rows_x s return_x (seq 0 (get_num_shards s)))
                 (rows_y s (seq 0 (get_num_shards s))))
            / Z.to_nat batch_size).
Proof.
  intros s batch_size return_x return_y drop_remainder bs Ha H.
  assert (Hbs : (1 <= batch_size)%Z).
  { destruct (Z_lt_le_dec batch_size 1) as [Hlt|Hle]; [|exact Hle].
    unfold iterate_batches in H. cbn [drain gen_next] in H.
    apply Z.ltb_lt in Hlt. rewrite Hlt in H. discriminate. }
  unfold iterate_batches in H.
  destruct (drain_leftover s batch_size return_x return_y drop_remainder Hbs
              _ NotStarted bs Ha H) as (left & E & Hleft).
  cbn [gen_rest] in E.
  exists left. split; [exact E|]. split; [exact Hleft|].
  intros Hd.
  pose proof (drain_batch_rows s batch_size return_x return_y drop_remainder
                Hbs _ _ _ H) as Hfull.
  assert (Hfull' : Forall (fun b => batch_rows return_y b
                                    = Z.to_nat batch_size) bs).
  { eapply Forall_impl; [|exact Hfull]. cbv beta. intros b [_ Hb]. auto. }
  rewrite E, batch_rows_bapp, (batch_rows_concat _ _ _ Hfull').
  apply Nat.div_unique with (r := batch_rows return_y left);
    [exact Hleft | lia].
Qed.

Lemma iterate_batches_leaves_less_than_a_batch_witness :
  exists left,
    bapp (concat_batches [([[1%R]; [2%R]], [1%R; 2%R]);
                          ([[3%R]; [4%R]], [3%R; 4%R])]) left
    = ([[1%R]; [2%R]; [3%R]; [4%R]; [5%R]], [1%R; 2%R; 3%R; 4%R; 5%R])
    /\ batch_rows true left < 2.
Proof.
  assert (H : iterate_batches three_and_two 2 true true true
              = Returns [([[1%R]; [2%R]], [1%R; 2%R]);
                         ([[3%R]; [4%R]], [3%R; 4%R])])
    by (vm_compute; reflexivity).
  destruct (iterate_batches_leaves_less_than_a_batch three_and_two 2 true
              true true _ three_and_two_aligned H) as (left & E & Hleft & _).
  exists left. split; [|exact Hleft].
  rewrite <- E. vm_compute. reflexivity.
Defined.

(* ================================================================= *)
(** ** [split] with a shard size of zero *)

Lemma split_loop_zero sample samples sample_id size ids to_disk disk_target :
  split_loop (sample :: samples) sample_id size ids 0 to_disk disk_target
    (mkSide [] [] []) (mkSide [] [] [])
  = Raises NumpyValueError.
Proof.
  cbn [split_loop].
  destruct (existsb (Nat.eqb sample_id) ids); unfold flush, push;
    cbn [partial_shard side_x_shards side_y_shards app length
         Nat.leb Nat.ltb];
    rewrite ?andb_false_r, ?orb_true_r; reflexivity.
Qed.

(** X26.  [split] with [shard_size = 0] on a dataset with a row fails at the
    first sample, whatever the fraction: the side the sample does not go
    to is stacked while it is empty, and numpy refuses.  The error
    leaves the transform disabled.  ([clone] accepts a [shard_size] of
    zero and writes one row per shard.) *)
Theorem split_rejects_zero_shard_size :
  forall (rng : Type) (np_random_choice : rng -> nat -> nat -> list nat * rng)
         (rebuild_dataset :
            DatasetBuilder -> list (shard x_array) -> list (shard y_array)
            -> outcome DatasetBuilder)
         s g fraction to_disk disk_target ids,
    paired s ->
    aligned s true (seq 0 (get_num_shards s)) ->
    0 < get_num_shards s ->
    0 < length (y_data s (get_num_shards s - 1)) ->
    (1 <= internal_batch_size s)%Z ->
    validation_ids rng np_random_choice g (set_disable_transform true s)
      fraction (rows_y s (seq 0 (get_num_shards s))) = Returns ids ->
    split rng np_random_choice rebuild_dataset g fraction 0
      to_disk disk_target s
    = (Raises NumpyValueError, set_disable_transform true s).
Proof.
  intros rng np_random_choice rebuild_dataset s g fraction to_disk
    disk_target ids Hp Ha Hn Hlast Hb Hids.
  destruct (stored_samples s Hp Ha Hn Hlast Hb) as (Hy & Hs & Hlen & Hne).
  unfold split. unfold bind at 1, assign.
  rewrite (bind_returns _ _ _ _ _ Hy).
  unfold bind at 1, read. rewrite Hids.
  unfold bind at 1. rewrite Hs.
  unfold bind at 1.
  destruct (zip_rows _ _) as [|sample samples] eqn:E.
  - apply (f_equal (@length _)) in E.
    rewrite (zip_rows_length _ _ Hlen) in E.
    destruct (rows_y s _); [congruence | discriminate].
  - now rewrite split_loop_zero.
Qed.

Lemma split_rejects_zero_shard_size_witness :
  split unit first_positions rebuild_with_init tt (1 # 2) 0 false "split"
    three_and_two
  = (Raises NumpyValueError, set_disable_transform true three_and_two).
Proof.
  apply (split_rejects_zero_shard_size unit first_positions rebuild_with_init
           three_and_two tt (1 # 2) false "split" [0; 1]
           three_and_two_paired three_and_two_aligned).
  - vm_compute. lia.
  - vm_compute. lia.
  - vm_compute. discriminate.
  - vm_compute. reflexivity.
Defined.
